(** * StreamTech: the live relay of [routes/stream-handler.js]

    A shallow embedding of the two revisions of [StreamHandler] (the
    optimized one with [_buildFFmpegArgs], and the legacy one that builds
    its argument array inline), with the registry [this.streams], the
    child processes it spawns and the events it emits to its sockets. *)

From Stdlib Require Import ZArith Lia Ascii String List Bool.
From Stdlib Require Import DecimalString DecimalZ.
From stdpp Require Import gmap strings list fin_maps.

Local Open Scope string_scope.
Local Open Scope list_scope.
Local Open Scope Z_scope.

(** ** JavaScript values the handler touches *)

(** Numbers are integers here: the model follows JavaScript on the safe
    integers ([|n| <= 2^53 - 1]), where [*], [Math.floor(_ / 2)] and
    [String(_)] are exact. *)
Definition MAX_SAFE_INTEGER : Z := 2 ^ 53 - 1.

(** [String(n)] and the [${n}] of a template literal. *)
Definition String_ (n : Z) : string := NilZero.string_of_int (Z.to_int n).

(** [parseInt(s, 10)] on the decimal numerals [String_] produces. *)
Definition parse_decimal (s : string) : option Z :=
  option_map Z.of_int (NilZero.int_of_string s).

(** [Math.floor(n / 2)]. *)
Definition Math_floor_half (n : Z) : Z := n / 2.

(** [Math.round(ms / 1000)]: JavaScript rounds halves towards +infinity. *)
Definition Math_round_div1000 (ms : Z) : Z := (ms + 500) / 1000.

(** Truthiness of an optional string ([undefined] and [''] are falsy). *)
Definition truthy (s : option string) : bool :=
  match s with
  | None => false
  | Some s => negb (String.eqb s EmptyString)
  end.

(** ** Encoder argument lists *)

(** What [_buildFFmpegArgs] destructures from its second argument. *)
Record encoding := {
  enc_width : Z;
  enc_height : Z;
  enc_fps : Z;
  enc_bitrate : Z
}.

Definition scale_filter (width height : Z) : string :=
  "scale=" +:+ String_ width +:+ ":" +:+ String_ height
  +:+ ":force_original_aspect_ratio=decrease,pad="
  +:+ String_ width +:+ ":" +:+ String_ height +:+ ":(ow-iw)/2:(oh-ih)/2".

(** [process.env.USE_HARDWARE_ENCODING === 'true'] *)
Definition useHardware (env_USE_HARDWARE_ENCODING : option string) : bool :=
  match env_USE_HARDWARE_ENCODING with
  | Some v => String.eqb v "true"
  | None => false
  end.

(** [_buildFFmpegArgs(rtmpUrl, { width, height, fps, bitrate })] of the
    optimized revision. *)
Definition _buildFFmpegArgs (hw : option string) (rtmpUrl : string)
    (e : encoding) : list string :=
  let args :=
    [ "-fflags"; "nobuffer";
      "-flags"; "low_delay";
      "-i"; "pipe:0";
      "-threads"; "4" ] in
  let args :=
    if useHardware hw then
      args ++
      [ "-c:v"; "h264_nvenc";
        "-preset"; "p4";
        "-tune"; "ll";
        "-b:v"; String_ (enc_bitrate e) +:+ "k";
        "-maxrate"; String_ (enc_bitrate e) +:+ "k";
        "-bufsize"; String_ (Math_floor_half (enc_bitrate e)) +:+ "k";
        "-rc"; "cbr";
        "-gpu"; "0" ]
    else
      args ++
      [ "-c:v"; "libx264";
        "-preset"; "ultrafast";
        "-tune"; "zerolatency";
        "-profile:v"; "baseline";
        "-level"; "3.1";
        "-b:v"; String_ (enc_bitrate e) +:+ "k";
        "-maxrate"; String_ (enc_bitrate e) +:+ "k";
        "-bufsize"; String_ (Math_floor_half (enc_bitrate e)) +:+ "k";
        "-threads"; "4";
        "-x264-params"; "nal-hrd=cbr:force-cfr=1" ] in
  args ++
  [ "-pix_fmt"; "yuv420p";
    "-g"; String_ (enc_fps e * 2);
    "-r"; String_ (enc_fps e);
    "-vsync"; "cfr";
    "-vf"; scale_filter (enc_width e) (enc_height e) +:+ ",format=yuv420p";
    "-c:a"; "aac";
    "-b:a"; "128k";
    "-ar"; "44100";
    "-ac"; "2";
    "-f"; "flv";
    rtmpUrl ].

(** The [ffmpegArgs] array literal of the legacy revision's
    [_startStream]. *)
Definition ffmpegArgs_legacy (fullRtmpUrl : string) (e : encoding)
    : list string :=
  [ "-i"; "pipe:0";
    "-c:v"; "libx264";
    "-preset"; "veryfast";
    "-tune"; "zerolatency";
    "-b:v"; String_ (enc_bitrate e) +:+ "k";
    "-maxrate"; String_ (enc_bitrate e) +:+ "k";
    "-bufsize"; String_ (enc_bitrate e * 2) +:+ "k";
    "-pix_fmt"; "yuv420p";
    "-g"; String_ (enc_fps e * 2);
    "-r"; String_ (enc_fps e);
    "-vf"; scale_filter (enc_width e) (enc_height e);
    "-c:a"; "aac";
    "-b:a"; "128k";
    "-ar"; "44100";
    "-ac"; "2";
    "-f"; "flv";
    fullRtmpUrl ].

(** The two revisions of the handler. *)
Inductive revision := Optimized | Legacy.

Definition ffmpegArgs (rev : revision) (hw : option string)
    (fullRtmpUrl : string) (e : encoding) : list string :=
  match rev with
  | Optimized => _buildFFmpegArgs hw fullRtmpUrl e
  | Legacy => ffmpegArgs_legacy fullRtmpUrl e
  end.

(** Reading an argument list the way the encoder does: the value of an
    option is the element that follows its first occurrence. *)
Fixpoint arg_value (flag : string) (args : list string) : option string :=
  match args with
  | x :: rest =>
      match rest with
      | y :: _ => if String.eqb x flag then Some y else arg_value flag rest
      | [] => None
      end
  | [] => None
  end.

(** A rate argument is a decimal numeral followed by [k] (kilobits). *)
Fixpoint strip_k (s : string) : option string :=
  match s with
  | EmptyString => None
  | String c EmptyString =>
      if Ascii.eqb c "k"%char then Some EmptyString else None
  | String c rest => option_map (String c) (strip_k rest)
  end.

Definition kilobits (s : string) : option Z :=
  match strip_k s with
  | Some digits => parse_decimal digits
  | None => None
  end.

Definition arg_kilobits (flag : string) (args : list string) : option Z :=
  match arg_value flag args with
  | Some v => kilobits v
  | None => None
  end.

Definition arg_number (flag : string) (args : list string) : option Z :=
  match arg_value flag args with
  | Some v => parse_decimal v
  | None => None
  end.

(** ** Sockets, child processes and the registry *)

(** The [config] object of a [start-stream] message; an omitted property
    reads as [undefined], here [None]. *)
Record Config := {
  rtmpUrl : option string;
  streamKey : option string;
  width : option Z;
  height : option Z;
  fps : option Z;
  bitrate : option Z
}.

(** The payload of a [stream-data] message: bytes that [Buffer.from]
    accepts, or a value on which it throws. *)
Inductive payload :=
  | Bytes (data : list Byte.byte)
  | Unconvertible.

Inductive signal := SIGTERM.

#[global] Instance signal_eq_dec : EqDecision signal.
Proof. solve_decision. Defined.

(** What the callback of [stdin.write] is called with. *)
Inductive write_result := WriteOk | WriteErr.

(** A [ChildProcess] as the handler sees it. [proc_socket] is the socket
    that its [error] and [close] listeners close over. *)
Record process := {
  proc_socket : string;
  proc_args : list string;
  proc_launched : bool;
  stdin_ended : bool;
  stdin_destroyed : bool;
  stdin_writes : list (list Byte.byte * write_result);
  proc_signals : list signal;
  proc_closed : option (option Z)
}.

(** The value stored in [this.streams]. [ffmpeg] is a reference into the
    process table. *)
Record streamInfo := {
  ffmpeg : option nat;
  startTime : Z;
  bytesReceived : Z;
  config : Config
}.

(** What [socket.emit] sends. *)
Inductive emission :=
  | stream_error (message : string)
  | stream_started (message : string) (startTime : Z)
  | stream_stopped (duration : Z) (bytesReceived : Z).

Record state := {
  streams : gmap string streamInfo;
  processes : list process;
  emitted : list (string * emission)
}.

Definition initial : state :=
  {| streams := ∅; processes := []; emitted := [] |}.

Definition set_streams (f : gmap string streamInfo -> gmap string streamInfo)
    (s : state) : state :=
  {| streams := f (streams s); processes := processes s; emitted := emitted s |}.

Definition set_process (p : nat) (f : process -> process) (s : state) : state :=
  {| streams := streams s;
     processes := alter f p (processes s);
     emitted := emitted s |}.

(** [socket.emit(name, payload)] *)
Definition emit (socket : string) (e : emission) (s : state) : state :=
  {| streams := streams s;
     processes := processes s;
     emitted := emitted s ++ [(socket, e)] |}.

(** [ffmpeg.stdin.end()] *)
Definition stdin_end (pr : process) : process :=
  {| proc_socket := proc_socket pr; proc_args := proc_args pr;
     proc_launched := proc_launched pr;
     stdin_ended := true;
     stdin_destroyed := stdin_destroyed pr;
     stdin_writes := stdin_writes pr;
     proc_signals := proc_signals pr;
     proc_closed := proc_closed pr |}.

(** [ffmpeg.kill(sig)] *)
Definition kill (sig : signal) (pr : process) : process :=
  {| proc_socket := proc_socket pr; proc_args := proc_args pr;
     proc_launched := proc_launched pr;
     stdin_ended := stdin_ended pr;
     stdin_destroyed := stdin_destroyed pr;
     stdin_writes := stdin_writes pr;
     proc_signals := proc_signals pr ++ [sig];
     proc_closed := proc_closed pr |}.

(** [ffmpeg.stdin.write(buffer, cb)]: the call returns; [w] is what the
    pipe later reports to the callback. A pipe that was ended or
    destroyed takes nothing. *)
Definition stdin_write (buffer : list Byte.byte) (w : write_result)
    (pr : process) : process :=
  {| proc_socket := proc_socket pr; proc_args := proc_args pr;
     proc_launched := proc_launched pr;
     stdin_ended := stdin_ended pr;
     stdin_destroyed := stdin_destroyed pr;
     stdin_writes :=
       stdin_writes pr ++
       [(buffer, if stdin_ended pr || stdin_destroyed pr then WriteErr else w)];
     proc_signals := proc_signals pr;
     proc_closed := proc_closed pr |}.

(** The pipe is destroyed (the encoder closed its end). *)
Definition stdin_destroy (pr : process) : process :=
  {| proc_socket := proc_socket pr; proc_args := proc_args pr;
     proc_launched := proc_launched pr;
     stdin_ended := stdin_ended pr;
     stdin_destroyed := true;
     stdin_writes := stdin_writes pr;
     proc_signals := proc_signals pr;
     proc_closed := proc_closed pr |}.

(** The process has exited and its [close] event is delivered. *)
Definition closed (code : option Z) (pr : process) : process :=
  {| proc_socket := proc_socket pr; proc_args := proc_args pr;
     proc_launched := proc_launched pr;
     stdin_ended := stdin_ended pr;
     stdin_destroyed := stdin_destroyed pr;
     stdin_writes := stdin_writes pr;
     proc_signals := proc_signals pr;
     proc_closed := Some code |}.

(** [spawn('ffmpeg', args)] either throws, or returns a handle. A handle
    is returned also when the executable cannot be run (ENOENT, EACCES):
    the child then emits [error] on a later tick, [launched] is false. *)
Inductive spawn_result :=
  | spawn_throws (message : string)
  | spawn_returns (launched : bool).

Definition new_process (socket : string) (args : list string)
    (launched : bool) : process :=
  {| proc_socket := socket; proc_args := args; proc_launched := launched;
     stdin_ended := false; stdin_destroyed := false; stdin_writes := [];
     proc_signals := []; proc_closed := None |}.

(** ** The handler *)

(** [_stopStream(socket)], the same in both revisions. *)
Definition _stopStream (now : Z) (socket : string) (s : state) : state :=
  match streams s !! socket with
  | None => s
  | Some info =>
      let s :=
        match ffmpeg info with
        | Some p => set_process p stdin_end s
        | None => s
        end in
      let s :=
        match ffmpeg info with
        | Some p => set_process p (kill SIGTERM) s
        | None => s
        end in
      let duration := Math_round_div1000 (now - startTime info) in
      let s := emit socket (stream_stopped duration (bytesReceived info)) s in
      set_streams (delete socket) s
  end.

(** The destructuring [{ ..., width = 1920, height = 1080, fps = 30,
    bitrate = 4500 } = config]. *)
Definition destructure (c : Config) : encoding :=
  {| enc_width := default 1920 (width c);
     enc_height := default 1080 (height c);
     enc_fps := default 30 (fps c);
     enc_bitrate := default 4500 (bitrate c) |}.

(** [streamKey ? `${rtmpUrl}/${streamKey}` : rtmpUrl] *)
Definition fullRtmpUrl (url : string) (key : option string) : string :=
  if truthy key then url +:+ "/" +:+ default EmptyString key else url.

(** [_startStream(socket, config)]. [sp] is what [spawn] does when it is
    reached. *)
Definition _startStream (rev : revision) (hw : option string) (now : Z)
    (socket : string) (c : Config) (sp : spawn_result) (s : state) : state :=
  if negb (truthy (rtmpUrl c)) then
    emit socket (stream_error "RTMP URL is required") s
  else
    let s := _stopStream now socket s in
    let url := fullRtmpUrl (default EmptyString (rtmpUrl c)) (streamKey c) in
    let ffmpegArgs := ffmpegArgs rev hw url (destructure c) in
    match sp with
    | spawn_throws message =>
        emit socket (stream_error ("Failed to start stream: " +:+ message)) s
    | spawn_returns launched =>
        let p := length (processes s) in
        let s :=
          {| streams := streams s;
             processes := processes s ++ [new_process socket ffmpegArgs launched];
             emitted := emitted s |} in
        let s :=
          set_streams
            (insert socket
               {| ffmpeg := Some p; startTime := now; bytesReceived := 0;
                  config := c |}) s in
        emit socket (stream_started "Stream started successfully" now) s
    end.

Definition add_bytes (n : Z) (i : streamInfo) : streamInfo :=
  {| ffmpeg := ffmpeg i; startTime := startTime i;
     bytesReceived := bytesReceived i + n; config := config i |}.

Definition is_destroyed (p : nat) (s : state) : bool :=
  from_option stdin_destroyed true (processes s !! p).

(** [_handleData(socket, data)] of the optimized revision. *)
Definition _handleData_optimized (now : Z) (socket : string) (data : payload)
    (w : write_result) (s : state) : state :=
  match streams s !! socket with
  | None => s
  | Some info =>
      match ffmpeg info with
      | None => s
      | Some p =>
          if negb (is_destroyed p s) then
            match data with
            | Bytes buffer =>
                let s := set_process p (stdin_write buffer w) s in
                set_streams (alter (add_bytes (Z.of_nat (length buffer))) socket) s
            | Unconvertible => _stopStream now socket s
            end
          else s
      end
  end.

(** [_handleData(socket, data)] of the legacy revision. *)
Definition _handleData_legacy (socket : string) (data : payload)
    (w : write_result) (s : state) : state :=
  match streams s !! socket with
  | None => s
  | Some info =>
      match ffmpeg info with
      | None => s
      | Some p =>
          match data with
          | Bytes buffer =>
              let s := set_process p (stdin_write buffer w) s in
              set_streams (alter (add_bytes (Z.of_nat (length buffer))) socket) s
          | Unconvertible => s
          end
      end
  end.

Definition _handleData (rev : revision) (now : Z) (socket : string)
    (data : payload) (w : write_result) (s : state) : state :=
  match rev with
  | Optimized => _handleData_optimized now socket data w s
  | Legacy => _handleData_legacy socket data w s
  end.

(** [ffmpeg.on('error', (err) => ...)] of the process [p]. *)
Definition on_error (now : Z) (p : nat) (message : string) (s : state) : state :=
  match processes s !! p with
  | None => s
  | Some pr =>
      let socket := proc_socket pr in
      let s := emit socket (stream_error ("FFmpeg error: " +:+ message)) s in
      _stopStream now socket s
  end.

(** [`${code}`] of an exit code, [null] when a signal ended the process. *)
Definition code_text (code : option Z) : string :=
  match code with
  | Some n => String_ n
  | None => "null"
  end.

(** [code !== 0] *)
Definition code_nonzero (code : option Z) : bool :=
  match code with
  | Some n => negb (n =? 0)
  | None => true
  end.

(** [ffmpeg.on('close', (code) => ...)] of the process [p]. *)
Definition on_close (p : nat) (code : option Z) (s : state) : state :=
  match processes s !! p with
  | None => s
  | Some pr =>
      let socket := proc_socket pr in
      let s := set_process p (closed code) s in
      let s :=
        if code_nonzero code && bool_decide (is_Some (streams s !! socket)) then
          emit socket
            (stream_error
               ("Stream ended unexpectedly (code " +:+ code_text code +:+ ")")) s
        else s in
      set_streams (delete socket) s
  end.

(** [getStreamStatus(socketId)]: [null], or duration, bytes and config. *)
Definition getStreamStatus (now : Z) (socketId : string) (s : state)
    : option (Z * Z * Config) :=
  match streams s !! socketId with
  | None => None
  | Some info =>
      Some (Math_round_div1000 (now - startTime info), bytesReceived info,
            config info)
  end.

(** What reaches the handler: the four socket messages registered in
    [init], and the notifications of the child processes. *)
Inductive event :=
  | start_stream (socket : string) (c : Config) (sp : spawn_result)
  | stream_data (socket : string) (data : payload) (w : write_result)
  | stop_stream (socket : string)
  | disconnect (socket : string)
  | ffmpeg_error (p : nat) (message : string)
  | ffmpeg_close (p : nat) (code : option Z)
  | stdin_destroyed_ev (p : nat).

Section Handler.

Variable rev : revision.
(** [process.env.USE_HARDWARE_ENCODING] *)
Variable hw : option string.

(** One turn of the event loop at clock reading [now]. *)
Definition handle (now : Z) (e : event) (s : state) : state :=
  match e with
  | start_stream socket c sp => _startStream rev hw now socket c sp s
  | stream_data socket data w => _handleData rev now socket data w s
  | stop_stream socket => _stopStream now socket s
  | disconnect socket => _stopStream now socket s
  | ffmpeg_error p message => on_error now p message s
  | ffmpeg_close p code => on_close p code s
  | stdin_destroyed_ev p => set_process p stdin_destroy s
  end.

Definition run (trace : list (Z * event)) (s : state) : state :=
  foldl (fun s te => handle (fst te) (snd te) s) s trace.

End Handler.

(** ** Vocabulary of the properties *)

(** A valid encoding: positive integers, small enough that doubling stays
    a safe integer. *)
Definition valid_number (n : Z) : Prop := 0 < n /\ n * 2 <= MAX_SAFE_INTEGER.

Definition valid_encoding (e : encoding) : Prop :=
  valid_number (enc_width e) /\ valid_number (enc_height e) /\
  valid_number (enc_fps e) /\ valid_number (enc_bitrate e).

(** The last character of a string. *)
Fixpoint last_char (s : string) : option ascii :=
  match s with
  | EmptyString => None
  | String c EmptyString => Some c
  | String _ rest => last_char rest
  end.

(** Sizes of the buffers handed to [stdin.write], and of those the pipe
    took. *)
Definition buffer_size (b : list Byte.byte) : Z := Z.of_nat (length b).

Fixpoint issued_bytes (ws : list (list Byte.byte * write_result)) : Z :=
  match ws with
  | [] => 0
  | (b, _) :: ws => buffer_size b + issued_bytes ws
  end.

Fixpoint forwarded_bytes (ws : list (list Byte.byte * write_result)) : Z :=
  match ws with
  | [] => 0
  | (b, WriteOk) :: ws => buffer_size b + forwarded_bytes ws
  | (_, WriteErr) :: ws => forwarded_bytes ws
  end.

Fixpoint failed_bytes (ws : list (list Byte.byte * write_result)) : Z :=
  match ws with
  | [] => 0
  | (_, WriteOk) :: ws => failed_bytes ws
  | (b, WriteErr) :: ws => buffer_size b + failed_bytes ws
  end.

(** Teardown as [_stopStream] performs it: the input pipe ended and
    SIGTERM sent. *)
Definition torn_down (pr : process) : bool :=
  stdin_ended pr && bool_decide (SIGTERM ∈ proc_signals pr).

(** The widest reading of a session being over: its process has exited, or
    the handler has asked it to stop (torn down), although such a process
    may still be running until its [close] event. *)
Definition terminal (pr : process) : bool :=
  torn_down pr || bool_decide (is_Some (proc_closed pr)).

(** The sessions of a socket that are not over even in that reading: its
    processes that are neither torn down nor closed. *)
Definition live_sessions (socket : string) (s : state) : list nat :=
  List.filter
    (fun p =>
       match processes s !! p with
       | Some pr => String.eqb (proc_socket pr) socket && negb (terminal pr)
       | None => false
       end)
    (seq 0 (length (processes s))).

(** The process a registry entry refers to. *)
Definition registered (socket : string) (s : state) : option nat :=
  match streams s !! socket with
  | Some info => ffmpeg info
  | None => None
  end.

(** The four messages a client sends. *)
Definition client_request (e : event) : bool :=
  match e with
  | start_stream _ _ _ | stream_data _ _ _ | stop_stream _ | disconnect _ => true
  | _ => false
  end.

Definition is_error (e : emission) : bool :=
  match e with stream_error _ => true | _ => false end.

Definition is_stopped (e : emission) : bool :=
  match e with stream_stopped _ _ => true | _ => false end.

(** The emissions to [socket] that satisfy [f], oldest first. *)
Definition emissions_to (f : emission -> bool) (socket : string)
    (log : list (string * emission)) : list emission :=
  omap (fun se => if String.eqb (fst se) socket && f (snd se)
                  then Some (snd se) else None) log.

(** Every registry entry refers to a process of its own socket that was
    not torn down, and counts the bytes handed to that process. *)
Definition entry_ok (procs : list process) (socket : string)
    (info : streamInfo) : Prop :=
  exists p pr,
    ffmpeg info = Some p /\ procs !! p = Some pr /\
    proc_socket pr = socket /\
    stdin_ended pr = false /\ proc_signals pr = [] /\
    bytesReceived info = issued_bytes (stdin_writes pr).

Definition registry_ok (s : state) : Prop :=
  forall socket info, streams s !! socket = Some info ->
    entry_ok (processes s) socket info.

(** Every process whose session is not over is the registered one of its
    socket. *)
Definition tracked (s : state) : Prop :=
  forall p pr, processes s !! p = Some pr -> terminal pr = false ->
    registered (proc_socket pr) s = Some p.

(** A process table only grows: handles stay valid, keep their socket,
    an ended pipe stays ended, and the bytes handed to a process never
    shrink. *)
Definition grows (pr pr' : process) : Prop :=
  proc_socket pr' = proc_socket pr /\
  (stdin_ended pr = true -> stdin_ended pr' = true) /\
  issued_bytes (stdin_writes pr) <= issued_bytes (stdin_writes pr').

Definition table_grows (procs procs' : list process) : Prop :=
  forall p pr, procs !! p = Some pr ->
    exists pr', procs' !! p = Some pr' /\ grows pr pr'.

(** Whether an event is a message of [socket], or the [error] event of
    one of its processes. *)
Definition concerns (socket : string) (s : state) (e : event) : bool :=
  match e with
  | start_stream k _ _ | stream_data k _ _ | stop_stream k | disconnect k =>
      String.eqb k socket
  | ffmpeg_error p _ =>
      match processes s !! p with
      | Some pr => String.eqb (proc_socket pr) socket
      | None => false
      end
  | ffmpeg_close _ _ | stdin_destroyed_ev _ => false
  end.

(** A trace in which [socket] is gone: none of its events concerns it. *)
Fixpoint without (rev : revision) (hw : option string) (socket : string)
    (trace : list (Z * event)) (s : state) : bool :=
  match trace with
  | [] => true
  | (now, e) :: trace =>
      negb (concerns socket s e) &&
      without rev hw socket trace (handle rev hw now e s)
  end.

(** An event that arrives in order: any event but the [close] of an
    encoder whose socket has meanwhile registered another one. *)
Definition in_order (s : state) (e : event) : bool :=
  match e with
  | ffmpeg_close p _ =>
      match processes s !! p with
      | Some pr =>
          match registered (proc_socket pr) s with
          | Some q => Nat.eqb p q
          | None => true
          end
      | None => true
      end
  | _ => true
  end.

Fixpoint orderly (rev : revision) (hw : option string)
    (trace : list (Z * event)) (s : state) : bool :=
  match trace with
  | [] => true
  | (now, e) :: trace =>
      in_order s e && orderly rev hw trace (handle rev hw now e s)
  end.

(** A step that leaves [socket] alone: its registry entry stays as it
    was and nothing (of the kind [f]) is sent to it. *)
Definition untouched (f : emission -> bool) (socket : string)
    (s s' : state) : Prop :=
  streams s' !! socket = streams s !! socket /\
  emissions_to f socket (emitted s') = emissions_to f socket (emitted s).

(** The states the handler reaches from [initial]. *)
Definition reachable (rev : revision) (hw : option string) (s : state) : Prop :=
  exists trace, s = run rev hw trace initial.

(** The start configuration of Scenario A. *)
Definition scenario_A : Config :=
  {| rtmpUrl := Some "rtmp://ingest.example/live";
     streamKey := Some "abc123";
     width := Some 1280; height := Some 720;
     fps := Some 30; bitrate := Some 2500 |}.

(** ** Encoders the registry has lost *)

(** No registry entry refers to the process [p]. *)
Definition unreferenced (p : nat) (s : state) : Prop :=
  forall k i, streams s !! k = Some i -> ffmpeg i <> Some p.

(** An encoder of [socket] that the handler has lost: it was launched, its
    input pipe has not been ended, it has been sent no signal, and no
    registry entry refers to it. *)
Definition orphaned (socket : string) (p : nat) (s : state) : Prop :=
  unreferenced p s /\
  exists pr,
    processes s !! p = Some pr /\ proc_socket pr = socket /\
    proc_launched pr = true /\ stdin_ended pr = false /\ proc_signals pr = [].

(** Whether an event is the [close] of the process [p]. *)
Definition closes (p : nat) (e : event) : bool :=
  match e with
  | ffmpeg_close q _ => Nat.eqb q p
  | _ => false
  end.

(** The exit status of a process: [None] while there is no such process,
    [Some None] while it has not closed. *)
Definition exit_status (p : nat) (s : state) : option (option (option Z)) :=
  proc_closed <$> processes s !! p.

(** The child process that [spawn('ffmpeg', ffmpegArgs)] returns to a start
    request of [socket] with the config [c], when the executable runs. *)
Definition spawned (rev : revision) (hw : option string) (socket : string)
    (c : Config) : process :=
  new_process socket
    (ffmpegArgs rev hw
       (fullRtmpUrl (default EmptyString (rtmpUrl c)) (streamKey c))
       (destructure c))
    true.

(** The entry [_startStream] stores:
    [{ ffmpeg, startTime: Date.now(), bytesReceived: 0, config }]. *)
Definition fresh_entry (p : nat) (now : Z) (c : Config) : streamInfo :=
  {| ffmpeg := Some p; startTime := now; bytesReceived := 0; config := c |}.

(** What the [close] listener sends for an exit code, when the socket has
    an entry. *)
Definition close_report (socket : string) (code : option Z)
    : list (string * emission) :=
  if code_nonzero code
  then [(socket,
         stream_error
           ("Stream ended unexpectedly (code " +:+ code_text code +:+ ")"))]
  else [].

(** ** Further vocabulary: the handler *)

Definition is_started (e : emission) : bool :=
  match e with stream_started _ _ => true | _ => false end.

(** The sockets that were sent [stream-started], oldest first. *)
Definition started_sockets (log : list (string * emission)) : list string :=
  omap (fun se => if is_started (snd se) then Some (fst se) else None) log.

(** The number of [stream-stopped] summaries sent so far. *)
Definition summaries (log : list (string * emission)) : nat :=
  length (List.filter (fun se => is_stopped (snd se)) log).

(** The number of encoders [_stopStream] has torn down so far. *)
Definition teardowns (procs : list process) : nat :=
  length (List.filter torn_down procs).



(** A burst of binary chunks of one socket: arrival time, bytes, and what
    the pipe reports for the write. *)
Definition chunk_events (socket : string)
    (cs : list (Z * list Byte.byte * write_result)) : list (Z * event) :=
  map (fun c => (fst (fst c), stream_data socket (Bytes (snd (fst c))) (snd c))) cs.

Definition chunk_writes (cs : list (Z * list Byte.byte * write_result))
    : list (list Byte.byte * write_result) :=
  map (fun c => (snd (fst c), snd c)) cs.

(** [s'] has the processes of [socket] exactly as [s] has them. *)
Definition same_processes (socket : string) (s s' : state) : Prop :=
  forall p pr, processes s !! p = Some pr -> proc_socket pr = socket ->
    processes s' !! p = Some pr.

(** Every encoder that was spawned has been announced to its socket, and
    nothing else has: the sockets of the [stream-started] emissions are
    the sockets of the process table, in order. *)
Definition announced (s : state) : Prop :=
  started_sockets (emitted s) = map proc_socket (processes s).

(** Every teardown has been reported by a summary, and every summary
    reports a teardown. *)
Definition summarised (s : state) : Prop :=
  teardowns (processes s) = summaries (emitted s).

(** ** The conversion route of [routes/convert.js] *)

(** [s.startsWith(prefix)] *)
Definition startsWith (s prefix : string) : bool := String.prefix prefix s.

(** [s.endsWith(suffix)] *)
Definition endsWith (s suffix : string) : bool :=
  let n := String.length s in
  let m := String.length suffix in
  (m <=? n)%nat && String.eqb (substring (n - m) m s) suffix.

(** [s.replace(pattern, replacement)] with a string pattern: the first
    occurrence only. *)
Fixpoint replace (pattern replacement s : string) : string :=
  if String.prefix pattern s then
    replacement +:+ substring (String.length pattern)
                      (String.length s - String.length pattern) s
  else
    match s with
    | EmptyString => EmptyString
    | String c rest => String c (replace pattern replacement rest)
    end.

(** What multer knows of an uploaded file when it filters it. *)
Record upload := {
  mimetype : string;
  originalname : string
}.

Definition allowedTypes : list string := ["video/"; "application/octet-stream"].

(** [fileFilter(req, file, cb)]: [inl true] for [cb(null, true)], [inr] with
    the message of the error otherwise. *)
Definition fileFilter (file : upload) : bool + string :=
  let isAllowed :=
    existsb (fun type => startsWith (mimetype file) type
                         || String.eqb (mimetype file) type) allowedTypes in
  if isAllowed || endsWith (originalname file) ".webm" then inl true
  else inr "Only video files are allowed".

(** [filename(req, file, cb)]: [now] is [Date.now()] and [random] is
    [Math.round(Math.random() * 1E9)]. *)
Definition filename (now random : Z) : string :=
  let uniqueSuffix := String_ now +:+ "-" +:+ String_ random in
  "recording-" +:+ uniqueSuffix +:+ ".webm".

(** [inputPath.replace('.webm', '.mp4')] *)
Definition outputPath (inputPath : string) : string :=
  replace ".webm" ".mp4" inputPath.

(** [req.body.format || 'mp4'] *)
Definition requested_format (body_format : option string) : string :=
  if truthy body_format then default EmptyString body_format else "mp4".

(** The fluent-ffmpeg command as the route configures it. *)
Record command := {
  videoCodec : option string;
  audioCodec : option string;
  outputOptions : list string;
  format : option string
}.

(** The [switch (format)] of the route. *)
Definition convert_command (fmt : string) : command :=
  if String.eqb fmt "mp4" then
    {| videoCodec := Some "libx264"; audioCodec := Some "aac";
       outputOptions := ["-preset fast"; "-crf 22"; "-movflags +faststart"];
       format := None |}
  else if String.eqb fmt "mov" then
    {| videoCodec := Some "libx264"; audioCodec := Some "aac";
       outputOptions := []; format := Some "mov" |}
  else if String.eqb fmt "avi" then
    {| videoCodec := Some "libxvid"; audioCodec := Some "mp3";
       outputOptions := []; format := Some "avi" |}
  else
    {| videoCodec := Some "libx264"; audioCodec := Some "aac";
       outputOptions := []; format := None |}.

(** An entry of the list [GET /formats] serves. *)
Record format_entry := {
  id : string;
  name : string;
  extension : string;
  recommended : bool
}.

Definition formats : list format_entry :=
  [ {| id := "mp4"; name := "MP4 (H.264)"; extension := ".mp4";
       recommended := true |};
    {| id := "mov"; name := "MOV (QuickTime)"; extension := ".mov";
       recommended := false |};
    {| id := "webm"; name := "WebM (VP9)"; extension := ".webm";
       recommended := false |};
    {| id := "avi"; name := "AVI"; extension := ".avi";
       recommended := false |} ].

(** The answer of [POST /convert]. *)
Inductive response :=
  | json (status : Z) (error : string) (message : option string)
  | download (path : string) (name : string).

(** What one request does: the conversion it runs (input, command,
    output), its answer, and the files it unlinks, in order. *)
Record conversion := {
  job : option (string * command * string);
  answer : response;
  unlinked : list string
}.

(** [router.post('/convert', ...)]. [file] is [req.file.path] when a file
    was uploaded; [failure] is the message of the error the conversion
    ends with, if it does. *)
Definition post_convert (file : option string) (body_format : option string)
    (failure : option string) : conversion :=
  match file with
  | None =>
      {| job := None;
         answer := json 400 "No video file uploaded" None;
         unlinked := [] |}
  | Some inputPath =>
      let output := outputPath inputPath in
      let fmt := requested_format body_format in
      let run := Some (inputPath, convert_command fmt, output) in
      match failure with
      | None =>
          {| job := run;
             answer := download output ("recording." +:+ fmt);
             unlinked := [inputPath; output] |}
      | Some message =>
          {| job := run;
             answer := json 500 "Conversion failed" (Some message);
             unlinked := [inputPath] |}
      end
  end.

(** A string without a dot. *)
Fixpoint dotless (s : string) : bool :=
  match s with
  | EmptyString => true
  | String c rest => negb (Ascii.eqb c ".") && dotless rest
  end.

(** ** The streaming client of [public/js/stream-client.js] *)

(** [x || d] for a number that may be missing: [undefined] and 0 are
    falsy. *)
Definition or_default (x : option Z) (d : Z) : Z :=
  match x with
  | Some n => if n =? 0 then d else n
  | None => d
  end.

(** [s.padStart(2, '0')] *)
Definition padStart2 (s : string) : string :=
  match String.length s with
  | O => "00"
  | S O => "0" +:+ s
  | _ => s
  end.

Module StreamClient.

Inductive recorder_state := inactive | recording.

(** The [MediaRecorder] the client creates. *)
Record recorder := {
  mimeType : string;
  videoBitsPerSecond : Z;
  state : recorder_state
}.

(** The fields of the client. [socket] is [null], or the socket with its
    [connected] flag; [onStatusChange] and [onError] tell whether the
    callback is set. *)
Record t := {
  socket : option bool;
  mediaRecorder : option recorder;
  isStreaming : bool;
  startTime : option Z;
  streamConfig : option Config;
  onStatusChange : bool;
  onError : bool
}.

(** What the client emits on its socket. *)
Inductive message :=
  | start_stream_message (c : Config)
  | stream_data_message (data : list Byte.byte)
  | stop_stream_message.

(** The calls of the two callbacks. *)
Inductive notification :=
  | status_changed (status reason : string)
  | error_reported (message : string).

(** The result of a method: the client afterwards, what it emitted, the
    callbacks it called, and what it returned. *)
Record outcome (A : Type) := {
  client : t;
  sent : list message;
  notified : list notification;
  returned : A
}.

Arguments client {A} _.
Arguments sent {A} _.
Arguments notified {A} _.
Arguments returned {A} _.

Definition report_error (cl : t) (message : string) : list notification :=
  if onError cl then [error_reported message] else [].

Definition report_status (cl : t) (status reason : string) : list notification :=
  if onStatusChange cl then [status_changed status reason] else [].

(** The constructor. *)
Definition new : t :=
  {| socket := None; mediaRecorder := None; isStreaming := false;
     startTime := None; streamConfig := None;
     onStatusChange := false; onError := false |}.

Definition types : list string :=
  [ "video/webm;codecs=vp9,opus";
    "video/webm;codecs=vp8,opus";
    "video/webm;codecs=vp9";
    "video/webm;codecs=vp8";
    "video/webm" ].

(** [_getSupportedMimeType()], given [MediaRecorder.isTypeSupported]. *)
Definition _getSupportedMimeType (isTypeSupported : string -> bool)
    : option string :=
  List.find isTypeSupported types.

(** [_handleStreamEnd(reason)] *)
Definition _handleStreamEnd (reason : string) (cl : t) : t * list notification :=
  ({| socket := socket cl; mediaRecorder := None; isStreaming := false;
      startTime := startTime cl; streamConfig := streamConfig cl;
      onStatusChange := onStatusChange cl; onError := onError cl |},
   report_status cl "offline" reason).

(** The config object of the [start-stream] message. *)
Definition start_config (config : Config) : Config :=
  {| rtmpUrl := rtmpUrl config;
     streamKey := streamKey config;
     width := Some (or_default (width config) 1920);
     height := Some (or_default (height config) 1080);
     fps := Some (or_default (fps config) 30);
     bitrate := Some (or_default (bitrate config) 4500) |}.

(** [start(videoStream, audioStream, config)]. [constructed] and [started]
    are the errors [new MediaRecorder] and [mediaRecorder.start] throw, if
    they do. *)
Definition start (now : Z) (isTypeSupported : string -> bool)
    (constructed started : option string) (config : Config) (cl : t)
    : outcome bool :=
  let fail cl message :=
    {| client := cl; sent := []; notified := report_error cl message;
       returned := false |} in
  if isStreaming cl then
    {| client := cl; sent := []; notified := []; returned := false |}
  else if negb (match socket cl with Some connected => connected | None => false end)
  then fail cl "Not connected to server"
  else if negb (truthy (rtmpUrl config)) then fail cl "RTMP URL is required"
  else
    let cl :=
      {| socket := socket cl; mediaRecorder := mediaRecorder cl;
         isStreaming := isStreaming cl; startTime := startTime cl;
         streamConfig := Some config;
         onStatusChange := onStatusChange cl; onError := onError cl |} in
    match _getSupportedMimeType isTypeSupported with
    | None => fail cl "No supported video format"
    | Some mime =>
        if String.eqb mime EmptyString then fail cl "No supported video format"
        else
        match constructed with
        | Some message => fail cl ("Failed to start streaming: " +:+ message)
        | None =>
            let rec :=
              {| mimeType := mime;
                 videoBitsPerSecond := or_default (bitrate config) 4500 * 1000;
                 state := inactive |} in
            let cl :=
              {| socket := socket cl; mediaRecorder := Some rec;
                 isStreaming := isStreaming cl; startTime := startTime cl;
                 streamConfig := streamConfig cl;
                 onStatusChange := onStatusChange cl; onError := onError cl |} in
            let hello := start_stream_message (start_config config) in
            match started with
            | Some message =>
                {| client := cl; sent := [hello];
                   notified :=
                     report_error cl ("Failed to start streaming: " +:+ message);
                   returned := false |}
            | None =>
                {| client :=
                     {| socket := socket cl;
                        mediaRecorder :=
                          Some {| mimeType := mime;
                                  videoBitsPerSecond := videoBitsPerSecond rec;
                                  state := recording |};
                        isStreaming := true; startTime := Some now;
                        streamConfig := streamConfig cl;
                        onStatusChange := onStatusChange cl;
                        onError := onError cl |};
                   sent := [hello];
                   notified :=
                     report_status cl "connecting" "Connecting to stream...";
                   returned := true |}
            end
        end
    end.

(** [stop()]. The call of [mediaRecorder.stop()] is not shown: the
    recorder is dropped in the same step. *)
Definition stop (cl : t) : outcome unit :=
  if negb (isStreaming cl) then
    {| client := cl; sent := []; notified := []; returned := tt |}
  else
    let goodbye :=
      match socket cl with
      | Some _ => [stop_stream_message]
      | None => []
      end in
    let (cl', notes) := _handleStreamEnd "Stream stopped by user" cl in
    {| client := cl'; sent := goodbye; notified := notes; returned := tt |}.

(** [mediaRecorder.ondataavailable]: [data] is [event.data], when it is
    there. *)
Definition ondataavailable (data : option (list Byte.byte)) (cl : t)
    : list message :=
  match data with
  | Some bytes =>
      if (0 <? length bytes)%nat && isStreaming cl
      then [stream_data_message bytes] else []
  | None => []
  end.

(** The listeners of the three server events and of [disconnect]. *)
Definition on_emission (now : Z) (e : emission) (cl : t)
    : t * list notification :=
  match e with
  | stream_started _ _ =>
      ({| socket := socket cl; mediaRecorder := mediaRecorder cl;
          isStreaming := isStreaming cl; startTime := Some now;
          streamConfig := streamConfig cl;
          onStatusChange := onStatusChange cl; onError := onError cl |},
       report_status cl "live" "Stream is live!")
  | stream_stopped _ _ => _handleStreamEnd "Stream ended" cl
  | stream_error message =>
      let (cl', notes) := _handleStreamEnd message cl in
      (cl', report_error cl message ++ notes)
  end.

Definition on_disconnect (cl : t) : t * list notification :=
  if isStreaming cl then _handleStreamEnd "Disconnected from server" cl
  else (cl, []).

(** [getDuration()] *)
Definition getDuration (now : Z) (cl : t) : Z :=
  match startTime cl with
  | Some t =>
      if negb (isStreaming cl) || (t =? 0) then 0
      else Math_round_div1000 (now - t)
  | None => 0
  end.

(** The body of [getFormattedDuration()] for a duration in seconds. *)
Definition formatted (seconds : Z) : string :=
  let hrs := seconds / 3600 in
  let mins := Z.rem seconds 3600 / 60 in
  let secs := Z.rem seconds 60 in
  if 0 <? hrs then
    String_ hrs +:+ ":" +:+ padStart2 (String_ mins) +:+ ":"
    +:+ padStart2 (String_ secs)
  else padStart2 (String_ mins) +:+ ":" +:+ padStart2 (String_ secs).

Definition getFormattedDuration (now : Z) (cl : t) : string :=
  formatted (getDuration now cl).

(** The message as it arrives at the handler, on the socket [id];
    [sp] is what [spawn] does if the handler reaches it, [w] what the pipe
    reports for a write. *)
Definition arrives (id : string) (sp : spawn_result) (w : write_result)
    (m : message) : event :=
  match m with
  | start_stream_message c => start_stream id c sp
  | stream_data_message data => stream_data id (Bytes data) w
  | stop_stream_message => stop_stream id
  end.

End StreamClient.

(** What a padded field of the formatted duration must satisfy: two
    characters that read back as the number. *)
Definition two_digits (n : Z) : bool :=
  (String.length (padStart2 (String_ n)) =? 2)%nat &&
  match parse_decimal (padStart2 (String_ n)) with
  | Some k => k =? n
  | None => false
  end.

(** The client hears a run of server events, in order: the client
    afterwards and the callbacks it called. *)
Fixpoint client_hears (now : Z) (es : list emission) (cl : StreamClient.t)
    : StreamClient.t * list StreamClient.notification :=
  match es with
  | [] => (cl, [])
  | e :: es =>
      let (cl1, notes1) := StreamClient.on_emission now e cl in
      let (cl2, notes2) := client_hears now es cl1 in
      (cl2, notes1 ++ notes2)
  end.

(** * Properties *)

Example String_4500 : String_ 4500 = "4500".
Proof. reflexivity. Qed.

Example args_sw_bufsize :
  arg_kilobits "-bufsize"
    (_buildFFmpegArgs None "rtmp://a/b"
       {| enc_width := 1280; enc_height := 720; enc_fps := 30; enc_bitrate := 2501 |})
  = Some 1250.
Proof. reflexivity. Qed.

Example scenario_A_args :
  _buildFFmpegArgs None "rtmp://ingest.example/live/abc123" (destructure scenario_A)
  = [ "-fflags"; "nobuffer"; "-flags"; "low_delay"; "-i"; "pipe:0";
      "-threads"; "4"; "-c:v"; "libx264"; "-preset"; "ultrafast";
      "-tune"; "zerolatency"; "-profile:v"; "baseline"; "-level"; "3.1";
      "-b:v"; "2500k"; "-maxrate"; "2500k"; "-bufsize"; "1250k";
      "-threads"; "4"; "-x264-params"; "nal-hrd=cbr:force-cfr=1";
      "-pix_fmt"; "yuv420p"; "-g"; "60"; "-r"; "30"; "-vsync"; "cfr";
      "-vf"; "scale=1280:720:force_original_aspect_ratio=decrease,pad=1280:720:(ow-iw)/2:(oh-ih)/2,format=yuv420p";
      "-c:a"; "aac"; "-b:a"; "128k"; "-ar"; "44100"; "-ac"; "2";
      "-f"; "flv"; "rtmp://ingest.example/live/abc123" ].
Proof. reflexivity. Qed.

(** ** Numerals and argument lookup *)

Section Numerals.

Lemma to_int_not_nil (n : Z) :
  Z.to_int n <> Decimal.Pos Decimal.Nil /\ Z.to_int n <> Decimal.Neg Decimal.Nil.
Proof.
  destruct n as [|q|q]; cbn; split; try discriminate;
    intros [= H]; now apply (DecimalPos.Unsigned.to_uint_nonnil q).
Qed.

Lemma parse_String_ (n : Z) : parse_decimal (String_ n) = Some n.
Proof.
  unfold parse_decimal, String_.
  destruct (to_int_not_nil n) as [Hp Hn].
  rewrite (NilZero.isi _ Hp Hn). cbn. now rewrite DecimalZ.of_to.
Qed.

Lemma strip_k_app (s : string) : strip_k (s +:+ "k") = Some s.
Proof.
  induction s as [|c s IH]; [reflexivity|].
  change (String c s +:+ "k") with (String c (s +:+ "k")).
  destruct s as [|c' s']; [reflexivity|].
  change (strip_k (String c (String c' s' +:+ "k")))
    with (option_map (String c) (strip_k (String c' s' +:+ "k"))).
  now rewrite IH.
Qed.

Lemma kilobits_rate (n : Z) : kilobits (String_ n +:+ "k") = Some n.
Proof. unfold kilobits. rewrite strip_k_app. apply parse_String_. Qed.

Lemma last_char_app_k (s : string) : last_char (s +:+ "k") = Some "k"%char.
Proof.
  induction s as [|c s IH]; [reflexivity|].
  change (String c s +:+ "k") with (String c (s +:+ "k")).
  destruct s as [|c' s']; [reflexivity|].
  change (last_char (String c (String c' s' +:+ "k")))
    with (last_char (String c' s' +:+ "k")).
  exact IH.
Qed.

(** A rate value is never mistaken for an option name. *)
Lemma rate_is_no_flag (s flag : string) :
  last_char flag <> Some "k"%char -> String.eqb (s +:+ "k") flag = false.
Proof.
  intros H. apply String.eqb_neq. intros E. apply H.
  rewrite <- E. apply last_char_app_k.
Qed.

Lemma arg_value_skip (flag x y : string) (rest : list string) :
  String.eqb x flag = false ->
  arg_value flag (x :: y :: rest) = arg_value flag (y :: rest).
Proof. intros H. cbn [arg_value]. now rewrite H. Qed.

Lemma arg_value_hit (flag y : string) (rest : list string) :
  arg_value flag (flag :: y :: rest) = Some y.
Proof. cbn [arg_value]. now rewrite String.eqb_refl. Qed.

End Numerals.

(** Walks an argument list down to the option looked for. *)
Ltac find_arg :=
  repeat (rewrite arg_value_skip;
          [| first [ reflexivity
                   | apply rate_is_no_flag; cbn; discriminate ] ]);
  rewrite arg_value_hit.

Section ArgumentBuilder.

Variable hw : option string.
Variable url : string.

Lemma optimized_bitrate (e : encoding) :
  arg_kilobits "-b:v" (_buildFFmpegArgs hw url e) = Some (enc_bitrate e).
Proof.
  unfold arg_kilobits, _buildFFmpegArgs.
  destruct (useHardware hw); cbn [app]; find_arg; apply kilobits_rate.
Qed.

Lemma optimized_bufsize (e : encoding) :
  arg_kilobits "-bufsize" (_buildFFmpegArgs hw url e)
  = Some (enc_bitrate e / 2).
Proof.
  unfold arg_kilobits, _buildFFmpegArgs.
  destruct (useHardware hw); cbn [app]; find_arg; apply kilobits_rate.
Qed.

Lemma legacy_bitrate (e : encoding) :
  arg_kilobits "-b:v" (ffmpegArgs_legacy url e) = Some (enc_bitrate e).
Proof.
  unfold arg_kilobits, ffmpegArgs_legacy. find_arg. apply kilobits_rate.
Qed.

Lemma legacy_bufsize (e : encoding) :
  arg_kilobits "-bufsize" (ffmpegArgs_legacy url e)
  = Some (enc_bitrate e * 2).
Proof.
  unfold arg_kilobits, ffmpegArgs_legacy. find_arg. apply kilobits_rate.
Qed.

Lemma keyframe_interval (rev : revision) (e : encoding) :
  arg_number "-g" (ffmpegArgs rev hw url e) = Some (enc_fps e * 2).
Proof.
  unfold arg_number, ffmpegArgs, _buildFFmpegArgs, ffmpegArgs_legacy.
  destruct rev; [destruct (useHardware hw)|]; cbn [app];
    find_arg; apply parse_String_.
Qed.

End ArgumentBuilder.

(** ** What [_stopStream] does *)

Section StopStream.

Variable now : Z.
Variable socket : string.

Lemma _stopStream_absent (s : state) :
  streams s !! socket = None -> _stopStream now socket s = s.
Proof. intros H. unfold _stopStream. now rewrite H. Qed.

Lemma _stopStream_present (s : state) (info : streamInfo) (p : nat) :
  streams s !! socket = Some info -> ffmpeg info = Some p ->
  _stopStream now socket s =
  {| streams := delete socket (streams s);
     processes := alter (kill SIGTERM) p (alter stdin_end p (processes s));
     emitted :=
       emitted s ++
       [(socket,
         stream_stopped (Math_round_div1000 (now - startTime info))
           (bytesReceived info))] |}.
Proof. intros H Hp. unfold _stopStream. rewrite H, Hp. reflexivity. Qed.

Lemma _stopStream_unregisters (s : state) :
  streams (_stopStream now socket s) !! socket = None.
Proof.
  unfold _stopStream. destruct (streams s !! socket) eqn:E; [|exact E].
  cbn. apply lookup_delete_eq.
Qed.

Lemma _stopStream_others (s : state) (socket' : string) :
  socket' <> socket ->
  streams (_stopStream now socket s) !! socket' = streams s !! socket'.
Proof.
  intros Hne. unfold _stopStream.
  destruct (streams s !! socket) eqn:E; [|reflexivity].
  destruct (ffmpeg s0); cbn; now apply lookup_delete_ne.
Qed.

Lemma _stopStream_idempotent (s : state) :
  _stopStream now socket (_stopStream now socket s) = _stopStream now socket s.
Proof. apply _stopStream_absent, _stopStream_unregisters. Qed.

End StopStream.

(** ** The registry invariant *)

Section RegistryInvariant.

Lemma entry_ok_alter_other (f : process -> process) (procs : list process)
    (p : nat) (socket : string) (info : streamInfo) :
  (forall pr, procs !! p = Some pr -> proc_socket pr <> socket) ->
  entry_ok procs socket info -> entry_ok (alter f p procs) socket info.
Proof.
  intros Hother (q & pr & Hq & Hpr & Hs & Hrest).
  exists q, pr. split; [exact Hq|]. split; [|auto].
  rewrite list_lookup_alter_ne; [exact Hpr|].
  intros ->. now apply (Hother pr).
Qed.

Lemma entry_ok_alter_same (f : process -> process) (procs : list process)
    (p : nat) (socket : string) (info : streamInfo) :
  (forall pr, proc_socket (f pr) = proc_socket pr /\
              stdin_ended (f pr) = stdin_ended pr /\
              proc_signals (f pr) = proc_signals pr /\
              stdin_writes (f pr) = stdin_writes pr) ->
  entry_ok procs socket info -> entry_ok (alter f p procs) socket info.
Proof.
  intros Hf (q & pr & Hq & Hpr & Hs & He & Hsig & Hb).
  destruct (decide (p = q)) as [->|Hne].
  - exists q, (f pr). destruct (Hf pr) as (E1 & E2 & E3 & E4).
    rewrite list_lookup_alter_eq, Hpr, E1, E2, E3, E4. repeat split; auto.
  - exists q, pr. rewrite list_lookup_alter_ne by exact Hne.
    repeat split; auto.
Qed.

Lemma entry_ok_snoc (procs : list process) (pr : process)
    (socket : string) (info : streamInfo) :
  entry_ok procs socket info -> entry_ok (procs ++ [pr]) socket info.
Proof.
  intros (q & pr' & Hq & Hpr & Hrest).
  exists q, pr'. split; [exact Hq|]. split; [|exact Hrest].
  rewrite lookup_app_l; [exact Hpr|]. now apply lookup_lt_Some in Hpr.
Qed.

(** Tearing down the process of one socket leaves the entries of the
    other sockets as they are. *)
Lemma entry_ok_teardown (procs : list process) (socket socket' : string)
    (info info' : streamInfo) (p : nat) :
  socket' <> socket ->
  entry_ok procs socket info -> ffmpeg info = Some p ->
  entry_ok procs socket' info' ->
  entry_ok (alter (kill SIGTERM) p (alter stdin_end p procs)) socket' info'.
Proof.
  intros Hne (q & pr & Hq & Hpr & Hs & _) Hp Hok.
  assert (q = p) as -> by congruence.
  apply entry_ok_alter_other.
  - intros pr0. rewrite list_lookup_alter_eq, Hpr. cbn.
    intros [= <-]. cbn. congruence.
  - apply entry_ok_alter_other; [|exact Hok].
    intros pr0 Hpr0. congruence.
Qed.

Lemma registry_ok_emit (socket : string) (e : emission) (s : state) :
  registry_ok s -> registry_ok (emit socket e s).
Proof. intros H. exact H. Qed.

Lemma registry_ok_stop (now : Z) (socket : string) (s : state) :
  registry_ok s -> registry_ok (_stopStream now socket s).
Proof.
  intros Hok. destruct (streams s !! socket) as [info|] eqn:E.
  - destruct (Hok _ _ E) as (p & pr & Hp & Hrest).
    rewrite (_stopStream_present _ _ _ _ _ E Hp).
    intros socket' info'. cbn.
    destruct (decide (socket' = socket)) as [->|Hne].
    + now rewrite lookup_delete_eq.
    + rewrite lookup_delete_ne by congruence. intros E'.
      eapply entry_ok_teardown; eauto.
  - now rewrite _stopStream_absent.
Qed.

Lemma registry_ok_start (rev : revision) (hw : option string) (now : Z)
    (socket : string) (c : Config) (sp : spawn_result) (s : state) :
  registry_ok s -> registry_ok (_startStream rev hw now socket c sp s).
Proof.
  intros Hok. unfold _startStream.
  destruct (negb (truthy (rtmpUrl c))); [exact Hok|].
  pose proof (registry_ok_stop now socket s Hok) as Hok1.
  destruct sp as [message|launched]; [exact Hok1|].
  intros socket' info'. cbn.
  destruct (decide (socket' = socket)) as [->|Hne].
  - rewrite lookup_insert_eq. intros [= <-].
    eexists _, _. cbn. split; [reflexivity|].
    split; [apply list_lookup_middle; reflexivity|]. cbn. auto.
  - rewrite lookup_insert_ne by congruence. intros E'.
    apply entry_ok_snoc. exact (Hok1 _ _ E').
Qed.

(** Handing a buffer to the process of one entry and counting it. *)
Lemma registry_ok_write (socket : string) (info : streamInfo) (p : nat)
    (buffer : list Byte.byte) (w : write_result) (s : state) :
  registry_ok s ->
  streams s !! socket = Some info -> ffmpeg info = Some p ->
  registry_ok
    (set_streams (alter (add_bytes (buffer_size buffer)) socket)
       (set_process p (stdin_write buffer w) s)).
Proof.
  intros Hok E Hp socket' info'. cbn.
  destruct (Hok _ _ E) as (q & pr & Hq & Hpr & Hs & He & Hsig & Hb).
  assert (q = p) as -> by congruence.
  destruct (decide (socket' = socket)) as [->|Hne].
  - rewrite lookup_alter_eq, E. cbn. intros [= <-].
    exists p, (stdin_write buffer w pr). cbn.
    rewrite list_lookup_alter_eq, Hpr. cbn. repeat split; auto.
    rewrite Hb. clear. induction (stdin_writes pr) as [|[b r] ws IH]; cbn.
    + lia.
    + rewrite <- IH. lia.
  - rewrite lookup_alter_ne by congruence. intros E'.
    apply entry_ok_alter_other; [|exact (Hok _ _ E')].
    intros pr0 Hpr0. congruence.
Qed.

Lemma registry_ok_data (rev : revision) (now : Z) (socket : string)
    (data : payload) (w : write_result) (s : state) :
  registry_ok s -> registry_ok (_handleData rev now socket data w s).
Proof.
  intros Hok.
  destruct rev; cbn; unfold _handleData_optimized, _handleData_legacy;
    destruct (streams s !! socket) as [info|] eqn:E; try exact Hok;
    destruct (ffmpeg info) as [p|] eqn:Hp; try exact Hok;
    try destruct (negb (is_destroyed p s)); try exact Hok;
    destruct data as [buffer|]; try exact Hok;
    try (now apply registry_ok_stop);
    eapply registry_ok_write; eauto.
Qed.

Lemma registry_ok_set_process (f : process -> process) (p : nat) (s : state) :
  (forall pr, proc_socket (f pr) = proc_socket pr /\
              stdin_ended (f pr) = stdin_ended pr /\
              proc_signals (f pr) = proc_signals pr /\
              stdin_writes (f pr) = stdin_writes pr) ->
  registry_ok s -> registry_ok (set_process p f s).
Proof.
  intros Hf Hok socket info E. apply entry_ok_alter_same; [exact Hf|].
  exact (Hok _ _ E).
Qed.

Lemma registry_ok_delete (socket : string) (s : state) :
  registry_ok s -> registry_ok (set_streams (delete socket) s).
Proof.
  intros Hok socket' info'. cbn. intros E.
  apply lookup_delete_Some in E as [_ E]. exact (Hok _ _ E).
Qed.

Lemma registry_ok_error (now : Z) (p : nat) (message : string) (s : state) :
  registry_ok s -> registry_ok (on_error now p message s).
Proof.
  intros Hok. unfold on_error. destruct (processes s !! p); [|exact Hok].
  apply registry_ok_stop, registry_ok_emit, Hok.
Qed.

Lemma registry_ok_close (p : nat) (code : option Z) (s : state) :
  registry_ok s -> registry_ok (on_close p code s).
Proof.
  intros Hok. unfold on_close. destruct (processes s !! p); [|exact Hok].
  apply registry_ok_delete.
  assert (registry_ok (set_process p (closed code) s)) as Hok1
    by (apply registry_ok_set_process; [intros pr; cbn; auto|exact Hok]).
  destruct (_ && _); [apply registry_ok_emit|]; exact Hok1.
Qed.

Variable rev : revision.
Variable hw : option string.

Lemma registry_ok_handle (now : Z) (e : event) (s : state) :
  registry_ok s -> registry_ok (handle rev hw now e s).
Proof.
  intros Hok. destruct e; cbn [handle].
  - now apply registry_ok_start.
  - now apply registry_ok_data.
  - now apply registry_ok_stop.
  - now apply registry_ok_stop.
  - now apply registry_ok_error.
  - now apply registry_ok_close.
  - apply registry_ok_set_process; [intros pr; cbn; auto|exact Hok].
Qed.

Lemma registry_ok_run (trace : list (Z * event)) (s : state) :
  registry_ok s -> registry_ok (run rev hw trace s).
Proof.
  revert s. induction trace as [|[now e] trace IH]; intros s Hok; [exact Hok|].
  apply IH, registry_ok_handle, Hok.
Qed.

Lemma registry_ok_initial : registry_ok initial.
Proof. intros socket info. cbn. now rewrite lookup_empty. Qed.

Lemma reachable_registry_ok (s : state) :
  reachable rev hw s -> registry_ok s.
Proof. intros [trace ->]. apply registry_ok_run, registry_ok_initial. Qed.

End RegistryInvariant.

(** ** The process table only grows *)

Section Growth.

Lemma issued_bytes_snoc (ws : list (list Byte.byte * write_result))
    (b : list Byte.byte) (r : write_result) :
  issued_bytes (ws ++ [(b, r)]) = issued_bytes ws + buffer_size b.
Proof.
  induction ws as [|[b' r'] ws IH]; cbn; [lia|]. rewrite IH. lia.
Qed.

Lemma issued_bytes_split (ws : list (list Byte.byte * write_result)) :
  issued_bytes ws = forwarded_bytes ws + failed_bytes ws.
Proof.
  induction ws as [|[b [|]] ws IH]; cbn; lia.
Qed.

Lemma failed_bytes_nonneg (ws : list (list Byte.byte * write_result)) :
  0 <= failed_bytes ws.
Proof.
  induction ws as [|[b [|]] ws IH]; cbn; unfold buffer_size; lia.
Qed.

Lemma grows_refl (pr : process) : grows pr pr.
Proof. repeat split; auto; lia. Qed.

Lemma table_grows_refl (procs : list process) : table_grows procs procs.
Proof. intros p pr H. exists pr. split; [exact H|apply grows_refl]. Qed.

Lemma table_grows_trans (l1 l2 l3 : list process) :
  table_grows l1 l2 -> table_grows l2 l3 -> table_grows l1 l3.
Proof.
  intros H12 H23 p pr H1.
  destruct (H12 _ _ H1) as (pr2 & H2 & (Hs2 & He2 & Hb2)).
  destruct (H23 _ _ H2) as (pr3 & H3 & (Hs3 & He3 & Hb3)).
  exists pr3. split; [exact H3|]. repeat split; [congruence|auto|lia].
Qed.

Lemma table_grows_alter (f : process -> process) (p : nat)
    (procs : list process) :
  (forall pr, grows pr (f pr)) -> table_grows procs (alter f p procs).
Proof.
  intros Hf q pr Hq. destruct (decide (p = q)) as [->|Hne].
  - exists (f pr). rewrite list_lookup_alter_eq, Hq. split; [reflexivity|apply Hf].
  - exists pr. rewrite list_lookup_alter_ne by exact Hne.
    split; [exact Hq|apply grows_refl].
Qed.

Lemma table_grows_snoc (procs : list process) (pr : process) :
  table_grows procs (procs ++ [pr]).
Proof.
  intros q pr' Hq. exists pr'. split; [|apply grows_refl].
  rewrite lookup_app_l; [exact Hq|]. now apply lookup_lt_Some in Hq.
Qed.

Lemma grows_stdin_end (pr : process) : grows pr (stdin_end pr).
Proof. repeat split; cbn; auto; lia. Qed.

Lemma grows_kill (sig : signal) (pr : process) : grows pr (kill sig pr).
Proof. repeat split; cbn; auto; lia. Qed.

Lemma grows_stdin_destroy (pr : process) : grows pr (stdin_destroy pr).
Proof. repeat split; cbn; auto; lia. Qed.

Lemma grows_closed (code : option Z) (pr : process) : grows pr (closed code pr).
Proof. repeat split; cbn; auto; lia. Qed.

Lemma grows_stdin_write (b : list Byte.byte) (w : write_result) (pr : process) :
  grows pr (stdin_write b w pr).
Proof.
  repeat split; cbn; auto. rewrite issued_bytes_snoc.
  unfold buffer_size. lia.
Qed.

Lemma table_grows_stop (now : Z) (socket : string) (s : state) :
  table_grows (processes s) (processes (_stopStream now socket s)).
Proof.
  unfold _stopStream. destruct (streams s !! socket) as [info|];
    [|apply table_grows_refl].
  destruct (ffmpeg info) as [p|]; cbn; [|apply table_grows_refl].
  eapply table_grows_trans;
    [apply (table_grows_alter stdin_end p), grows_stdin_end
    |apply table_grows_alter, grows_kill].
Qed.

Variable rev : revision.
Variable hw : option string.

Lemma table_grows_handle (now : Z) (e : event) (s : state) :
  table_grows (processes s) (processes (handle rev hw now e s)).
Proof.
  destruct e as [socket c sp|socket data w|socket|socket|p message|p code|p];
    cbn [handle].
  - unfold _startStream. destruct (negb _); [apply table_grows_refl|].
    destruct sp; cbn; [apply table_grows_stop|].
    eapply table_grows_trans; [apply table_grows_stop|apply table_grows_snoc].
  - destruct rev; cbn; unfold _handleData_optimized, _handleData_legacy;
      destruct (streams s !! socket) as [info|]; try apply table_grows_refl;
      destruct (ffmpeg info) as [p|]; try apply table_grows_refl;
      try destruct (negb (is_destroyed p s)); try apply table_grows_refl;
      destruct data; try apply table_grows_refl;
      try apply table_grows_stop;
      cbn; apply table_grows_alter, grows_stdin_write.
  - apply table_grows_stop.
  - apply table_grows_stop.
  - unfold on_error. destruct (processes s !! p); [|apply table_grows_refl].
    apply (table_grows_stop now _ (emit _ _ s)).
  - unfold on_close. destruct (processes s !! p); [|apply table_grows_refl].
    destruct (_ && _); cbn; apply table_grows_alter, grows_closed.
  - cbn. apply table_grows_alter, grows_stdin_destroy.
Qed.

Lemma table_grows_run (trace : list (Z * event)) (s : state) :
  table_grows (processes s) (processes (run rev hw trace s)).
Proof.
  revert s. induction trace as [|[now e] trace IH]; intros s;
    [apply table_grows_refl|].
  eapply table_grows_trans; [apply table_grows_handle|apply IH].
Qed.

(** Over any stretch of a run, the counter of a session that is still
    registered has not decreased. *)
Lemma bytesReceived_monotone (trace : list (Z * event)) (s : state)
    (socket socket' : string) (info info' : streamInfo) (p : nat) :
  registry_ok s ->
  streams s !! socket = Some info -> ffmpeg info = Some p ->
  streams (run rev hw trace s) !! socket' = Some info' ->
  ffmpeg info' = Some p ->
  bytesReceived info <= bytesReceived info'.
Proof.
  intros Hok E Hp E' Hp'.
  destruct (Hok _ _ E) as (q & pr & Hq & Hpr & _ & _ & _ & Hb).
  assert (q = p) as -> by congruence.
  destruct (registry_ok_run rev hw trace s Hok _ _ E')
    as (q' & pr' & Hq' & Hpr' & _ & _ & _ & Hb').
  assert (q' = p) as -> by congruence.
  destruct (table_grows_run trace s _ _ Hpr) as (pr2 & Hpr2 & (_ & _ & Hle)).
  assert (pr2 = pr') as -> by congruence. lia.
Qed.

End Growth.

(** ** The encoder arguments (C3, C8) *)

(** C8. For every valid encoding, the argument list of either revision,
    with or without hardware encoding, gives [-g] the numeral of twice
    the frame rate. *)
Theorem keyframe_interval_is_twice_fps (rev : revision) (hw : option string)
    (url : string) (e : encoding) :
  valid_encoding e ->
  arg_value "-g" (ffmpegArgs rev hw url e) = Some (String_ (2 * enc_fps e)) /\
  arg_number "-g" (ffmpegArgs rev hw url e) = Some (2 * enc_fps e).
Proof.
  intros _. replace (2 * enc_fps e) with (enc_fps e * 2) by lia.
  split; [|apply keyframe_interval].
  unfold ffmpegArgs, _buildFFmpegArgs, ffmpegArgs_legacy.
  destruct rev; [destruct (useHardware hw)|]; cbn [app]; now find_arg.
Qed.

Lemma keyframe_interval_is_twice_fps_witness :
  valid_encoding (destructure scenario_A) /\
  arg_value "-g"
    (ffmpegArgs Legacy None "rtmp://ingest.example/live/abc123"
       (destructure scenario_A)) = Some "60".
Proof.
  assert (valid_encoding (destructure scenario_A)) as H
    by (unfold valid_encoding, valid_number, MAX_SAFE_INTEGER; cbn; lia).
  split; [exact H|].
  exact (proj1 (keyframe_interval_is_twice_fps Legacy None
                  "rtmp://ingest.example/live/abc123" _ H)).
Defined.

(** C3, as the code has it. For every valid encoding, the optimized
    revision (hardware or software) gives [-bufsize] the floor of half the
    [-b:v] value, in kilobits; the legacy revision gives it twice the
    [-b:v] value. *)
Theorem bufsize_per_revision (hw : option string) (url : string) (e : encoding) :
  valid_encoding e ->
  (arg_kilobits "-b:v" (ffmpegArgs Optimized hw url e) = Some (enc_bitrate e) /\
   arg_kilobits "-bufsize" (ffmpegArgs Optimized hw url e)
   = Some (enc_bitrate e / 2) /\
   2 * (enc_bitrate e / 2) <= enc_bitrate e < 2 * (enc_bitrate e / 2) + 2) /\
  (arg_kilobits "-b:v" (ffmpegArgs Legacy hw url e) = Some (enc_bitrate e) /\
   arg_kilobits "-bufsize" (ffmpegArgs Legacy hw url e)
   = Some (2 * enc_bitrate e)).
Proof.
  intros _. cbn [ffmpegArgs]. repeat split.
  - apply optimized_bitrate.
  - apply optimized_bufsize.
  - pose proof (Z.mul_div_le (enc_bitrate e) 2). lia.
  - pose proof (Z.mod_pos_bound (enc_bitrate e) 2).
    pose proof (Z.div_mod (enc_bitrate e) 2). lia.
  - apply legacy_bitrate.
  - rewrite legacy_bufsize. f_equal. lia.
Qed.

Lemma bufsize_per_revision_witness :
  valid_encoding (destructure scenario_A) /\
  arg_kilobits "-bufsize"
    (ffmpegArgs Optimized (Some "true") "rtmp://ingest.example/live/abc123"
       (destructure scenario_A)) = Some 1250.
Proof.
  assert (valid_encoding (destructure scenario_A)) as H
    by (unfold valid_encoding, valid_number, MAX_SAFE_INTEGER; cbn; lia).
  split; [exact H|].
  exact (proj1 (proj2 (proj1 (bufsize_per_revision (Some "true")
                  "rtmp://ingest.example/live/abc123" _ H)))).
Defined.

(** C3 as stated fails on the legacy argument list: at bitrate 2500 its
    [-bufsize] is 5000k, not 1250k. *)
Lemma legacy_bufsize_is_not_half :
  valid_encoding (destructure scenario_A) /\
  arg_kilobits "-b:v"
    (ffmpegArgs Legacy None "rtmp://ingest.example/live/abc123"
       (destructure scenario_A)) = Some 2500 /\
  arg_kilobits "-bufsize"
    (ffmpegArgs Legacy None "rtmp://ingest.example/live/abc123"
       (destructure scenario_A)) = Some 5000 /\
  5000 <> 2500 / 2.
Proof.
  split; [unfold valid_encoding, valid_number, MAX_SAFE_INTEGER; cbn; lia|].
  split; [reflexivity|]. split; [reflexivity|]. discriminate.
Qed.

(** ** Chunks (C2, C10) *)

(** C10. A chunk arriving on a socket that has no registry entry changes
    nothing: the registry, every process (nothing is written, no counter
    moves) and the emissions stay as they were, in both revisions. *)
Theorem data_without_session_is_ignored (rev : revision) (now : Z)
    (socket : string) (data : payload) (w : write_result) (s : state) :
  streams s !! socket = None ->
  _handleData rev now socket data w s = s.
Proof.
  intros H. destruct rev; cbn;
    unfold _handleData_optimized, _handleData_legacy; now rewrite H.
Qed.

Lemma data_without_session_is_ignored_witness :
  streams initial !! "s1" = None /\
  _handleData Optimized 7 "s1" (Bytes [Byte.x00; Byte.x01]) WriteOk initial
  = initial.
Proof.
  split; [reflexivity|].
  apply (data_without_session_is_ignored Optimized 7 "s1"). reflexivity.
Defined.

Section Counting.

Variable rev : revision.
Variable hw : option string.

(** A chunk on a registered session whose pipe is not destroyed. *)
Lemma _handleData_counts (now : Z) (socket : string) (b : list Byte.byte)
    (w : write_result) (s : state) (info : streamInfo) (p : nat)
    (pr : process) :
  streams s !! socket = Some info -> ffmpeg info = Some p ->
  processes s !! p = Some pr -> stdin_destroyed pr = false ->
  let s' := _handleData rev now socket (Bytes b) w s in
  streams s' !! socket = Some (add_bytes (buffer_size b) info) /\
  processes s' !! p = Some (stdin_write b w pr).
Proof.
  intros E Hp Hpr Hd.
  assert (_handleData rev now socket (Bytes b) w s =
          set_streams (alter (add_bytes (buffer_size b)) socket)
            (set_process p (stdin_write b w) s)) as ->.
  { destruct rev; cbn; unfold _handleData_optimized, _handleData_legacy;
      rewrite E, Hp; [|reflexivity].
    unfold is_destroyed. rewrite Hpr. cbn. now rewrite Hd. }
  cbn. rewrite lookup_alter_eq, E, list_lookup_alter_eq, Hpr. now split.
Qed.

Lemma _startStream_registers (now : Z) (socket : string) (c : Config)
    (launched : bool) (s : state) :
  truthy (rtmpUrl c) = true ->
  let s' := _startStream rev hw now socket c (spawn_returns launched) s in
  let p := length (processes s) in
  streams s' !! socket =
    Some {| ffmpeg := Some p; startTime := now; bytesReceived := 0;
            config := c |} /\
  processes s' =
    processes (_stopStream now socket s) ++
    [new_process socket
       (ffmpegArgs rev hw
          (fullRtmpUrl (default EmptyString (rtmpUrl c)) (streamKey c))
          (destructure c)) launched] /\
  processes s' !! p =
    Some (new_process socket
            (ffmpegArgs rev hw
               (fullRtmpUrl (default EmptyString (rtmpUrl c)) (streamKey c))
               (destructure c)) launched) /\
  emitted s' =
    emitted (_stopStream now socket s) ++
    [(socket, stream_started "Stream started successfully" now)].
Proof.
  intros Hurl. unfold _startStream. rewrite Hurl. cbn.
  assert (length (processes (_stopStream now socket s)) = length (processes s))
    as Hlen.
  { unfold _stopStream. destruct (streams s !! socket) as [info|]; [|reflexivity].
    destruct (ffmpeg info); cbn; [|reflexivity]. now rewrite !length_alter. }
  rewrite Hlen. split; [apply lookup_insert_eq|]. split; [reflexivity|].
  split; [|reflexivity]. apply list_lookup_middle. now rewrite Hlen.
Qed.

End Counting.

(** C2, as the code has it. In every reachable state the counter of a
    registered session equals the total size of the buffers handed to its
    encoder's [stdin.write], whether or not the pipe took them: the
    forwarded bytes plus the bytes of the writes that failed. Over any run
    the counter of a session never decreases. After a start with the
    Scenario A configuration and three chunks of 1000, 2000 and 1500 bytes
    the counter is 4500. *)
Theorem bytesReceived_counts_issued_writes (rev : revision) (hw : option string) :
  (forall s socket info,
     reachable rev hw s -> streams s !! socket = Some info ->
     exists p pr,
       ffmpeg info = Some p /\ processes s !! p = Some pr /\
       bytesReceived info = issued_bytes (stdin_writes pr) /\
       bytesReceived info
       = forwarded_bytes (stdin_writes pr) + failed_bytes (stdin_writes pr) /\
       (failed_bytes (stdin_writes pr) = 0 ->
        bytesReceived info = forwarded_bytes (stdin_writes pr))) /\
  (forall s trace socket socket' info info' p,
     reachable rev hw s ->
     streams s !! socket = Some info -> ffmpeg info = Some p ->
     streams (run rev hw trace s) !! socket' = Some info' ->
     ffmpeg info' = Some p ->
     bytesReceived info <= bytesReceived info') /\
  (forall s socket t0 t1 t2 t3 b1 b2 b3 w1 w2 w3,
     length b1 = 1000%nat -> length b2 = 2000%nat -> length b3 = 1500%nat ->
     bytesReceived <$>
       streams
         (run rev hw
            [(t0, start_stream socket scenario_A (spawn_returns true));
             (t1, stream_data socket (Bytes b1) w1);
             (t2, stream_data socket (Bytes b2) w2);
             (t3, stream_data socket (Bytes b3) w3)] s) !! socket
     = Some 4500).
Proof.
  split; [|split].
  - intros s socket info Hs E.
    destruct (reachable_registry_ok rev hw s Hs _ _ E)
      as (p & pr & Hp & Hpr & _ & _ & _ & Hb).
    exists p, pr. rewrite <- issued_bytes_split.
    repeat split; auto. intros H0. rewrite Hb, issued_bytes_split. lia.
  - intros s trace socket socket' info info' p Hs.
    apply bytesReceived_monotone. now apply reachable_registry_ok in Hs.
  - intros s socket t0 t1 t2 t3 b1 b2 b3 w1 w2 w3 H1 H2 H3.
    cbn [run foldl fst snd handle].
    destruct (_startStream_registers rev hw t0 socket scenario_A true s eq_refl)
      as (E0 & _ & P0 & _).
    destruct (_handleData_counts rev t1 socket b1 w1 _ _ _ _ E0 eq_refl P0 eq_refl)
      as (E1 & P1).
    destruct (_handleData_counts rev t2 socket b2 w2 _ _ _ _ E1 eq_refl P1 eq_refl)
      as (E2 & P2).
    destruct (_handleData_counts rev t3 socket b3 w3 _ _ _ _ E2 eq_refl P2 eq_refl)
      as (E3 & _).
    rewrite E3. cbn. unfold buffer_size. rewrite H1, H2, H3. reflexivity.
Qed.

Lemma bytesReceived_counts_issued_writes_witness :
  let chunk n := Bytes (repeat Byte.x00 n) in
  let s :=
    run Optimized None
      [(0, start_stream "s1" scenario_A (spawn_returns true));
       (40, stream_data "s1" (chunk 1000%nat) WriteOk);
       (80, stream_data "s1" (chunk 2000%nat) WriteOk)] initial in
  reachable Optimized None s /\
  (bytesReceived <$> streams s !! "s1") = Some 3000 /\
  (bytesReceived <$>
     streams (run Optimized None
                [(120, stream_data "s1" (chunk 1500%nat) WriteOk)] s) !! "s1")
  = Some 4500 /\
  3000 <= 4500.
Proof.
  intros chunk s.
  assert (reachable Optimized None s) as Hs by (eexists; reflexivity).
  split; [exact Hs|]. split; [vm_compute; reflexivity|].
  split; [vm_compute; reflexivity|].
  refine (proj1 (proj2 (bytesReceived_counts_issued_writes Optimized None))
            s [(120, stream_data "s1" (chunk 1500%nat) WriteOk)] "s1" "s1"
            (add_bytes 3000
               {| ffmpeg := Some 0%nat; startTime := 0; bytesReceived := 0;
                  config := scenario_A |})
            (add_bytes 4500
               {| ffmpeg := Some 0%nat; startTime := 0; bytesReceived := 0;
                  config := scenario_A |})
            0%nat Hs _ eq_refl _ eq_refl);
    vm_compute; reflexivity.
Defined.

(** C2 as stated fails: a chunk whose write the pipe refuses (the
    callback receives an error) is counted although it was not forwarded. *)
Lemma failed_write_is_counted :
  let s :=
    run Optimized None
      [(0, start_stream "s1" scenario_A (spawn_returns true));
       (40, stream_data "s1" (Bytes [Byte.x00; Byte.x01; Byte.x02]) WriteErr)]
      initial in
  reachable Optimized None s /\
  (bytesReceived <$> streams s !! "s1") = Some 3 /\
  (forwarded_bytes <$> (stdin_writes <$> processes s !! 0%nat)) = Some 0.
Proof.
  cbv zeta. split; [eexists; reflexivity|]. vm_compute. split; reflexivity.
Qed.

(** ** One session per socket, over the requests of clients *)

Section SingleSession.

Lemma registered_emit (k socket : string) (e : emission) (s : state) :
  registered k (emit socket e s) = registered k s.
Proof. reflexivity. Qed.

Lemma terminal_torn_down (pr : process) :
  terminal (kill SIGTERM (stdin_end pr)) = true.
Proof.
  unfold terminal, torn_down. cbn.
  rewrite bool_decide_eq_true_2; [reflexivity|].
  apply list_elem_of_In, in_or_app. right. now left.
Qed.

Lemma tracked_stop (now : Z) (socket : string) (s : state) :
  registry_ok s -> tracked s -> tracked (_stopStream now socket s).
Proof.
  intros Hok Htr. destruct (streams s !! socket) as [info|] eqn:E;
    [|now rewrite _stopStream_absent].
  destruct (Hok _ _ E) as (p & pr & Hp & Hpr & Hsock & _).
  rewrite (_stopStream_present _ _ _ _ _ E Hp).
  intros q pr'. unfold registered. cbn.
  destruct (decide (q = p)) as [->|Hne].
  - rewrite !list_lookup_alter_eq, Hpr. cbn. intros [= <-].
    now rewrite terminal_torn_down.
  - rewrite !list_lookup_alter_ne by congruence. intros Hq Hlive.
    pose proof (Htr _ _ Hq Hlive) as Hreg. unfold registered in Hreg.
    destruct (decide (proc_socket pr' = socket)) as [Heq|Hneq].
    + rewrite Heq, E, Hp in Hreg. congruence.
    + rewrite lookup_delete_ne by congruence. exact Hreg.
Qed.

Lemma tracked_start (rev : revision) (hw : option string) (now : Z)
    (socket : string) (c : Config) (sp : spawn_result) (s : state) :
  registry_ok s -> tracked s ->
  tracked (_startStream rev hw now socket c sp s).
Proof.
  intros Hok Htr. unfold _startStream.
  destruct (negb (truthy (rtmpUrl c))); [exact Htr|].
  pose proof (tracked_stop now socket s Hok Htr) as Htr1.
  pose proof (_stopStream_unregisters now socket s) as Hnone.
  destruct sp as [message|launched]; [exact Htr1|].
  intros q pr. unfold registered. cbn. intros Hq Hlive.
  apply lookup_snoc_Some in Hq as [[Hlt Hq]|[-> <-]].
  - pose proof (Htr1 _ _ Hq Hlive) as Hreg. unfold registered in Hreg.
    destruct (decide (proc_socket pr = socket)) as [Heq|Hneq].
    + rewrite Heq, Hnone in Hreg. discriminate.
    + rewrite lookup_insert_ne by congruence. exact Hreg.
  - cbn. now rewrite lookup_insert_eq.
Qed.

Lemma tracked_write (socket : string) (p : nat) (n : Z)
    (b : list Byte.byte) (w : write_result) (s : state) :
  tracked s ->
  tracked (set_streams (alter (add_bytes n) socket)
             (set_process p (stdin_write b w) s)).
Proof.
  intros Htr q pr. unfold registered. cbn. intros Hq Hlive.
  assert (exists pr0, processes s !! q = Some pr0 /\
                      proc_socket pr0 = proc_socket pr /\
                      terminal pr0 = terminal pr) as (pr0 & Hq0 & Hs0 & Ht0).
  { destruct (decide (p = q)) as [->|Hne].
    - rewrite list_lookup_alter_eq in Hq.
      destruct (processes s !! q) as [pr0|]; [|discriminate].
      injection Hq as <-. now exists pr0.
    - rewrite list_lookup_alter_ne in Hq by exact Hne. now exists pr. }
  rewrite <- Ht0 in Hlive. pose proof (Htr _ _ Hq0 Hlive) as Hreg.
  unfold registered in Hreg. rewrite Hs0 in Hreg.
  rewrite lookup_alter.
  destruct (decide (socket = proc_socket pr)) as [->|_]; [|exact Hreg].
  destruct (streams s !! proc_socket pr); [exact Hreg|discriminate].
Qed.

Lemma tracked_data (rev : revision) (now : Z) (socket : string)
    (data : payload) (w : write_result) (s : state) :
  registry_ok s -> tracked s ->
  tracked (_handleData rev now socket data w s).
Proof.
  intros Hok Htr.
  destruct rev; cbn; unfold _handleData_optimized, _handleData_legacy;
    destruct (streams s !! socket) as [info|] eqn:E; try exact Htr;
    destruct (ffmpeg info) as [p|] eqn:Hp; try exact Htr;
    try destruct (negb (is_destroyed p s)); try exact Htr;
    destruct data as [buffer|]; try exact Htr;
    try (now apply tracked_stop);
    now apply tracked_write.
Qed.

Variable rev : revision.
Variable hw : option string.

Lemma terminal_closed (code : option Z) (pr : process) :
  terminal (closed code pr) = true.
Proof.
  unfold terminal. destruct (torn_down (closed code pr)); reflexivity.
Qed.

Lemma tracked_close (p : nat) (code : option Z) (s : state) :
  in_order s (ffmpeg_close p code) = true ->
  tracked s -> tracked (on_close p code s).
Proof.
  intros Hord Htr. unfold on_close. cbn in Hord.
  destruct (processes s !! p) as [pr|] eqn:Hpr; [|exact Htr].
  assert (tracked (set_streams (delete (proc_socket pr))
                     (set_process p (closed code) s))) as Hgoal.
  { intros q pr'. unfold registered. cbn.
    destruct (decide (q = p)) as [->|Hne].
    - rewrite list_lookup_alter_eq, Hpr. cbn. intros [= <-].
      now rewrite terminal_closed.
    - rewrite list_lookup_alter_ne by congruence. intros Hq Hlive.
      pose proof (Htr _ _ Hq Hlive) as Hreg.
      destruct (decide (proc_socket pr' = proc_socket pr)) as [Heq|Hneq].
      + rewrite <- Heq, Hreg in Hord. apply Nat.eqb_eq in Hord. congruence.
      + rewrite lookup_delete_ne by congruence. exact Hreg. }
  destruct (_ && _); exact Hgoal.
Qed.

Lemma tracked_set_process (g : process -> process) (p : nat) (s : state) :
  (forall pr, proc_socket (g pr) = proc_socket pr /\
              terminal (g pr) = terminal pr) ->
  tracked s -> tracked (set_process p g s).
Proof.
  intros Hg Htr q pr. unfold registered. cbn. intros Hq Hlive.
  destruct (decide (p = q)) as [->|Hne].
  - rewrite list_lookup_alter_eq in Hq.
    destruct (processes s !! q) as [pr0|] eqn:Hq0; [|discriminate].
    injection Hq as <-. destruct (Hg pr0) as [Hs Ht].
    rewrite Hs. apply (Htr _ _ Hq0). congruence.
  - rewrite list_lookup_alter_ne in Hq by exact Hne. now apply Htr.
Qed.

Lemma tracked_handle (now : Z) (e : event) (s : state) :
  in_order s e = true ->
  registry_ok s -> tracked s -> tracked (handle rev hw now e s).
Proof.
  intros He Hok Htr.
  destruct e as [k c sp|k data w|k|k|p message|p code|p]; cbn [handle].
  - now apply tracked_start.
  - now apply tracked_data.
  - now apply tracked_stop.
  - now apply tracked_stop.
  - unfold on_error. destruct (processes s !! p); [|exact Htr].
    now apply tracked_stop.
  - now apply tracked_close.
  - apply tracked_set_process; [intros pr; now split|exact Htr].
Qed.

(** Every orderly run keeps each live process registered. *)
Lemma tracked_run (trace : list (Z * event)) (s : state) :
  orderly rev hw trace s = true ->
  registry_ok s -> tracked s ->
  registry_ok (run rev hw trace s) /\ tracked (run rev hw trace s).
Proof.
  revert s. induction trace as [|[now e] trace IH]; intros s Hord Hok Htr;
    [now split|].
  cbn in Hord. apply andb_prop in Hord as [He Hord].
  apply IH; [exact Hord|now apply registry_ok_handle|now apply tracked_handle].
Qed.

(** The requests of the clients are orderly. *)
Lemma requests_are_orderly (trace : list (Z * event)) (s : state) :
  Forall (fun te => client_request (snd te) = true) trace ->
  orderly rev hw trace s = true.
Proof.
  intros Hall. revert s.
  induction Hall as [|[now e] trace He _ IH]; intros s; [reflexivity|].
  cbn. rewrite IH, andb_true_r. now destruct e.
Qed.

Lemma tracked_initial : tracked initial.
Proof. intros p pr. cbn. discriminate. Qed.

(** With every live process registered, a socket has at most one. *)
Lemma live_sessions_registered (socket : string) (s : state) (p : nat) :
  tracked s -> In p (live_sessions socket s) -> registered socket s = Some p.
Proof.
  intros Htr Hin. unfold live_sessions in Hin.
  apply List.filter_In in Hin as [_ Hp].
  destruct (processes s !! p) as [pr|] eqn:Hpr; [|discriminate].
  apply andb_prop in Hp as [Hs Hl]. apply String.eqb_eq in Hs.
  apply negb_true_iff in Hl. rewrite <- Hs. now apply Htr.
Qed.

Lemma live_sessions_at_most_one (socket : string) (s : state) :
  tracked s -> (length (live_sessions socket s) <= 1)%nat.
Proof.
  intros Htr.
  assert (List.NoDup (live_sessions socket s)) as Hnd
    by (apply List.NoDup_filter, List.seq_NoDup).
  pose proof (live_sessions_registered socket s) as Hreg.
  destruct (live_sessions socket s) as [|p [|q l]]; cbn; try lia.
  assert (p = q) as ->.
  { pose proof (Hreg p Htr (or_introl eq_refl)).
    pose proof (Hreg q Htr (or_intror (or_introl eq_refl))). congruence. }
  apply List.NoDup_cons_iff in Hnd as [Hnd _]. exfalso. apply Hnd. now left.
Qed.

End SingleSession.

Section Teardown.

Lemma registered_Some (socket : string) (s : state) (p : nat) :
  registered socket s = Some p ->
  exists info, streams s !! socket = Some info /\ ffmpeg info = Some p.
Proof.
  unfold registered. destruct (streams s !! socket) as [info|]; [|discriminate].
  intros H. now exists info.
Qed.

Lemma length_processes_stop (now : Z) (socket : string) (s : state) :
  length (processes (_stopStream now socket s)) = length (processes s).
Proof.
  unfold _stopStream. destruct (streams s !! socket) as [info|]; [|reflexivity].
  destruct (ffmpeg info); cbn; [|reflexivity]. now rewrite !length_alter.
Qed.

(** [_stopStream] on a registered session: the pipe is ended, SIGTERM is
    sent, the summary is emitted and the entry is gone. *)
Lemma _stopStream_tears_down (now : Z) (socket : string) (s : state)
    (info : streamInfo) (p : nat) :
  registry_ok s ->
  streams s !! socket = Some info -> ffmpeg info = Some p ->
  let s' := _stopStream now socket s in
  (exists pr pr',
     processes s !! p = Some pr /\ processes s' !! p = Some pr' /\
     stdin_ended pr' = true /\ proc_signals pr' = [SIGTERM] /\
     torn_down pr' = true /\ stdin_writes pr' = stdin_writes pr) /\
  streams s' !! socket = None /\
  (forall k i, streams s' !! k = Some i -> ffmpeg i <> Some p) /\
  emitted s' =
    emitted s ++
    [(socket, stream_stopped (Math_round_div1000 (now - startTime info))
                (bytesReceived info))].
Proof.
  intros Hok E Hp s'.
  pose proof (registry_ok_stop now socket s Hok) as Hok'.
  pose proof (_stopStream_unregisters now socket s) as Hnone.
  destruct (Hok _ _ E) as (q & pr & Hq & Hpr & Hsock & Hend & Hsig & _).
  assert (q = p) as -> by congruence.
  subst s'. rewrite (_stopStream_present _ _ _ _ _ E Hp) in *. cbn in *.
  split; [|split; [exact Hnone|split; [|reflexivity]]].
  - exists pr, (kill SIGTERM (stdin_end pr)).
    rewrite !list_lookup_alter_eq, Hpr. cbn. rewrite Hsig.
    repeat split; auto.
  - intros k i Hk Hi. destruct (Hok' _ _ Hk) as (q & pr' & Hq' & Hpr' & _ & Hend' & _).
    cbn in Hpr'. assert (q = p) as -> by congruence.
    rewrite !list_lookup_alter_eq, Hpr in Hpr'. cbn in Hpr'.
    injection Hpr' as <-. discriminate Hend'.
Qed.

End Teardown.

(** What [_startStream] does achieve. While only requests of clients have
    been handled, and no notification of any encoder has arrived yet, each
    socket has at most one process that was neither torn down nor closed,
    namely the one its registry entry refers to. An accepted start request
    on a socket with a registered session first ends that session's encoder
    (pipe ended, SIGTERM sent) and removes its entry, and only then
    registers the new process. It does not wait for the [close] of the
    encoder it ended. *)
Theorem requests_keep_one_session (rev : revision) (hw : option string)
    (trace : list (Z * event)) (socket : string) :
  Forall (fun te => client_request (snd te) = true) trace ->
  let s := run rev hw trace initial in
  (length (live_sessions socket s) <= 1)%nat /\
  (forall p, In p (live_sessions socket s) -> registered socket s = Some p) /\
  (forall now c sp p,
     registered socket s = Some p -> truthy (rtmpUrl c) = true ->
     let s1 := _stopStream now socket s in
     let s' := _startStream rev hw now socket c sp s in
     (exists pr, processes s1 !! p = Some pr /\ torn_down pr = true) /\
     registered socket s1 = None /\
     s' = _startStream rev hw now socket c sp s1 /\
     (exists pr, processes s' !! p = Some pr /\ torn_down pr = true) /\
     (registered socket s' = None \/
      registered socket s' = Some (length (processes s))) /\
     registered socket s' <> Some p /\
     (length (live_sessions socket s') <= 1)%nat).
Proof.
  intros Hall s.
  destruct (tracked_run rev hw trace initial
              (requests_are_orderly rev hw trace initial Hall)
              registry_ok_initial tracked_initial) as [Hok Htr].
  fold s in Hok, Htr.
  split; [now apply live_sessions_at_most_one|].
  split; [intros p; now apply live_sessions_registered|].
  intros now c sp p Hreg Hurl s1 s'.
  destruct (registered_Some _ _ _ Hreg) as (info & E & Hp).
  destruct (_stopStream_tears_down now socket s info p Hok E Hp)
    as ((pr & pr' & Hpr & Hpr' & _ & _ & Htd & _) & Hnone & _ & _).
  fold s1 in Hpr', Hnone.
  assert (registered socket s1 = None) as Hreg1
    by (unfold registered; now rewrite Hnone).
  assert (s' = _startStream rev hw now socket c sp s1) as Hsame.
  { subst s' s1. unfold _startStream. rewrite Hurl. cbn.
    now rewrite _stopStream_idempotent. }
  assert (p < length (processes s))%nat as Hlt by now apply lookup_lt_Some in Hpr.
  assert (length (processes s1) = length (processes s)) as Hlen
    by apply length_processes_stop.
  split; [now exists pr'|]. split; [exact Hreg1|]. split; [exact Hsame|].
  assert (tracked s') as Htr' by now apply tracked_start.
  assert ((exists pr0, processes s' !! p = Some pr0 /\ torn_down pr0 = true) /\
          (registered socket s' = None \/
           registered socket s' = Some (length (processes s)))) as [Hp' Hr'].
  { subst s'. unfold _startStream. rewrite Hurl. cbn. fold s1.
    destruct sp as [message|launched]; cbn.
    - split; [now exists pr'|]. now left.
    - split.
      + exists pr'. split; [|exact Htd].
        rewrite lookup_app_l; [exact Hpr'|]. lia.
      + right. unfold registered. cbn. rewrite lookup_insert_eq. cbn.
        now rewrite Hlen. }
  split; [exact Hp'|]. split; [exact Hr'|].
  split; [|now apply live_sessions_at_most_one].
  destruct Hr' as [-> | ->]; [discriminate|]. intros [= Heq]. lia.
Qed.

Lemma requests_keep_one_session_witness :
  let trace :=
    [(0, start_stream "s1" scenario_A (spawn_returns true));
     (10, start_stream "s1" scenario_A (spawn_returns true));
     (20, start_stream "s1" scenario_A (spawn_returns true));
     (30, stream_data "s1" (Bytes [Byte.x00]) WriteOk)] in
  Forall (fun te => client_request (snd te) = true) trace /\
  live_sessions "s1" (run Optimized None trace initial) = [2%nat] /\
  (length (live_sessions "s1" (run Optimized None trace initial)) <= 1)%nat.
Proof.
  intros trace.
  assert (Forall (fun te => client_request (snd te) = true) trace) as H
    by (repeat constructor).
  split; [exact H|]. split; [vm_compute; reflexivity|].
  exact (proj1 (requests_keep_one_session Optimized None trace "s1" H)).
Defined.

(** ** What a socket is sent *)

Section Emissions.

Variable f : emission -> bool.
Variable socket : string.

Lemma emissions_to_other (k : string) (e : emission)
    (log : list (string * emission)) :
  k <> socket ->
  emissions_to f socket (log ++ [(k, e)]) = emissions_to f socket log.
Proof.
  intros Hne. unfold emissions_to. rewrite omap_app. cbn.
  apply String.eqb_neq in Hne. rewrite Hne. cbn. apply app_nil_r.
Qed.

Lemma emissions_to_own (e : emission) (log : list (string * emission)) :
  emissions_to f socket (log ++ [(socket, e)])
  = emissions_to f socket log ++ (if f e then [e] else []).
Proof.
  unfold emissions_to. rewrite omap_app. cbn.
  rewrite String.eqb_refl. cbn. now destruct (f e).
Qed.

Lemma untouched_refl (s : state) : untouched f socket s s.
Proof. now split. Qed.

Lemma untouched_trans (s1 s2 s3 : state) :
  untouched f socket s1 s2 -> untouched f socket s2 s3 -> untouched f socket s1 s3.
Proof. intros [A B] [C D]. split; congruence. Qed.

Lemma untouched_emit (k : string) (e : emission) (s : state) :
  k <> socket -> untouched f socket s (emit k e s).
Proof. intros Hne. split; [reflexivity|]. cbn. now apply emissions_to_other. Qed.

Lemma untouched_set_process (p : nat) (g : process -> process) (s : state) :
  untouched f socket s (set_process p g s).
Proof. now split. Qed.

Lemma untouched_stop (now : Z) (k : string) (s : state) :
  k <> socket -> untouched f socket s (_stopStream now k s).
Proof.
  intros Hne. split; [now apply _stopStream_others|].
  unfold _stopStream. destruct (streams s !! k) as [info|]; [|reflexivity].
  destruct (ffmpeg info); cbn; now apply emissions_to_other.
Qed.

Lemma untouched_start (rev : revision) (hw : option string) (now : Z)
    (k : string) (c : Config) (sp : spawn_result) (s : state) :
  k <> socket -> untouched f socket s (_startStream rev hw now k c sp s).
Proof.
  intros Hne. unfold _startStream.
  destruct (negb (truthy (rtmpUrl c))); [now apply untouched_emit|].
  eapply untouched_trans; [now apply (untouched_stop now k)|].
  destruct sp as [message|launched]; [now apply untouched_emit|].
  split; cbn; [now apply lookup_insert_ne|now apply emissions_to_other].
Qed.

Lemma untouched_data (rev : revision) (now : Z) (k : string)
    (data : payload) (w : write_result) (s : state) :
  k <> socket -> untouched f socket s (_handleData rev now k data w s).
Proof.
  intros Hne.
  destruct rev; cbn; unfold _handleData_optimized, _handleData_legacy;
    destruct (streams s !! k) as [info|]; try apply untouched_refl;
    destruct (ffmpeg info) as [p|]; try apply untouched_refl;
    try destruct (negb (is_destroyed p s)); try apply untouched_refl;
    destruct data as [buffer|]; try apply untouched_refl;
    try (now apply untouched_stop);
    (split; cbn; [now apply lookup_alter_ne|reflexivity]).
Qed.

(** The [close] notification of any process, while [socket] has no
    entry: nothing is sent to [socket]. *)
Lemma untouched_close (p : nat) (code : option Z) (s : state) :
  streams s !! socket = None -> untouched f socket s (on_close p code s).
Proof.
  intros Hnone. unfold on_close.
  destruct (processes s !! p) as [pr|]; [|apply untouched_refl].
  destruct (decide (proc_socket pr = socket)) as [->|Hne].
  - cbn. rewrite Hnone. rewrite bool_decide_eq_false_2 by (intros [? ?]; discriminate).
    rewrite andb_false_r. split; cbn; [|reflexivity].
    now rewrite lookup_delete_eq.
  - destruct (_ && _); split; cbn;
      try (now apply lookup_delete_ne);
      [now apply emissions_to_other|reflexivity].
Qed.

Variable rev : revision.
Variable hw : option string.

Lemma untouched_handle (now : Z) (e : event) (s : state) :
  streams s !! socket = None -> concerns socket s e = false ->
  untouched f socket s (handle rev hw now e s).
Proof.
  intros Hnone Hc.
  destruct e as [k c sp|k data w|k|k|p message|p code|p]; cbn in Hc;
    cbn [handle]; try apply String.eqb_neq in Hc.
  - now apply untouched_start.
  - now apply untouched_data.
  - now apply untouched_stop.
  - now apply untouched_stop.
  - unfold on_error. destruct (processes s !! p) as [pr|];
      [|apply untouched_refl].
    apply String.eqb_neq in Hc. cbv zeta.
    eapply untouched_trans;
      [apply (untouched_emit (proc_socket pr)); exact Hc|].
    now apply untouched_stop.
  - now apply untouched_close.
  - apply untouched_set_process.
Qed.

Lemma untouched_run (trace : list (Z * event)) (s : state) :
  streams s !! socket = None -> without rev hw socket trace s = true ->
  untouched f socket s (run rev hw trace s).
Proof.
  revert s. induction trace as [|[now e] trace IH]; intros s Hnone Hw;
    [apply untouched_refl|].
  cbn in Hw. apply andb_prop in Hw as [Hc Hw]. apply negb_true_iff in Hc.
  pose proof (untouched_handle now e s Hnone Hc) as Hstep.
  eapply untouched_trans; [exact Hstep|]. apply IH; [|exact Hw].
  destruct Hstep as [-> _]. exact Hnone.
Qed.

End Emissions.

(** ** Disconnect of a registered session *)

(** On a reachable state in which [socket] has a registry entry,
    a disconnect ends the encoder's input pipe, sends it SIGTERM and
    removes the registry entry; the socket is sent the summary and no
    error. From then on no registry entry ever refers to the process
    again. While the socket stays gone, whatever else happens (the [close]
    of its encoder included), it has no entry and is sent nothing. *)
Theorem registered_disconnect_tears_down (rev : revision) (hw : option string)
    (s : state) (now : Z) (socket : string) (info : streamInfo) (p : nat) :
  reachable rev hw s ->
  streams s !! socket = Some info -> ffmpeg info = Some p ->
  let s' := handle rev hw now (disconnect socket) s in
  (exists pr',
     processes s' !! p = Some pr' /\
     stdin_ended pr' = true /\ proc_signals pr' = [SIGTERM]) /\
  streams s' !! socket = None /\
  emitted s' =
    emitted s ++
    [(socket, stream_stopped (Math_round_div1000 (now - startTime info))
                (bytesReceived info))] /\
  emissions_to is_error socket (emitted s')
  = emissions_to is_error socket (emitted s) /\
  (forall trace k i,
     streams (run rev hw trace s') !! k = Some i -> ffmpeg i <> Some p) /\
  (forall trace,
     without rev hw socket trace s' = true ->
     let s'' := run rev hw trace s' in
     streams s'' !! socket = None /\
     emissions_to (fun _ => true) socket (emitted s'')
     = emissions_to (fun _ => true) socket (emitted s')).
Proof.
  intros Hs E Hp s'. cbn [handle] in s'.
  pose proof (reachable_registry_ok rev hw s Hs) as Hok.
  destruct (_stopStream_tears_down now socket s info p Hok E Hp)
    as ((pr & pr' & Hpr & Hpr' & Hend & Hsig & _ & _) & Hnone & _ & Hem).
  fold s' in Hpr', Hnone, Hem.
  split; [now exists pr'|]. split; [exact Hnone|].
  split; [exact Hem|]. split; [|split].
  - rewrite Hem, emissions_to_own. cbn. apply app_nil_r.
  - intros trace k i Hk Hi.
    assert (registry_ok (run rev hw trace s')) as Hok''
      by (apply registry_ok_run; now apply registry_ok_stop).
    destruct (Hok'' _ _ Hk) as (q & pr2 & Hq & Hpr2 & _ & Hend2 & _).
    assert (q = p) as -> by congruence.
    destruct (table_grows_run rev hw trace s' _ _ Hpr')
      as (pr3 & Hpr3 & (_ & He & _)).
    assert (pr3 = pr2) as -> by congruence.
    rewrite (He Hend) in Hend2. discriminate.
  - intros trace Hw s''.
    destruct (untouched_run (fun _ => true) socket rev hw trace s' Hnone Hw)
      as [Hstr Hsent].
    fold s'' in Hstr, Hsent. split; [now rewrite Hstr|exact Hsent].
Qed.

Lemma registered_disconnect_tears_down_witness :
  let s :=
    run Optimized None
      [(0, start_stream "s1" scenario_A (spawn_returns true));
       (40, stream_data "s1" (Bytes [Byte.x00; Byte.x01]) WriteOk)] initial in
  let s' := handle Optimized None 5400 (disconnect "s1") s in
  reachable Optimized None s /\
  emitted s' =
    [("s1", stream_started "Stream started successfully" 0);
     ("s1", stream_stopped 5 2)] /\
  streams s' !! "s1" = None /\
  emissions_to (fun _ => true) "s1"
    (emitted (run Optimized None [(5500, ffmpeg_close 0%nat None)] s'))
  = emissions_to (fun _ => true) "s1" (emitted s').
Proof.
  intros s s'.
  assert (reachable Optimized None s) as Hs by (eexists; reflexivity).
  split; [exact Hs|]. split; [vm_compute; reflexivity|].
  pose proof (registered_disconnect_tears_down Optimized None s 5400 "s1"
                (add_bytes 2
                   {| ffmpeg := Some 0%nat; startTime := 0; bytesReceived := 0;
                      config := scenario_A |}) 0%nat Hs
                ltac:(vm_compute; reflexivity) eq_refl) as H.
  cbv zeta in H. destruct H as (_ & Hnone & _ & _ & _ & Hlater).
  split; [exact Hnone|].
  exact (proj2 (Hlater [(5500, ffmpeg_close 0%nat None)]
                  ltac:(vm_compute; reflexivity))).
Defined.

(** ** The encoder exits (C4) *)

(** C4, as the code has it. When the encoder of a registered session
    closes with a code other than 0, the registry entry is removed and the
    socket is sent exactly one error event, whose message names the code. *)
Theorem abnormal_exit_is_reported_once (rev : revision) (hw : option string)
    (s : state) (now : Z) (socket : string) (info : streamInfo) (p : nat)
    (code : option Z) :
  reachable rev hw s ->
  streams s !! socket = Some info -> ffmpeg info = Some p ->
  code_nonzero code = true ->
  let s' := handle rev hw now (ffmpeg_close p code) s in
  streams s' !! socket = None /\
  (proc_closed <$> processes s' !! p) = Some (Some code) /\
  emissions_to is_error socket (emitted s')
  = emissions_to is_error socket (emitted s) ++
    [stream_error
       ("Stream ended unexpectedly (code " +:+ code_text code +:+ ")")].
Proof.
  intros Hs E Hp Hcode s'. subst s'. cbn [handle]. unfold on_close.
  destruct (reachable_registry_ok rev hw s Hs _ _ E)
    as (q & pr & Hq & Hpr & Hsock & _).
  assert (q = p) as -> by congruence.
  rewrite Hpr, Hsock, Hcode. cbn.
  rewrite bool_decide_eq_true_2 by (rewrite E; eauto). cbn.
  split; [apply lookup_delete_eq|].
  split; [now rewrite list_lookup_alter_eq, Hpr|].
  apply (emissions_to_own is_error socket).
Qed.

Lemma abnormal_exit_is_reported_once_witness :
  let s :=
    run Optimized None
      [(0, start_stream "s1" scenario_A (spawn_returns true))] initial in
  let s' := handle Optimized None 5000 (ffmpeg_close 0%nat (Some 1)) s in
  reachable Optimized None s /\
  code_nonzero (Some 1) = true /\
  streams s' !! "s1" = None /\
  emissions_to is_error "s1" (emitted s')
  = [stream_error "Stream ended unexpectedly (code 1)"].
Proof.
  intros s s'.
  assert (reachable Optimized None s) as Hs by (eexists; reflexivity).
  split; [exact Hs|]. split; [reflexivity|].
  pose proof (abnormal_exit_is_reported_once Optimized None s 5000 "s1"
                {| ffmpeg := Some 0%nat; startTime := 0; bytesReceived := 0;
                   config := scenario_A |} 0%nat (Some 1) Hs
                ltac:(vm_compute; reflexivity) eq_refl eq_refl) as H.
  cbv zeta in H. destruct H as (Hnone & _ & Herr).
  split; [exact Hnone|]. exact Herr.
Defined.

(** C4 as stated fails: after the encoder of a live session exits with
    code 1 the socket has been sent one error event and no
    [stream-stopped] summary at all. *)
Lemma abnormal_exit_sends_no_summary :
  let s :=
    run Optimized None
      [(0, start_stream "s1" scenario_A (spawn_returns true));
       (40, stream_data "s1" (Bytes [Byte.x00; Byte.x01]) WriteOk);
       (5000, ffmpeg_close 0%nat (Some 1))] initial in
  emitted s =
    [("s1", stream_started "Stream started successfully" 0);
     ("s1", stream_error "Stream ended unexpectedly (code 1)")] /\
  emissions_to is_stopped "s1" (emitted s) = [] /\
  streams s !! "s1" = None.
Proof. vm_compute. repeat split; reflexivity. Qed.

(** ** Start requests (C5, C6, C9) *)

Section Start.

Variable rev : revision.
Variable hw : option string.

Lemma _stopStream_sends_no_error (now : Z) (socket : string) (s : state) :
  emissions_to is_error socket (emitted (_stopStream now socket s))
  = emissions_to is_error socket (emitted s).
Proof.
  unfold _stopStream. destruct (streams s !! socket) as [info|]; [|reflexivity].
  etransitivity; [apply (emissions_to_own is_error socket)|].
  rewrite app_nil_r. now destruct (ffmpeg info).
Qed.

Lemma _startStream_rejects (now : Z) (socket : string) (c : Config)
    (sp : spawn_result) (s : state) :
  truthy (rtmpUrl c) = false ->
  _startStream rev hw now socket c sp s
  = emit socket (stream_error "RTMP URL is required") s.
Proof. intros H. unfold _startStream. now rewrite H. Qed.

Lemma _startStream_throws (now : Z) (socket : string) (c : Config)
    (message : string) (s : state) :
  truthy (rtmpUrl c) = true ->
  _startStream rev hw now socket c (spawn_throws message) s
  = emit socket (stream_error ("Failed to start stream: " +:+ message))
      (_stopStream now socket s).
Proof. intros H. unfold _startStream. now rewrite H. Qed.

End Start.

(** C5, as the code has it. When [spawn] throws, the start request is
    answered with one error, no process is added and the socket has no
    registry entry. When [spawn] returns a handle for an encoder that
    cannot be run, the start request registers the session and answers
    [stream-started]; when the child's [error] event then arrives, the
    socket is sent the error and the summary, the process is torn down and
    the entry is removed. *)
Theorem spawn_failure_is_reported (rev : revision) (hw : option string)
    (s : state) (now : Z) (socket : string) (c : Config) :
  truthy (rtmpUrl c) = true ->
  (forall message,
     let s' := _startStream rev hw now socket c (spawn_throws message) s in
     streams s' !! socket = None /\
     processes s' = processes (_stopStream now socket s) /\
     emitted s' =
       emitted (_stopStream now socket s) ++
       [(socket, stream_error ("Failed to start stream: " +:+ message))]) /\
  (forall message now',
     let s1 := _startStream rev hw now socket c (spawn_returns false) s in
     let p := length (processes s) in
     let s2 := handle rev hw now' (ffmpeg_error p message) s1 in
     registered socket s1 = Some p /\
     emitted s1 =
       emitted (_stopStream now socket s) ++
       [(socket, stream_started "Stream started successfully" now)] /\
     streams s2 !! socket = None /\
     (exists pr,
        processes s2 !! p = Some pr /\
        proc_launched pr = false /\ torn_down pr = true) /\
     emitted s2 =
       emitted s1 ++
       [(socket, stream_error ("FFmpeg error: " +:+ message));
        (socket, stream_stopped (Math_round_div1000 (now' - now)) 0)]).
Proof.
  intros Hurl. split.
  - intros message s'. subst s'. rewrite _startStream_throws by exact Hurl.
    cbn. split; [apply _stopStream_unregisters|]. now split.
  - intros message now' s1 p s2.
    destruct (_startStream_registers rev hw now socket c false s Hurl)
      as (E & _ & P & Hem).
    fold s1 in E, P, Hem. fold p in E, P.
    split; [unfold registered; now rewrite E|]. split; [exact Hem|].
    subst s2. cbn [handle]. unfold on_error. rewrite P.
    cbv beta iota zeta.
    change (proc_socket (new_process socket _ false)) with socket.
    rewrite (_stopStream_present now' socket
               (emit socket (stream_error ("FFmpeg error: " +:+ message)) s1)
               _ p E eq_refl).
    cbn [streams processes emitted emit startTime bytesReceived].
    split; [apply lookup_delete_eq|]. split.
    + eexists. rewrite !list_lookup_alter_eq, P. cbn. split; [reflexivity|].
      split; reflexivity.
    + now rewrite <- app_assoc.
Qed.

Lemma spawn_failure_is_reported_witness :
  truthy (rtmpUrl scenario_A) = true /\
  emitted (_startStream Optimized None 0 "s1" scenario_A
             (spawn_throws "spawn EINVAL") initial)
  = [("s1", stream_error "Failed to start stream: spawn EINVAL")].
Proof.
  split; [reflexivity|].
  exact (proj2 (proj2 (proj1 (spawn_failure_is_reported Optimized None initial
                                0 "s1" scenario_A eq_refl) "spawn EINVAL"))).
Defined.

(** C5 as stated fails: for an encoder that cannot be run (an executable
    that is not found), [spawn] returns a handle, and the start request
    registers the session and reports success. *)
Lemma unlaunchable_encoder_is_registered :
  let s :=
    run Optimized None
      [(0, start_stream "s1" scenario_A (spawn_returns false))] initial in
  registered "s1" s = Some 0%nat /\
  (proc_launched <$> processes s !! 0%nat) = Some false /\
  emitted s = [("s1", stream_started "Stream started successfully" 0)] /\
  emissions_to is_error "s1" (emitted s) = [].
Proof. vm_compute. repeat split; reflexivity. Qed.

(** C6, as the code has it. A start request whose URL is missing or empty
    is answered with the error [RTMP URL is required]; nothing else
    changes: no session is created, no process is spawned, a session the
    socket already has is left alone. The other parameters are not
    checked: with a URL, whatever width, height, fps and bitrate are, the
    encoder is spawned with them and the session is registered without an
    error. *)
Theorem only_the_url_is_validated (rev : revision) (hw : option string)
    (s : state) (now : Z) (socket : string) (c : Config) :
  (truthy (rtmpUrl c) = false ->
   forall sp,
     let s' := _startStream rev hw now socket c sp s in
     streams s' = streams s /\ processes s' = processes s /\
     emitted s' = emitted s ++ [(socket, stream_error "RTMP URL is required")]) /\
  (truthy (rtmpUrl c) = true ->
   forall launched,
     let s' := _startStream rev hw now socket c (spawn_returns launched) s in
     let p := length (processes s) in
     registered socket s' = Some p /\
     processes s' !! p =
       Some (new_process socket
               (ffmpegArgs rev hw
                  (fullRtmpUrl (default EmptyString (rtmpUrl c)) (streamKey c))
                  (destructure c)) launched) /\
     emissions_to is_error socket (emitted s')
     = emissions_to is_error socket (emitted s)).
Proof.
  split.
  - intros Hurl sp s'. subst s'. rewrite _startStream_rejects by exact Hurl.
    now cbn.
  - intros Hurl launched s' p.
    destruct (_startStream_registers rev hw now socket c launched s Hurl)
      as (E & _ & P & Hem).
    fold s' in E, P, Hem. fold p in E, P.
    split; [unfold registered; now rewrite E|]. split; [exact P|].
    rewrite Hem, (emissions_to_own is_error socket). cbn.
    rewrite app_nil_r. apply _stopStream_sends_no_error.
Qed.

Lemma only_the_url_is_validated_witness :
  let c :=
    {| rtmpUrl := Some EmptyString; streamKey := Some "abc123";
       width := Some 1280; height := Some 720;
       fps := Some 30; bitrate := Some 2500 |} in
  truthy (rtmpUrl c) = false /\
  emitted (_startStream Optimized None 0 "s1" c (spawn_returns true) initial)
  = [("s1", stream_error "RTMP URL is required")] /\
  truthy (rtmpUrl scenario_A) = true /\
  registered "s1"
    (_startStream Optimized None 0 "s1" scenario_A (spawn_returns true) initial)
  = Some 0%nat.
Proof.
  intros c. split; [reflexivity|].
  split.
  - exact (proj2 (proj2 (proj1 (only_the_url_is_validated Optimized None
                                  initial 0 "s1" c) eq_refl (spawn_returns true)))).
  - split; [reflexivity|].
    exact (proj1 (proj2 (only_the_url_is_validated Optimized None
                           initial 0 "s1" scenario_A) eq_refl true)).
Defined.

(** C6 as stated fails: a start request with a URL and with width 0,
    height -720, fps 0 and bitrate -1 is not rejected; the encoder is
    spawned with these values and the session is registered. *)
Lemma nonpositive_parameters_are_accepted :
  let c :=
    {| rtmpUrl := Some "rtmp://ingest.example/live"; streamKey := None;
       width := Some 0; height := Some (-720);
       fps := Some 0; bitrate := Some (-1) |} in
  let s := run Optimized None [(0, start_stream "s1" c (spawn_returns true))]
             initial in
  registered "s1" s = Some 0%nat /\
  (arg_value "-b:v" <$> (proc_args <$> processes s !! 0%nat))
  = Some (Some "-1k") /\
  (arg_value "-g" <$> (proc_args <$> processes s !! 0%nat))
  = Some (Some "0") /\
  emitted s = [("s1", stream_started "Stream started successfully" 0)].
Proof. vm_compute. repeat split; reflexivity. Qed.

(** C9. A start request that passes the URL check spawns the encoder with
    the arguments built from the given width, height, fps and bitrate,
    each replaced by 1920, 1080, 30 and 4500 when it is omitted; a
    request whose URL is omitted is answered with the error instead, and
    nothing is spawned. *)
Theorem omitted_parameters_take_defaults (rev : revision) (hw : option string)
    (s : state) (now : Z) (socket : string) (c : Config) :
  (truthy (rtmpUrl c) = true ->
   forall launched,
     let s' := _startStream rev hw now socket c (spawn_returns launched) s in
     let url := fullRtmpUrl (default EmptyString (rtmpUrl c)) (streamKey c) in
     (proc_args <$> processes s' !! length (processes s))
     = Some (ffmpegArgs rev hw url
               {| enc_width := match width c with Some n => n | None => 1920 end;
                  enc_height := match height c with Some n => n | None => 1080 end;
                  enc_fps := match fps c with Some n => n | None => 30 end;
                  enc_bitrate :=
                    match bitrate c with Some n => n | None => 4500 end |}) /\
     (width c = None -> height c = None -> fps c = None -> bitrate c = None ->
      (proc_args <$> processes s' !! length (processes s))
      = Some (ffmpegArgs rev hw url
                {| enc_width := 1920; enc_height := 1080; enc_fps := 30;
                   enc_bitrate := 4500 |}))) /\
  (rtmpUrl c = None ->
   forall sp,
     let s' := _startStream rev hw now socket c sp s in
     processes s' = processes s /\ streams s' = streams s /\
     emitted s' = emitted s ++ [(socket, stream_error "RTMP URL is required")]).
Proof.
  split.
  - intros Hurl launched s' url.
    destruct (_startStream_registers rev hw now socket c launched s Hurl)
      as (_ & _ & P & _).
    fold s' in P. rewrite P. cbn. split; [reflexivity|].
    intros Hw Hh Hf Hb. unfold destructure. now rewrite Hw, Hh, Hf, Hb.
  - intros Hnone sp s'. subst s'.
    rewrite _startStream_rejects by (now rewrite Hnone). now cbn.
Qed.

Lemma omitted_parameters_take_defaults_witness :
  let c :=
    {| rtmpUrl := Some "rtmp://ingest.example/live"; streamKey := Some "abc123";
       width := None; height := None; fps := None; bitrate := None |} in
  let s' := _startStream Optimized None 0 "s1" c (spawn_returns true) initial in
  truthy (rtmpUrl c) = true /\
  (proc_args <$> processes s' !! 0%nat)
  = Some (ffmpegArgs Optimized None "rtmp://ingest.example/live/abc123"
            {| enc_width := 1920; enc_height := 1080; enc_fps := 30;
               enc_bitrate := 4500 |}) /\
  (arg_value "-g" <$> (proc_args <$> processes s' !! 0%nat)) = Some (Some "60").
Proof.
  intros c s'. split; [reflexivity|].
  split; [|vm_compute; reflexivity].
  exact (proj2 (proj1 (omitted_parameters_take_defaults Optimized None initial
                         0 "s1" c) eq_refl true)
           eq_refl eq_refl eq_refl eq_refl).
Defined.

(** ** Beyond the client's requests *)

(** A socket keeps at most one session that is not over also with the
    notifications of the encoders in the run, as long as they arrive in
    order. *)
Lemma orderly_runs_keep_one_session (rev : revision) (hw : option string)
    (trace : list (Z * event)) (socket : string) :
  orderly rev hw trace initial = true ->
  let s := run rev hw trace initial in
  (length (live_sessions socket s) <= 1)%nat /\
  (forall p, In p (live_sessions socket s) -> registered socket s = Some p).
Proof.
  intros Hord s.
  destruct (tracked_run rev hw trace initial Hord registry_ok_initial
              tracked_initial) as [_ Htr].
  fold s in Htr. split; [now apply live_sessions_at_most_one|].
  intros p. now apply live_sessions_registered.
Qed.

(** The order matters. The [close] listener of an encoder deletes whatever
    entry its socket has at that time: when the encoder had been stopped
    and the socket has started again meanwhile, it is the entry of the new
    encoder that goes, the socket is sent an error, and the new encoder
    keeps running unregistered, so that a further start does not end it. *)
Lemma close_of_a_replaced_encoder :
  let before :=
    run Optimized None
      [(0, start_stream "s1" scenario_A (spawn_returns true));
       (10, stop_stream "s1");
       (20, start_stream "s1" scenario_A (spawn_returns true))] initial in
  let after := run Optimized None [(30, ffmpeg_close 0%nat None)] before in
  let again :=
    run Optimized None
      [(40, start_stream "s1" scenario_A (spawn_returns true))] after in
  registered "s1" before = Some 1%nat /\
  live_sessions "s1" before = [1%nat] /\
  registered "s1" after = None /\
  live_sessions "s1" after = [1%nat] /\
  emissions_to is_error "s1" (emitted after)
  = [stream_error "Stream ended unexpectedly (code null)"] /\
  registered "s1" again = Some 2%nat /\
  live_sessions "s1" again = [1%nat; 2%nat].
Proof. vm_compute. repeat split; reflexivity. Qed.

(** ** Encoders the registry has lost (C1, C7) *)

Section Orphans.

Variable socket : string.
Variable p : nat.

Lemma unreferenced_delete (k : string) (s : state) :
  unreferenced p s -> unreferenced p (set_streams (delete k) s).
Proof.
  intros H k' i Hk. cbn in Hk. apply lookup_delete_Some in Hk as [_ Hk].
  exact (H _ _ Hk).
Qed.

Lemma orphaned_stop (now : Z) (k : string) (s : state) :
  orphaned socket p s -> orphaned socket p (_stopStream now k s).
Proof.
  intros [Hun Hpr]. unfold _stopStream.
  destruct (streams s !! k) as [info|] eqn:E; [|now split].
  split.
  - intros k' i Hk. cbn in Hk. apply lookup_delete_Some in Hk as [_ Hk].
    destruct (ffmpeg info); exact (Hun _ _ Hk).
  - destruct (ffmpeg info) as [q|] eqn:Hq; cbn; [|exact Hpr].
    rewrite !list_lookup_alter_ne; [exact Hpr| |];
      intros ->; exact (Hun _ _ E Hq).
Qed.

Lemma orphaned_emit (k : string) (e : emission) (s : state) :
  orphaned socket p s -> orphaned socket p (emit k e s).
Proof. intros H. exact H. Qed.

Lemma orphaned_start (rev : revision) (hw : option string) (now : Z)
    (k : string) (c : Config) (sp : spawn_result) (s : state) :
  orphaned socket p s -> orphaned socket p (_startStream rev hw now k c sp s).
Proof.
  intros H. unfold _startStream.
  destruct (negb (truthy (rtmpUrl c))); [exact H|]. cbn.
  pose proof (orphaned_stop now k s H) as [Hun (pr & Hpr & Hrest)].
  destruct sp as [message|launched]; [now split; [|exists pr]|].
  assert (p < length (processes (_stopStream now k s)))%nat as Hlt
    by now apply lookup_lt_Some in Hpr.
  split.
  - intros k' i Hk. cbn in Hk. apply lookup_insert_Some in Hk as [[_ <-]|[_ Hk]].
    + cbn. intros [= Heq]. lia.
    + exact (Hun _ _ Hk).
  - exists pr. cbn. rewrite lookup_app_l by exact Hlt. now split.
Qed.

Lemma orphaned_write (k : string) (info : streamInfo) (q : nat) (n : Z)
    (b : list Byte.byte) (w : write_result) (s : state) :
  streams s !! k = Some info -> ffmpeg info = Some q ->
  orphaned socket p s ->
  orphaned socket p
    (set_streams (alter (add_bytes n) k) (set_process q (stdin_write b w) s)).
Proof.
  intros E Hq [Hun Hpr]. split.
  - intros k' i Hk. cbn in Hk.
    apply lookup_alter_Some in Hk as [(_ & i0 & Hi0 & ->)|[_ Hk]].
    + cbn. exact (Hun _ _ Hi0).
    + exact (Hun _ _ Hk).
  - cbn. rewrite list_lookup_alter_ne; [exact Hpr|].
    intros ->. exact (Hun _ _ E Hq).
Qed.

Lemma orphaned_data (rev : revision) (now : Z) (k : string) (data : payload)
    (w : write_result) (s : state) :
  orphaned socket p s -> orphaned socket p (_handleData rev now k data w s).
Proof.
  intros H.
  destruct rev; cbn; unfold _handleData_optimized, _handleData_legacy;
    destruct (streams s !! k) as [info|] eqn:E; try exact H;
    destruct (ffmpeg info) as [q|] eqn:Hq; try exact H.
  - destruct (negb (is_destroyed q s)); [|exact H].
    destruct data as [b|]; [now apply (orphaned_write k info q)|].
    now apply orphaned_stop.
  - destruct data as [b|]; [now apply (orphaned_write k info q)|exact H].
Qed.

(** A change of a process that leaves its pipe and its signals alone. *)
Lemma orphaned_set_process (g : process -> process) (q : nat) (s : state) :
  (forall pr, proc_socket (g pr) = proc_socket pr /\
              proc_launched (g pr) = proc_launched pr /\
              stdin_ended (g pr) = stdin_ended pr /\
              proc_signals (g pr) = proc_signals pr) ->
  orphaned socket p s -> orphaned socket p (set_process q g s).
Proof.
  intros Hg [Hun (pr & Hpr & Hs & Hl & He & Hsig)]. split; [exact Hun|].
  cbn. destruct (decide (q = p)) as [->|Hne].
  - exists (g pr). rewrite list_lookup_alter_eq, Hpr. cbn.
    destruct (Hg pr) as (-> & -> & -> & ->). now repeat split.
  - exists pr. rewrite list_lookup_alter_ne by exact Hne. now repeat split.
Qed.

Lemma orphaned_close (q : nat) (code : option Z) (s : state) :
  orphaned socket p s -> orphaned socket p (on_close q code s).
Proof.
  intros H. unfold on_close. destruct (processes s !! q) as [pr|]; [|exact H].
  assert (orphaned socket p (set_process q (closed code) s)) as H1
    by (apply orphaned_set_process; [now intros|exact H]).
  destruct (_ && _); cbn.
  - destruct H1 as [Hun Hpr]. split; [|exact Hpr].
    intros k i Hk. cbn in Hk. apply lookup_delete_Some in Hk as [_ Hk].
    exact (Hun _ _ Hk).
  - destruct H1 as [Hun Hpr]. split; [|exact Hpr].
    intros k i Hk. cbn in Hk. apply lookup_delete_Some in Hk as [_ Hk].
    exact (Hun _ _ Hk).
Qed.

Variable rev : revision.
Variable hw : option string.

(** Nothing the handler does reaches an orphaned encoder: whatever arrives
    next, its pipe stays open, it is sent no signal, and no entry refers to
    it. *)
Lemma orphaned_handle (now : Z) (e : event) (s : state) :
  orphaned socket p s -> orphaned socket p (handle rev hw now e s).
Proof.
  intros H. destruct e as [k c sp|k data w|k|k|q message|q code|q]; cbn [handle].
  - now apply orphaned_start.
  - now apply orphaned_data.
  - now apply orphaned_stop.
  - now apply orphaned_stop.
  - unfold on_error. destruct (processes s !! q); [|exact H].
    now apply orphaned_stop, orphaned_emit.
  - now apply orphaned_close.
  - apply orphaned_set_process; [now intros|exact H].
Qed.

Lemma orphaned_run (trace : list (Z * event)) (s : state) :
  orphaned socket p s -> orphaned socket p (run rev hw trace s).
Proof.
  revert s. induction trace as [|[now e] trace IH]; intros s H; [exact H|].
  cbn. apply IH. now apply orphaned_handle.
Qed.

Lemma exit_status_alter (g : process -> process) (q : nat)
    (procs : list process) :
  (forall pr, proc_closed (g pr) = proc_closed pr) ->
  (proc_closed <$> alter g q procs !! p) = (proc_closed <$> procs !! p).
Proof.
  intros Hg. destruct (decide (q = p)) as [->|Hne].
  - rewrite list_lookup_alter_eq. destruct (procs !! p); cbn; [|reflexivity].
    now rewrite Hg.
  - now rewrite list_lookup_alter_ne.
Qed.

Lemma exit_status_stop (now : Z) (k : string) (s : state) :
  exit_status p (_stopStream now k s) = exit_status p s.
Proof.
  unfold exit_status, _stopStream.
  destruct (streams s !! k) as [info|]; [|reflexivity].
  destruct (ffmpeg info) as [q|]; cbn; [|reflexivity].
  now rewrite !exit_status_alter.
Qed.

(** Only its own [close] event changes the exit status of a process. *)
Lemma exit_status_handle (now : Z) (e : event) (s : state) :
  is_Some (processes s !! p) -> closes p e = false ->
  exit_status p (handle rev hw now e s) = exit_status p s.
Proof.
  intros Hp Hc.
  destruct e as [k c sp|k data w|k|k|q message|q code|q]; cbn [handle].
  - unfold _startStream. destruct (negb (truthy (rtmpUrl c))); [reflexivity|].
    cbn. destruct sp as [message|launched]; [apply exit_status_stop|].
    unfold exit_status. cbn. rewrite lookup_app_l; [apply exit_status_stop|].
    rewrite length_processes_stop. now apply lookup_lt_is_Some.
  - destruct rev; cbn; unfold _handleData_optimized, _handleData_legacy;
      destruct (streams s !! k) as [info|]; try reflexivity;
      destruct (ffmpeg info) as [q|]; try reflexivity.
    + destruct (negb (is_destroyed q s)); [|reflexivity].
      destruct data as [b|]; [|apply exit_status_stop].
      unfold exit_status. cbn. now apply exit_status_alter.
    + destruct data as [b|]; [|reflexivity].
      unfold exit_status. cbn. now apply exit_status_alter.
  - apply exit_status_stop.
  - apply exit_status_stop.
  - unfold on_error. destruct (processes s !! q); [|reflexivity].
    now rewrite exit_status_stop.
  - cbn in Hc. apply Nat.eqb_neq in Hc.
    unfold on_close. destruct (processes s !! q); [|reflexivity].
    unfold exit_status. destruct (_ && _); cbn;
      now rewrite list_lookup_alter_ne.
  - unfold exit_status. cbn. now apply exit_status_alter.
Qed.

Lemma exit_status_run (trace : list (Z * event)) (s : state) :
  is_Some (processes s !! p) ->
  forallb (fun te => negb (closes p (snd te))) trace = true ->
  exit_status p (run rev hw trace s) = exit_status p s.
Proof.
  revert s. induction trace as [|[now e] trace IH]; intros s Hp Hall;
    [reflexivity|].
  cbn in Hall. apply andb_true_iff in Hall as [Hc Hall].
  apply negb_true_iff in Hc.
  change (run rev hw ((now, e) :: trace) s)
    with (run rev hw trace (handle rev hw now e s)).
  rewrite IH; [now apply exit_status_handle| |exact Hall].
  destruct Hp as [pr Hpr].
  destruct (table_grows_handle rev hw now e s _ _ Hpr) as (pr' & Hpr' & _).
  now exists pr'.
Qed.

End Orphans.

Section LateClose.

Variable rev : revision.
Variable hw : option string.
Variable socket : string.

(** An accepted start on a socket without an entry. *)
Lemma _startStream_fresh (now : Z) (c : Config) (s : state) :
  truthy (rtmpUrl c) = true -> streams s !! socket = None ->
  _startStream rev hw now socket c (spawn_returns true) s =
  {| streams := <[socket := fresh_entry (length (processes s)) now c]> (streams s);
     processes := processes s ++ [spawned rev hw socket c];
     emitted :=
       emitted s ++ [(socket, stream_started "Stream started successfully" now)] |}.
Proof.
  intros Hurl Hnone. unfold _startStream. rewrite Hurl.
  cbn [negb]. cbv zeta. now rewrite (_stopStream_absent now socket s Hnone).
Qed.

(** An accepted start on a socket whose entry refers to [p]. *)
Lemma _startStream_again (now : Z) (c : Config) (s : state)
    (info : streamInfo) (p : nat) :
  truthy (rtmpUrl c) = true ->
  streams s !! socket = Some info -> ffmpeg info = Some p ->
  _startStream rev hw now socket c (spawn_returns true) s =
  {| streams :=
       <[socket := fresh_entry (length (processes s)) now c]>
         (delete socket (streams s));
     processes :=
       alter (kill SIGTERM) p (alter stdin_end p (processes s))
       ++ [spawned rev hw socket c];
     emitted :=
       emitted s ++
       [(socket, stream_stopped (Math_round_div1000 (now - startTime info))
                   (bytesReceived info));
        (socket, stream_started "Stream started successfully" now)] |}.
Proof.
  intros Hurl E Hp. unfold _startStream. rewrite Hurl.
  cbn [negb]. cbv zeta. rewrite (_stopStream_present now socket s info p E Hp).
  cbn. rewrite !length_alter. unfold emit, set_streams. cbn.
  now rewrite <- app_assoc.
Qed.

(** The [close] of a process of [socket] while the socket has an entry. *)
Lemma on_close_registered (p : nat) (code : option Z) (s : state)
    (pr : process) (info : streamInfo) :
  processes s !! p = Some pr -> proc_socket pr = socket ->
  streams s !! socket = Some info ->
  on_close p code s =
  {| streams := delete socket (streams s);
     processes := alter (closed code) p (processes s);
     emitted := emitted s ++ close_report socket code |}.
Proof.
  intros Hpr Hs E. unfold on_close, close_report. rewrite Hpr, Hs. cbn.
  rewrite E, bool_decide_eq_true_2 by eauto. rewrite andb_true_r.
  destruct (code_nonzero code); cbn; [reflexivity|now rewrite app_nil_r].
Qed.

Variables c1 c2 : Config.
Variables t1 t2 t3 : Z.
Variable code : option Z.
Hypothesis url1 : truthy (rtmpUrl c1) = true.
Hypothesis url2 : truthy (rtmpUrl c2) = true.

(** A second start, then the [close] of the encoder it replaced: the
    registry is empty, and the second encoder is as [spawn] returned it. *)
Lemma late_close_state :
  run rev hw
    [(t1, start_stream socket c1 (spawn_returns true));
     (t2, start_stream socket c2 (spawn_returns true));
     (t3, ffmpeg_close 0 code)] initial =
  {| streams := ∅;
     processes :=
       [closed code (kill SIGTERM (stdin_end (spawned rev hw socket c1)));
        spawned rev hw socket c2];
     emitted :=
       [(socket, stream_started "Stream started successfully" t1);
        (socket, stream_stopped (Math_round_div1000 (t2 - t1)) 0);
        (socket, stream_started "Stream started successfully" t2)]
       ++ close_report socket code |}.
Proof.
  unfold run. cbn [foldl fst snd handle].
  rewrite (_startStream_fresh t1 c1 initial url1) by apply lookup_empty.
  rewrite (_startStream_again t2 c2 _ (fresh_entry 0 t1 c1) 0 url2)
    by (try reflexivity; apply lookup_insert_eq).
  cbn [streams processes emitted initial length app alter list_alter].
  rewrite (on_close_registered 0 code _
             (kill SIGTERM (stdin_end (spawned rev hw socket c1)))
             (fresh_entry 1 t2 c2))
    by (try reflexivity; apply lookup_insert_eq).
  cbn [streams processes emitted fresh_entry startTime bytesReceived].
  now rewrite !delete_insert_eq, delete_empty.
Qed.

Lemma late_close_orphans : orphaned socket 1 (run rev hw
    [(t1, start_stream socket c1 (spawn_returns true));
     (t2, start_stream socket c2 (spawn_returns true));
     (t3, ffmpeg_close 0 code)] initial).
Proof.
  rewrite late_close_state. split.
  - intros k i Hk. cbn in Hk. now rewrite lookup_empty in Hk.
  - exists (spawned rev hw socket c2). now repeat split.
Qed.

End LateClose.

(** C1, as the code breaks it. A socket starts, starts again, and starts
    a third time after the [close] event of its first encoder (which the
    restart ended and signalled) has arrived. The [close] listener deleted the
    entry of the second encoder, so the third start finds no session to
    tear down: the second and the third encoder both run, launched, with
    their input pipes open, never signalled and not exited. That is, two
    sessions of the socket are not over, in any reading of the word. Only
    the third encoder is registered; a stop request ends it and leaves the
    second one running. *)
Theorem restart_after_late_close_runs_two_encoders (rev : revision)
    (hw : option string) (socket : string) (c1 c2 c3 : Config)
    (t1 t2 t3 t4 : Z) (code : option Z) :
  truthy (rtmpUrl c1) = true -> truthy (rtmpUrl c2) = true ->
  truthy (rtmpUrl c3) = true ->
  let s :=
    run rev hw
      [(t1, start_stream socket c1 (spawn_returns true));
       (t2, start_stream socket c2 (spawn_returns true));
       (t3, ffmpeg_close 0 code);
       (t4, start_stream socket c3 (spawn_returns true))] initial in
  s =
    {| streams := <[socket := fresh_entry 2 t4 c3]> ∅;
       processes :=
         [closed code (kill SIGTERM (stdin_end (spawned rev hw socket c1)));
          spawned rev hw socket c2;
          spawned rev hw socket c3];
       emitted :=
         [(socket, stream_started "Stream started successfully" t1);
          (socket, stream_stopped (Math_round_div1000 (t2 - t1)) 0);
          (socket, stream_started "Stream started successfully" t2)]
         ++ close_report socket code
         ++ [(socket, stream_started "Stream started successfully" t4)] |} /\
  registered socket s = Some 2%nat /\
  orphaned socket 1 s /\
  exit_status 1 s = Some None /\ exit_status 2 s = Some None /\
  live_sessions socket s = [1%nat; 2%nat] /\
  (forall now,
     let s' := handle rev hw now (stop_stream socket) s in
     processes s' !! 1%nat = Some (spawned rev hw socket c2) /\
     live_sessions socket s' = [1%nat]).
Proof.
  intros url1 url2 url3 s.
  assert (s = {| streams := <[socket := fresh_entry 2 t4 c3]> ∅;
       processes :=
         [closed code (kill SIGTERM (stdin_end (spawned rev hw socket c1)));
          spawned rev hw socket c2;
          spawned rev hw socket c3];
       emitted :=
         [(socket, stream_started "Stream started successfully" t1);
          (socket, stream_stopped (Math_round_div1000 (t2 - t1)) 0);
          (socket, stream_started "Stream started successfully" t2)]
         ++ close_report socket code
         ++ [(socket, stream_started "Stream started successfully" t4)] |})
    as Hs.
  { subst s.
    change (run rev hw ?l initial)
      with (handle rev hw t4 (start_stream socket c3 (spawn_returns true))
              (run rev hw
                 [(t1, start_stream socket c1 (spawn_returns true));
                  (t2, start_stream socket c2 (spawn_returns true));
                  (t3, ffmpeg_close 0 code)] initial)).
    rewrite (late_close_state rev hw socket c1 c2 t1 t2 t3 code url1 url2).
    cbn [handle].
    rewrite (_startStream_fresh rev hw socket t4 c3 _ url3)
      by apply lookup_empty.
    cbn [streams processes emitted length].
    now rewrite <- app_assoc. }
  split; [exact Hs|]. clearbody s. subst s.
  split; [unfold registered; cbn; now rewrite lookup_insert_eq|].
  split.
  { split.
    - intros k i Hk. cbn in Hk.
      apply lookup_insert_Some in Hk as [[_ <-]|[_ Hk]]; [discriminate|].
      now rewrite lookup_empty in Hk.
    - exists (spawned rev hw socket c2). now repeat split. }
  split; [reflexivity|]. split; [reflexivity|].
  split.
  { unfold live_sessions. cbn. rewrite String.eqb_refl. reflexivity. }
  intros now s'. subst s'. cbn [handle].
  rewrite (_stopStream_present now socket _ (fresh_entry 2 t4 c3) 2)
    by (try reflexivity; apply lookup_insert_eq).
  split; [reflexivity|].
  unfold live_sessions. cbn. rewrite String.eqb_refl. reflexivity.
Qed.

Lemma restart_after_late_close_runs_two_encoders_witness :
  let s :=
    run Optimized None
      [(0, start_stream "s1" scenario_A (spawn_returns true));
       (10, start_stream "s1" scenario_A (spawn_returns true));
       (20, ffmpeg_close 0 None);
       (30, start_stream "s1" scenario_A (spawn_returns true))] initial in
  truthy (rtmpUrl scenario_A) = true /\
  live_sessions "s1" s = [1%nat; 2%nat] /\
  registered "s1" s = Some 2%nat /\
  (stdin_ended <$> processes s !! 1%nat) = Some false /\
  (proc_signals <$> processes s !! 1%nat) = Some [] /\
  exit_status 1 s = Some None.
Proof.
  intros s.
  pose proof (restart_after_late_close_runs_two_encoders Optimized None "s1"
                scenario_A scenario_A scenario_A 0 10 20 30 None
                eq_refl eq_refl eq_refl) as H.
  cbv zeta in H. fold s in H.
  destruct H as (_ & Hreg & (_ & pr & Hpr & _ & _ & Hend & Hsig) & Hex & _ & Hlive & _).
  split; [reflexivity|]. split; [exact Hlive|]. split; [exact Hreg|].
  rewrite Hpr. cbn. rewrite Hend, Hsig. now repeat split.
Defined.

(** C7, as the code breaks it. A socket starts and starts again, and the
    [close] event of its first encoder (which the restart ended and
    signalled) arrives. The client has been told that the second stream started, and
    its encoder runs, but the [close] listener has deleted its entry. The
    disconnect of the socket then changes nothing: the pipe of the running
    encoder is not ended, it is sent no signal. Nor does anything that
    arrives later make the handler end or signal it; it stays a running
    process until its own [close] event. *)
Theorem disconnect_misses_the_unregistered_encoder (rev : revision)
    (hw : option string) (socket : string) (c1 c2 : Config) (t1 t2 t3 : Z)
    (code : option Z) :
  truthy (rtmpUrl c1) = true -> truthy (rtmpUrl c2) = true ->
  let s :=
    run rev hw
      [(t1, start_stream socket c1 (spawn_returns true));
       (t2, start_stream socket c2 (spawn_returns true));
       (t3, ffmpeg_close 0 code)] initial in
  s =
    {| streams := ∅;
       processes :=
         [closed code (kill SIGTERM (stdin_end (spawned rev hw socket c1)));
          spawned rev hw socket c2];
       emitted :=
         [(socket, stream_started "Stream started successfully" t1);
          (socket, stream_stopped (Math_round_div1000 (t2 - t1)) 0);
          (socket, stream_started "Stream started successfully" t2)]
         ++ close_report socket code |} /\
  live_sessions socket s = [1%nat] /\
  (forall now, handle rev hw now (disconnect socket) s = s) /\
  (forall now trace,
     let s' := run rev hw trace (handle rev hw now (disconnect socket) s) in
     orphaned socket 1 s' /\
     (forallb (fun te => negb (closes 1 (snd te))) trace = true ->
      exit_status 1 s' = Some None)).
Proof.
  intros url1 url2 s.
  pose proof (late_close_state rev hw socket c1 c2 t1 t2 t3 code url1 url2)
    as Hs.
  pose proof (late_close_orphans rev hw socket c1 c2 t1 t2 t3 code url1 url2)
    as Horph.
  fold s in Hs, Horph.
  assert (forall now, handle rev hw now (disconnect socket) s = s) as Hsame.
  { intros now. cbn [handle]. apply _stopStream_absent.
    rewrite Hs. apply lookup_empty. }
  split; [exact Hs|]. split; [|split; [exact Hsame|]].
  - rewrite Hs. unfold live_sessions. cbn. rewrite String.eqb_refl.
    reflexivity.
  - intros now trace s'. subst s'. rewrite Hsame.
    split; [now apply orphaned_run|].
    intros Hall. rewrite (exit_status_run 1 rev hw trace s); [|  |exact Hall].
    + now rewrite Hs.
    + rewrite Hs. now eexists.
Qed.

Lemma disconnect_misses_the_unregistered_encoder_witness :
  let s :=
    run Optimized None
      [(0, start_stream "s1" scenario_A (spawn_returns true));
       (10, start_stream "s1" scenario_A (spawn_returns true));
       (20, ffmpeg_close 0 None)] initial in
  let s' :=
    run Optimized None [(40, stop_stream "s1")]
      (handle Optimized None 30 (disconnect "s1") s) in
  truthy (rtmpUrl scenario_A) = true /\
  live_sessions "s1" s = [1%nat] /\
  handle Optimized None 30 (disconnect "s1") s = s /\
  orphaned "s1" 1 s' /\ exit_status 1 s' = Some None.
Proof.
  intros s s'.
  pose proof (disconnect_misses_the_unregistered_encoder Optimized None "s1"
                scenario_A scenario_A 0 10 20 None eq_refl eq_refl) as H.
  cbv zeta in H. fold s in H. destruct H as (_ & Hlive & Hsame & Hlater).
  split; [reflexivity|]. split; [exact Hlive|]. split; [exact (Hsame 30)|].
  destruct (Hlater 30 [(40, stop_stream "s1")]) as [Ho Hex].
  split; [exact Ho|]. exact (Hex eq_refl).
Defined.

(** * Further properties of the handler *)

(** ** Status and summary *)

(** X1. [getStreamStatus] answers [null] exactly for a socket without a
    registry entry; otherwise its duration and byte count are those of the
    summary a stop at the same clock reading sends, and after that stop it
    answers [null]. *)
Theorem status_agrees_with_summary (now : Z) (socket : string) (s : state) :
  (getStreamStatus now socket s = None <-> streams s !! socket = None) /\
  (forall d b c,
     getStreamStatus now socket s = Some (d, b, c) ->
     emitted (_stopStream now socket s)
     = emitted s ++ [(socket, stream_stopped d b)]) /\
  (forall now', getStreamStatus now' socket (_stopStream now socket s) = None).
Proof.
  split; [|split].
  - unfold getStreamStatus. destruct (streams s !! socket); split;
      intros H; congruence.
  - intros d b c. unfold getStreamStatus, _stopStream.
    destruct (streams s !! socket) as [info|]; [|discriminate].
    intros [= <- <- <-]. now destruct (ffmpeg info).
  - intros now'. unfold getStreamStatus.
    now rewrite _stopStream_unregisters.
Qed.

Lemma status_agrees_with_summary_witness :
  let s :=
    run Optimized None
      [(0, start_stream "s1" scenario_A (spawn_returns true));
       (40, stream_data "s1" (Bytes [Byte.x00; Byte.x01]) WriteOk)] initial in
  getStreamStatus 5400 "s1" s = Some (5, 2, scenario_A) /\
  emitted (_stopStream 5400 "s1" s)
  = emitted s ++ [("s1", stream_stopped 5 2)].
Proof.
  intros s. assert (getStreamStatus 5400 "s1" s = Some (5, 2, scenario_A)) as H
    by (vm_compute; reflexivity).
  split; [exact H|].
  exact (proj1 (proj2 (status_agrees_with_summary 5400 "s1" s)) 5 2 scenario_A H).
Defined.

(** X2. The summary's duration is the elapsed time rounded to the nearest
    second (halves up): it is within half a second of the time since the
    start, and not negative when the clock has not run backwards. *)
Theorem summary_duration_is_rounded (now : Z) (socket : string) (s : state)
    (info : streamInfo) :
  streams s !! socket = Some info ->
  exists d,
    emitted (_stopStream now socket s)
    = emitted s ++ [(socket, stream_stopped d (bytesReceived info))] /\
    getStreamStatus now socket s = Some (d, bytesReceived info, config info) /\
    1000 * d - 500 <= now - startTime info < 1000 * d + 500 /\
    (startTime info <= now -> 0 <= d).
Proof.
  intros E. exists (Math_round_div1000 (now - startTime info)).
  unfold getStreamStatus, _stopStream. rewrite E.
  split; [now destruct (ffmpeg info)|]. split; [reflexivity|].
  unfold Math_round_div1000.
  pose proof (Z.div_mod (now - startTime info + 500) 1000 ltac:(lia)).
  pose proof (Z.mod_pos_bound (now - startTime info + 500) 1000 ltac:(lia)).
  split; [lia|]. intros Hle. apply Z.div_pos; lia.
Qed.

Lemma summary_duration_is_rounded_witness :
  let s :=
    run Legacy None
      [(1000, start_stream "s1" scenario_A (spawn_returns true))] initial in
  streams s !! "s1"
  = Some {| ffmpeg := Some 0%nat; startTime := 1000; bytesReceived := 0;
            config := scenario_A |} /\
  exists d,
    emitted (_stopStream 3500 "s1" s)
    = emitted s ++ [("s1", stream_stopped d 0)] /\
    1000 * d - 500 <= 3500 - 1000 < 1000 * d + 500.
Proof.
  intros s.
  assert (streams s !! "s1"
          = Some {| ffmpeg := Some 0%nat; startTime := 1000; bytesReceived := 0;
                    config := scenario_A |}) as E by (vm_compute; reflexivity).
  split; [exact E|].
  destruct (summary_duration_is_rounded 3500 "s1" s _ E) as (d & H1 & _ & H2 & _).
  exists d. split; [exact H1|exact H2].
Defined.

(** ** Stopping twice *)

(** X3. Stop and disconnect are idempotent and interchangeable: after
    either one, a further stop or disconnect of the same socket changes
    nothing and sends nothing; on a socket without a session they change
    nothing at all. *)
Theorem stop_is_idempotent (rev : revision) (hw : option string)
    (now now' : Z) (socket : string) (s : state) :
  handle rev hw now' (disconnect socket) (handle rev hw now (stop_stream socket) s)
  = handle rev hw now (stop_stream socket) s /\
  handle rev hw now' (stop_stream socket) (handle rev hw now (disconnect socket) s)
  = handle rev hw now (disconnect socket) s /\
  handle rev hw now' (stop_stream socket) (handle rev hw now (stop_stream socket) s)
  = handle rev hw now (stop_stream socket) s /\
  (streams s !! socket = None ->
   handle rev hw now (stop_stream socket) s = s /\
   handle rev hw now (disconnect socket) s = s).
Proof.
  cbn [handle].
  assert (forall t, _stopStream t socket (_stopStream now socket s)
                    = _stopStream now socket s) as H
    by (intros t; apply _stopStream_absent, _stopStream_unregisters).
  repeat split; try apply H; now apply _stopStream_absent.
Qed.

Lemma stop_is_idempotent_witness :
  let s :=
    run Optimized None
      [(0, start_stream "s1" scenario_A (spawn_returns true))] initial in
  emitted (handle Optimized None 900 (disconnect "s1")
             (handle Optimized None 700 (stop_stream "s1") s))
  = [("s1", stream_started "Stream started successfully" 0);
     ("s1", stream_stopped 1 0)] /\
  streams initial !! "s1" = None /\
  handle Optimized None 5 (stop_stream "s1") initial = initial.
Proof.
  intros s. split.
  - rewrite (proj1 (stop_is_idempotent Optimized None 700 900 "s1" s)).
    vm_compute. reflexivity.
  - split; [reflexivity|].
    exact (proj1 (proj2 (proj2 (proj2
             (stop_is_idempotent Optimized None 5 5 "s1" initial))) eq_refl)).
Defined.

(** ** Bursts of chunks *)

Section Bursts.

Variable rev : revision.
Variable hw : option string.

Lemma run_app (t1 t2 : list (Z * event)) (s : state) :
  run rev hw (t1 ++ t2) s = run rev hw t2 (run rev hw t1 s).
Proof. unfold run. apply foldl_app. Qed.

Lemma issued_bytes_app (ws ws' : list (list Byte.byte * write_result)) :
  issued_bytes (ws ++ ws') = issued_bytes ws + issued_bytes ws'.
Proof. induction ws as [|[b r] ws IH]; cbn; [reflexivity|]. rewrite IH. lia. Qed.

Lemma burst_is_written_in_order (socket : string)
    (cs : list (Z * list Byte.byte * write_result)) :
  forall (s : state) (info : streamInfo) (p : nat) (pr : process),
    streams s !! socket = Some info -> ffmpeg info = Some p ->
    processes s !! p = Some pr ->
    stdin_ended pr = false -> stdin_destroyed pr = false ->
    let s' := run rev hw (chunk_events socket cs) s in
    exists info' pr',
      streams s' !! socket = Some info' /\ ffmpeg info' = Some p /\
      processes s' !! p = Some pr' /\
      stdin_writes pr' = stdin_writes pr ++ chunk_writes cs /\
      bytesReceived info'
      = bytesReceived info + issued_bytes (chunk_writes cs) /\
      startTime info' = startTime info /\
      emitted s' = emitted s /\ length (processes s') = length (processes s).
Proof.
  induction cs as [|[[t b] w] cs IH]; intros s info p pr E Hp Hpr He Hd s'.
  - exists info, pr. subst s'. cbn. rewrite app_nil_r.
    repeat split; auto. lia.
  - subst s'. cbn [chunk_events map run foldl fst snd handle].
    destruct (_handleData_counts rev t socket b w s info p pr E Hp Hpr Hd)
      as [E1 P1].
    set (s1 := _handleData rev t socket (Bytes b) w s) in *.
    assert (emitted s1 = emitted s /\
            length (processes s1) = length (processes s)) as [Hem Hlen].
    { subst s1. destruct rev; cbn;
        unfold _handleData_optimized, _handleData_legacy; rewrite E, Hp;
        try (unfold is_destroyed; rewrite Hpr; cbn; rewrite Hd); cbn;
        now rewrite length_alter. }
    destruct (IH s1 _ p _ E1 Hp P1 He Hd)
      as (info' & pr' & E' & Hp' & P' & Hw & Hb & Hst & Hem' & Hlen').
    exists info', pr'. fold (run rev hw (chunk_events socket cs) s1).
    split; [exact E'|]. split; [exact Hp'|]. split; [exact P'|].
    split.
    { rewrite Hw. cbn. rewrite He, Hd. cbn. now rewrite <- app_assoc. }
    split; [rewrite Hb; cbn; unfold buffer_size; fold (chunk_writes cs); lia|].
    split; [rewrite Hst; reflexivity|].
    split; [etransitivity; [exact Hem'|exact Hem]
          |etransitivity; [exact Hlen'|exact Hlen]].
Qed.

End Bursts.

(** X4. Chunks reach the encoder in the order they arrive. On a session
    whose pipe is open, after a burst of binary chunks the encoder has been
    handed exactly its earlier writes followed by the chunks of the burst,
    in order, the counter has grown by their total size, and the burst has
    sent nothing to anyone and spawned nothing. *)
Theorem chunks_are_written_in_order (rev : revision) (hw : option string)
    (s : state) (socket : string) (info : streamInfo) (p : nat) (pr : process)
    (cs : list (Z * list Byte.byte * write_result)) :
  streams s !! socket = Some info -> ffmpeg info = Some p ->
  processes s !! p = Some pr ->
  stdin_ended pr = false -> stdin_destroyed pr = false ->
  let s' := run rev hw (chunk_events socket cs) s in
  (stdin_writes <$> processes s' !! p)
  = Some (stdin_writes pr ++ chunk_writes cs) /\
  (bytesReceived <$> streams s' !! socket)
  = Some (bytesReceived info + issued_bytes (chunk_writes cs)) /\
  emitted s' = emitted s /\
  length (processes s') = length (processes s).
Proof.
  intros E Hp Hpr He Hd s'.
  destruct (burst_is_written_in_order rev hw socket cs s info p pr E Hp Hpr He Hd)
    as (info' & pr' & E' & _ & P' & Hw & Hb & _ & Hem & Hlen).
  fold s' in E', P', Hem, Hlen. rewrite E', P'. cbn.
  rewrite Hw, Hb. now repeat split.
Qed.

Lemma chunks_are_written_in_order_witness :
  let s :=
    run Legacy None
      [(0, start_stream "s1" scenario_A (spawn_returns true))] initial in
  let cs :=
    [(10, [Byte.x01], WriteOk); (20, [Byte.x02; Byte.x03], WriteErr);
     (30, [Byte.x04], WriteOk)] in
  (stdin_writes <$> processes (run Legacy None (chunk_events "s1" cs) s) !! 0%nat)
  = Some [([Byte.x01], WriteOk); ([Byte.x02; Byte.x03], WriteErr);
          ([Byte.x04], WriteOk)] /\
  (bytesReceived <$> streams (run Legacy None (chunk_events "s1" cs) s) !! "s1")
  = Some 4.
Proof.
  intros s cs.
  pose proof (chunks_are_written_in_order Legacy None s "s1"
                {| ffmpeg := Some 0%nat; startTime := 0; bytesReceived := 0;
                   config := scenario_A |} 0%nat
                (new_process "s1"
                   (ffmpegArgs Legacy None "rtmp://ingest.example/live/abc123"
                      (destructure scenario_A)) true) cs
                ltac:(vm_compute; reflexivity) eq_refl
                ltac:(vm_compute; reflexivity) eq_refl eq_refl) as H.
  cbv zeta in H. destruct H as (Hw & Hb & _ & _).
  split; [exact Hw|exact Hb].
Defined.

(** ** What a chunk never does *)

(** X5. Whatever its payload, whatever the pipe reports and whatever state
    the handler is in, a [stream-data] message never sends an error to
    anyone, never spawns a process and never creates a registry entry. *)
Theorem a_chunk_never_reports_an_error (rev : revision) (now : Z)
    (socket : string) (data : payload) (w : write_result) (s : state) :
  let s' := _handleData rev now socket data w s in
  (forall k, emissions_to is_error k (emitted s')
             = emissions_to is_error k (emitted s)) /\
  length (processes s') = length (processes s) /\
  (forall k, streams s !! k = None -> streams s' !! k = None).
Proof.
  intros s'.
  assert (forall t,
            (forall k, emissions_to is_error k (emitted (_stopStream t socket s))
                       = emissions_to is_error k (emitted s)) /\
            length (processes (_stopStream t socket s)) = length (processes s) /\
            (forall k, streams s !! k = None ->
                       streams (_stopStream t socket s) !! k = None)) as Hstop.
  { intros t. split; [|split].
    - intros k. destruct (decide (socket = k)) as [->|Hne].
      + apply _stopStream_sends_no_error.
      + now apply (untouched_stop is_error k t socket s).
    - apply length_processes_stop.
    - intros k Hk. destruct (decide (k = socket)) as [->|Hne].
      + apply _stopStream_unregisters.
      + now rewrite _stopStream_others. }
  assert ((forall k, emissions_to is_error k (emitted s)
                     = emissions_to is_error k (emitted s)) /\
          length (processes s) = length (processes s) /\
          (forall k, streams s !! k = None -> streams s !! k = None)) as Hsame
    by (repeat split; auto).
  assert (forall p b,
            let s1 :=
              set_streams (alter (add_bytes (Z.of_nat (length b))) socket)
                (set_process p (stdin_write b w) s) in
            (forall k, emissions_to is_error k (emitted s1)
                       = emissions_to is_error k (emitted s)) /\
            length (processes s1) = length (processes s) /\
            (forall k, streams s !! k = None -> streams s1 !! k = None))
    as Hwrite.
  { intros p b s1. subst s1. cbn. split; [reflexivity|].
    split; [apply length_alter|]. intros k Hk.
    rewrite lookup_alter. destruct (decide (socket = k)) as [->|_];
      now rewrite Hk. }
  subst s'. destruct rev; cbn; unfold _handleData_optimized, _handleData_legacy;
    destruct (streams s !! socket) as [info|]; try exact Hsame;
    destruct (ffmpeg info) as [p|]; try exact Hsame;
    try destruct (negb (is_destroyed p s)); try exact Hsame;
    destruct data as [buffer|]; try exact Hsame; try apply Hstop;
    apply Hwrite.
Qed.

Lemma a_chunk_never_reports_an_error_witness :
  let s :=
    run Optimized None
      [(0, start_stream "s1" scenario_A (spawn_returns true))] initial in
  streams s !! "s2" = None /\
  streams (_handleData Optimized 5 "s1" Unconvertible WriteOk s) !! "s2" = None /\
  emissions_to is_error "s1"
    (emitted (_handleData Optimized 5 "s1" Unconvertible WriteOk s)) = [].
Proof.
  intros s.
  assert (streams s !! "s2" = None) as H by (vm_compute; reflexivity).
  destruct (a_chunk_never_reports_an_error Optimized 5 "s1" Unconvertible
              WriteOk s) as (He & _ & Hn).
  split; [exact H|]. split; [exact (Hn "s2" H)|].
  rewrite (He "s1"). vm_compute. reflexivity.
Defined.

(** ** Connections are independent *)

Section Isolation.

Variable socket : string.



Lemma same_processes_snoc (pr0 : process) (s : state) :
  same_processes socket s
    {| streams := streams s; processes := processes s ++ [pr0];
       emitted := emitted s |}.
Proof.
  intros p pr Hp _. cbn. rewrite lookup_app_l; [exact Hp|].
  now apply lookup_lt_Some in Hp.
Qed.


Variable rev : revision.
Variable hw : option string.



End Isolation.



(** ** Notifications of the encoder *)

(** X7. A clean exit is silent. When the encoder of a registered session
    closes with code 0, the registry entry is removed and nothing at all is
    sent: the client is told neither that the stream stopped nor how long
    it ran. The encoder is not signalled. *)
Theorem clean_exit_is_silent (rev : revision) (hw : option string)
    (s : state) (now : Z) (socket : string) (info : streamInfo) (p : nat) :
  reachable rev hw s ->
  streams s !! socket = Some info -> ffmpeg info = Some p ->
  let s' := handle rev hw now (ffmpeg_close p (Some 0)) s in
  streams s' !! socket = None /\
  emitted s' = emitted s /\
  (exists pr,
     processes s' !! p = Some pr /\ proc_closed pr = Some (Some 0) /\
     stdin_ended pr = false /\ proc_signals pr = []) /\
  getStreamStatus now socket s' = None.
Proof.
  intros Hs E Hp s'. subst s'. cbn [handle]. unfold on_close.
  destruct (reachable_registry_ok rev hw s Hs _ _ E)
    as (q & pr & Hq & Hpr & Hsock & Hend & Hsig & _).
  assert (q = p) as -> by congruence.
  rewrite Hpr, Hsock. cbn.
  split; [apply lookup_delete_eq|]. split; [reflexivity|]. split.
  - exists (closed (Some 0) pr). rewrite list_lookup_alter_eq, Hpr. cbn.
    now repeat split.
  - unfold getStreamStatus. cbn. now rewrite lookup_delete_eq.
Qed.

Lemma clean_exit_is_silent_witness :
  let s :=
    run Optimized None
      [(0, start_stream "s1" scenario_A (spawn_returns true))] initial in
  let s' := handle Optimized None 9000 (ffmpeg_close 0%nat (Some 0)) s in
  reachable Optimized None s /\
  streams s' !! "s1" = None /\
  emitted s' = [("s1", stream_started "Stream started successfully" 0)].
Proof.
  intros s s'.
  assert (reachable Optimized None s) as Hs by (eexists; reflexivity).
  split; [exact Hs|].
  pose proof (clean_exit_is_silent Optimized None s 9000 "s1"
                {| ffmpeg := Some 0%nat; startTime := 0; bytesReceived := 0;
                   config := scenario_A |} 0%nat Hs
                ltac:(vm_compute; reflexivity) eq_refl) as H.
  cbv zeta in H. destruct H as (H1 & H2 & _).
  split; [exact H1|]. fold s' in H2. rewrite H2. vm_compute. reflexivity.
Defined.

(** X8. The [close] listener does not check whose entry it deletes. When a
    process of a socket closes while the registry entry of that socket
    refers to another, newer process, the entry of the newer process is
    deleted (with an error sent when the code is not 0), the newer process
    is left exactly as it was, neither ended nor signalled, and a later
    stop or disconnect of the socket no longer reaches it. *)
Theorem late_close_unregisters_successor (rev : revision) (hw : option string)
    (s : state) (now : Z) (socket : string) (info : streamInfo) (p q : nat)
    (old : process) (code : option Z) :
  reachable rev hw s ->
  streams s !! socket = Some info -> ffmpeg info = Some p ->
  processes s !! q = Some old -> proc_socket old = socket -> q <> p ->
  let s' := handle rev hw now (ffmpeg_close q code) s in
  streams s' !! socket = None /\
  (exists pr,
     processes s !! p = Some pr /\ processes s' !! p = Some pr /\
     stdin_ended pr = false /\ proc_signals pr = []) /\
  emitted s' =
    emitted s ++
    (if code_nonzero code
     then [(socket,
            stream_error
              ("Stream ended unexpectedly (code " +:+ code_text code +:+ ")"))]
     else []) /\
  (forall now',
     handle rev hw now' (stop_stream socket) s' = s' /\
     handle rev hw now' (disconnect socket) s' = s').
Proof.
  intros Hs E Hp Hq Hsock Hne s'.
  destruct (reachable_registry_ok rev hw s Hs _ _ E)
    as (p0 & pr & Hp0 & Hpr & _ & Hend & Hsig & _).
  assert (p0 = p) as -> by congruence.
  assert (streams s' !! socket = None) as Hnone.
  { subst s'. cbn [handle]. unfold on_close. rewrite Hq, Hsock.
    cbn. apply lookup_delete_eq. }
  split; [exact Hnone|]. split; [|split].
  - exists pr. split; [exact Hpr|]. subst s'. cbn [handle]. unfold on_close.
    rewrite Hq. destruct (_ && _); cbn;
      (rewrite list_lookup_alter_ne by exact Hne); now repeat split.
  - subst s'. cbn [handle]. unfold on_close. rewrite Hq, Hsock. cbn.
    rewrite E. rewrite bool_decide_eq_true_2 by eauto.
    rewrite andb_true_r. destruct (code_nonzero code); cbn;
      [reflexivity|now rewrite app_nil_r].
  - intros now'. cbn [handle]. split; now apply _stopStream_absent.
Qed.

Lemma late_close_unregisters_successor_witness :
  let s :=
    run Optimized None
      [(0, start_stream "s1" scenario_A (spawn_returns true));
       (10, stop_stream "s1");
       (20, start_stream "s1" scenario_A (spawn_returns true))] initial in
  let s' := handle Optimized None 30 (ffmpeg_close 0%nat None) s in
  reachable Optimized None s /\
  registered "s1" s = Some 1%nat /\
  streams s' !! "s1" = None /\
  handle Optimized None 40 (disconnect "s1") s' = s'.
Proof.
  intros s s'.
  assert (reachable Optimized None s) as Hs by (eexists; reflexivity).
  split; [exact Hs|]. split; [vm_compute; reflexivity|].
  pose proof (late_close_unregisters_successor Optimized None s 30 "s1"
                {| ffmpeg := Some 1%nat; startTime := 20; bytesReceived := 0;
                   config := scenario_A |} 1%nat 0%nat
                (kill SIGTERM
                   (stdin_end
                      (new_process "s1"
                         (ffmpegArgs Optimized None
                            "rtmp://ingest.example/live/abc123"
                            (destructure scenario_A)) true)))
                None Hs
                ltac:(vm_compute; reflexivity) eq_refl
                ltac:(vm_compute; reflexivity) eq_refl
                ltac:(discriminate)) as H.
  cbv zeta in H. destruct H as (H1 & _ & _ & H4).
  split; [exact H1|]. exact (proj2 (H4 40)).
Defined.

(** X9. The [error] event of the encoder of a registered session ends the
    session: the socket is sent the error and then the summary, the
    encoder's pipe is ended and it is sent SIGTERM, and the entry is
    removed; the [close] that follows sends nothing more. *)
Theorem encoder_error_ends_the_session (rev : revision) (hw : option string)
    (s : state) (now : Z) (socket : string) (info : streamInfo) (p : nat)
    (message : string) :
  reachable rev hw s ->
  streams s !! socket = Some info -> ffmpeg info = Some p ->
  let s' := handle rev hw now (ffmpeg_error p message) s in
  streams s' !! socket = None /\
  (exists pr,
     processes s' !! p = Some pr /\
     stdin_ended pr = true /\ proc_signals pr = [SIGTERM]) /\
  emitted s' =
    emitted s ++
    [(socket, stream_error ("FFmpeg error: " +:+ message));
     (socket, stream_stopped (Math_round_div1000 (now - startTime info))
                (bytesReceived info))] /\
  (forall now' code,
     emitted (handle rev hw now' (ffmpeg_close p code) s') = emitted s').
Proof.
  intros Hs E Hp s'.
  pose proof (reachable_registry_ok rev hw s Hs) as Hok.
  destruct (Hok _ _ E) as (p0 & pr & Hp0 & Hpr & Hsock & _).
  assert (p0 = p) as -> by congruence.
  set (s0 := emit socket (stream_error ("FFmpeg error: " +:+ message)) s).
  assert (s' = _stopStream now socket s0) as Hs'.
  { subst s' s0. cbn [handle]. unfold on_error. now rewrite Hpr, Hsock. }
  clearbody s'.
  destruct (_stopStream_tears_down now socket s0 info p Hok E Hp)
    as ((pr0 & pr' & _ & Hpr' & Hend & Hsig & _ & _) & Hnone & _ & Hem).
  rewrite <- Hs' in Hpr', Hnone, Hem.
  split; [exact Hnone|]. split; [now exists pr'|]. split.
  - rewrite Hem. subst s0. cbn. now rewrite <- app_assoc.
  - intros now' code. cbn [handle]. unfold on_close.
    rewrite Hpr'. cbn.
    assert (proc_socket pr' = socket) as ->.
    { destruct (table_grows_stop now socket s0 _ _ Hpr)
        as (pr2 & Hpr2 & (Hs2 & _)).
      rewrite <- Hs' in Hpr2. congruence. }
    rewrite Hnone. rewrite bool_decide_eq_false_2 by (intros [? ?]; discriminate).
    now rewrite andb_false_r.
Qed.

Lemma encoder_error_ends_the_session_witness :
  let s :=
    run Legacy None
      [(0, start_stream "s1" scenario_A (spawn_returns true))] initial in
  let s' := handle Legacy None 2600 (ffmpeg_error 0%nat "kill EPERM") s in
  reachable Legacy None s /\
  emitted s' =
    [("s1", stream_started "Stream started successfully" 0);
     ("s1", stream_error "FFmpeg error: kill EPERM");
     ("s1", stream_stopped 3 0)].
Proof.
  intros s s'.
  assert (reachable Legacy None s) as Hs by (eexists; reflexivity).
  split; [exact Hs|].
  pose proof (encoder_error_ends_the_session Legacy None s 2600 "s1"
                {| ffmpeg := Some 0%nat; startTime := 0; bytesReceived := 0;
                   config := scenario_A |} 0%nat "kill EPERM" Hs
                ltac:(vm_compute; reflexivity) eq_refl) as H.
  cbv zeta in H. destruct H as (_ & _ & H3 & _).
  fold s' in H3. rewrite H3. vm_compute. reflexivity.
Defined.

(** ** Restarting *)

(** X10. An accepted start on a socket that already has a session first
    sends the summary of the old session (its duration and its counter),
    then [stream-started]; the new entry refers to the new process, starts
    at the current clock reading and counts from 0. *)
Theorem restart_reports_the_old_session (rev : revision) (hw : option string)
    (s : state) (now : Z) (socket : string) (c : Config) (launched : bool)
    (info : streamInfo) :
  streams s !! socket = Some info -> truthy (rtmpUrl c) = true ->
  let s' := _startStream rev hw now socket c (spawn_returns launched) s in
  emitted s' =
    emitted s ++
    [(socket, stream_stopped (Math_round_div1000 (now - startTime info))
                (bytesReceived info));
     (socket, stream_started "Stream started successfully" now)] /\
  streams s' !! socket =
    Some {| ffmpeg := Some (length (processes s)); startTime := now;
            bytesReceived := 0; config := c |} /\
  length (processes s') = S (length (processes s)) /\
  getStreamStatus now socket s' = Some (0, 0, c).
Proof.
  intros E Hurl s'.
  destruct (_startStream_registers rev hw now socket c launched s Hurl)
    as (E' & P' & _ & Hem).
  fold s' in E', P', Hem.
  split; [|split; [exact E'|split]].
  - rewrite Hem. unfold _stopStream. rewrite E.
    destruct (ffmpeg info); cbn; now rewrite <- app_assoc.
  - rewrite P', length_app, length_processes_stop. cbn. lia.
  - unfold getStreamStatus. rewrite E'. cbn.
    now replace (now - now) with 0 by lia.
Qed.

Lemma restart_reports_the_old_session_witness :
  let s :=
    run Optimized None
      [(0, start_stream "s1" scenario_A (spawn_returns true));
       (40, stream_data "s1" (Bytes [Byte.x00; Byte.x01]) WriteOk)] initial in
  streams s !! "s1"
  = Some {| ffmpeg := Some 0%nat; startTime := 0; bytesReceived := 2;
            config := scenario_A |} /\
  truthy (rtmpUrl scenario_A) = true /\
  emitted (_startStream Optimized None 7000 "s1" scenario_A
             (spawn_returns true) s)
  = [("s1", stream_started "Stream started successfully" 0);
     ("s1", stream_stopped 7 2);
     ("s1", stream_started "Stream started successfully" 7000)].
Proof.
  intros s.
  assert (streams s !! "s1"
          = Some {| ffmpeg := Some 0%nat; startTime := 0; bytesReceived := 2;
                    config := scenario_A |}) as E by (vm_compute; reflexivity).
  split; [exact E|]. split; [reflexivity|].
  rewrite (proj1 (restart_reports_the_old_session Optimized None s 7000 "s1"
                    scenario_A true _ E eq_refl)).
  vm_compute. reflexivity.
Defined.

(** ** Accounting *)

Section Accounting.

Lemma owners_alter (g : process -> process) (q : nat) (l : list process) :
  (forall pr, proc_socket (g pr) = proc_socket pr) ->
  map proc_socket (alter g q l) = map proc_socket l.
Proof.
  intros Hg. revert q. induction l as [|x l IH]; intros [|q]; cbn;
    rewrite ?Hg, ?IH; reflexivity.
Qed.

Lemma started_sockets_snoc (k : string) (e : emission)
    (log : list (string * emission)) :
  started_sockets (log ++ [(k, e)])
  = started_sockets log ++ (if is_started e then [k] else []).
Proof.
  unfold started_sockets. rewrite omap_app. cbn. now destruct (is_started e).
Qed.

Lemma announced_emit (k : string) (e : emission) (s : state) :
  is_started e = false -> announced s -> announced (emit k e s).
Proof.
  intros He H. unfold announced in *. cbn.
  rewrite started_sockets_snoc, He, app_nil_r. exact H.
Qed.

Lemma announced_set_process (q : nat) (g : process -> process) (s : state) :
  (forall pr, proc_socket (g pr) = proc_socket pr) ->
  announced s -> announced (set_process q g s).
Proof.
  intros Hg H. unfold announced in *. cbn. now rewrite owners_alter.
Qed.

Lemma announced_stop (now : Z) (k : string) (s : state) :
  announced s -> announced (_stopStream now k s).
Proof.
  intros H. unfold _stopStream. destruct (streams s !! k) as [info|]; [|exact H].
  assert (forall s0, announced s0 ->
            announced (set_streams (delete k)
                         (emit k (stream_stopped
                                    (Math_round_div1000 (now - startTime info))
                                    (bytesReceived info)) s0))) as Hfin
    by (intros s0 H0; now apply (announced_emit k _ s0)).
  destruct (ffmpeg info) as [p|]; apply Hfin; [|exact H].
  apply announced_set_process; [reflexivity|].
  apply announced_set_process; [reflexivity|exact H].
Qed.

Lemma announced_start (rev : revision) (hw : option string) (now : Z)
    (k : string) (c : Config) (sp : spawn_result) (s : state) :
  announced s -> announced (_startStream rev hw now k c sp s).
Proof.
  intros H. unfold _startStream.
  destruct (negb (truthy (rtmpUrl c))); [now apply announced_emit|].
  pose proof (announced_stop now k s H) as H1.
  destruct sp as [message|launched]; [now apply announced_emit|].
  unfold announced in *. cbn.
  rewrite started_sockets_snoc, map_app, H1. reflexivity.
Qed.

Lemma announced_data (rev : revision) (now : Z) (k : string) (data : payload)
    (w : write_result) (s : state) :
  announced s -> announced (_handleData rev now k data w s).
Proof.
  intros H.
  destruct rev; cbn; unfold _handleData_optimized, _handleData_legacy;
    destruct (streams s !! k) as [info|]; try exact H;
    destruct (ffmpeg info) as [p|]; try exact H;
    try destruct (negb (is_destroyed p s)); try exact H;
    destruct data as [buffer|]; try exact H;
    try (now apply announced_stop);
    (apply (announced_set_process p (stdin_write buffer w) s);
     [reflexivity|exact H]).
Qed.

Lemma announced_handle (rev : revision) (hw : option string) (now : Z)
    (e : event) (s : state) :
  announced s -> announced (handle rev hw now e s).
Proof.
  intros H. destruct e as [k c sp|k data w|k|k|q message|q code|q];
    cbn [handle].
  - now apply announced_start.
  - now apply announced_data.
  - now apply announced_stop.
  - now apply announced_stop.
  - unfold on_error. destruct (processes s !! q) as [pr|]; [|exact H].
    apply announced_stop. now apply announced_emit.
  - unfold on_close. destruct (processes s !! q) as [pr|]; [|exact H].
    assert (announced (set_process q (closed code) s)) as H1
      by (apply announced_set_process; [reflexivity|exact H]).
    destruct (_ && _); [|exact H1].
    now apply (announced_emit (proc_socket pr) _ (set_process q (closed code) s)).
  - apply announced_set_process; [reflexivity|exact H].
Qed.

Lemma filter_alter_same (P : process -> bool) (g : process -> process)
    (q : nat) (l : list process) :
  (forall pr, P (g pr) = P pr) ->
  length (List.filter P (alter g q l)) = length (List.filter P l).
Proof.
  intros Hg. revert q. induction l as [|x l IH]; intros [|q]; cbn;
    try reflexivity.
  - rewrite Hg. now destruct (P x).
  - destruct (P x); cbn; now rewrite IH.
Qed.

Lemma alter_twice (f g : process -> process) (q : nat) (l : list process) :
  alter f q (alter g q l) = alter (fun x => f (g x)) q l.
Proof.
  revert q. induction l as [|x l IH]; intros [|q]; cbn; rewrite ?IH;
    reflexivity.
Qed.

Lemma filter_alter_flip (P : process -> bool) (g : process -> process)
    (q : nat) (l : list process) (x : process) :
  l !! q = Some x -> P x = false -> P (g x) = true ->
  length (List.filter P (alter g q l)) = S (length (List.filter P l)).
Proof.
  revert q. induction l as [|y l IH]; intros [|q] Hq Hx Hgx; try discriminate.
  - cbn in Hq. injection Hq as ->. cbn. now rewrite Hx, Hgx.
  - cbn in Hq. cbn. destruct (P y); cbn; now rewrite (IH q).
Qed.

Lemma summaries_snoc (k : string) (e : emission)
    (log : list (string * emission)) :
  summaries (log ++ [(k, e)])
  = (summaries log + (if is_stopped e then 1 else 0))%nat.
Proof.
  unfold summaries. rewrite List.filter_app, length_app. cbn.
  now destruct (is_stopped e).
Qed.

Lemma terminal_torn_down_only (pr : process) :
  torn_down (kill SIGTERM (stdin_end pr)) = true.
Proof.
  unfold torn_down. cbn. rewrite bool_decide_eq_true_2; [reflexivity|].
  apply list_elem_of_In, in_or_app. right. now left.
Qed.

Lemma summarised_emit (k : string) (e : emission) (s : state) :
  is_stopped e = false -> summarised s -> summarised (emit k e s).
Proof.
  intros He H. unfold summarised, emit in *. cbn [emitted processes].
  rewrite summaries_snoc, He. lia.
Qed.

Lemma summarised_set_process (q : nat) (g : process -> process) (s : state) :
  (forall pr, torn_down (g pr) = torn_down pr) ->
  summarised s -> summarised (set_process q g s).
Proof.
  intros Hg H. unfold summarised in *. unfold set_process.
  cbn [emitted processes]. rewrite <- H. unfold teardowns.
  now apply filter_alter_same.
Qed.

Lemma summarised_stop (now : Z) (k : string) (s : state) :
  registry_ok s -> summarised s -> summarised (_stopStream now k s).
Proof.
  intros Hok H. destruct (streams s !! k) as [info|] eqn:E;
    [|now rewrite _stopStream_absent].
  destruct (Hok _ _ E) as (p & pr & Hp & Hpr & _ & Hend & Hsig & _).
  rewrite (_stopStream_present _ _ _ _ _ E Hp).
  unfold summarised in *. cbn [emitted processes].
  rewrite summaries_snoc. cbn [is_stopped]. rewrite <- H. unfold teardowns.
  rewrite alter_twice.
  rewrite (filter_alter_flip torn_down _ p (processes s) pr Hpr); [lia| |].
  - unfold torn_down. now rewrite Hend.
  - apply terminal_torn_down_only.
Qed.

Lemma summarised_start (rev : revision) (hw : option string) (now : Z)
    (k : string) (c : Config) (sp : spawn_result) (s : state) :
  registry_ok s -> summarised s ->
  summarised (_startStream rev hw now k c sp s).
Proof.
  intros Hok H. unfold _startStream.
  destruct (negb (truthy (rtmpUrl c))); [now apply summarised_emit|].
  pose proof (summarised_stop now k s Hok H) as H1.
  destruct sp as [message|launched]; [now apply summarised_emit|].
  unfold summarised in *. unfold set_streams, emit. cbn [emitted processes].
  rewrite summaries_snoc. cbn [is_stopped]. rewrite <- H1. unfold teardowns.
  rewrite List.filter_app, length_app. cbn. lia.
Qed.

Lemma summarised_data (rev : revision) (now : Z) (k : string) (data : payload)
    (w : write_result) (s : state) :
  registry_ok s -> summarised s ->
  summarised (_handleData rev now k data w s).
Proof.
  intros Hok H.
  destruct rev; cbn; unfold _handleData_optimized, _handleData_legacy;
    destruct (streams s !! k) as [info|]; try exact H;
    destruct (ffmpeg info) as [p|]; try exact H;
    try destruct (negb (is_destroyed p s)); try exact H;
    destruct data as [buffer|]; try exact H;
    try (now apply summarised_stop);
    (apply (summarised_set_process p (stdin_write buffer w) s);
     [reflexivity|exact H]).
Qed.

Lemma summarised_handle (rev : revision) (hw : option string) (now : Z)
    (e : event) (s : state) :
  registry_ok s -> summarised s -> summarised (handle rev hw now e s).
Proof.
  intros Hok H. destruct e as [k c sp|k data w|k|k|q message|q code|q];
    cbn [handle].
  - now apply summarised_start.
  - now apply summarised_data.
  - now apply summarised_stop.
  - now apply summarised_stop.
  - unfold on_error. destruct (processes s !! q) as [pr|]; [|exact H].
    apply summarised_stop; [exact Hok|]. now apply summarised_emit.
  - unfold on_close. destruct (processes s !! q) as [pr|]; [|exact H].
    assert (summarised (set_process q (closed code) s)) as H1
      by (apply summarised_set_process; [reflexivity|exact H]).
    destruct (_ && _); [|exact H1].
    now apply (summarised_emit (proc_socket pr) _
                 (set_process q (closed code) s)).
  - apply summarised_set_process; [reflexivity|exact H].
Qed.

Variable rev : revision.
Variable hw : option string.

Lemma accounting_run (trace : list (Z * event)) (s : state) :
  registry_ok s -> announced s -> summarised s ->
  announced (run rev hw trace s) /\ summarised (run rev hw trace s).
Proof.
  revert s. induction trace as [|[now e] trace IH]; intros s Hok Ha Hs;
    [now split|].
  apply IH; [now apply registry_ok_handle|now apply announced_handle
            |now apply summarised_handle].
Qed.

End Accounting.

(** X11. Every spawned encoder is announced, and nothing else is: in every
    reachable state the sockets that were sent [stream-started], in order,
    are the sockets of the processes spawned, in order. In particular the
    number of [stream-started] events equals the number of processes. *)
Theorem every_encoder_is_announced (rev : revision) (hw : option string)
    (s : state) :
  reachable rev hw s ->
  started_sockets (emitted s) = map proc_socket (processes s) /\
  length (started_sockets (emitted s)) = length (processes s).
Proof.
  intros [trace ->].
  destruct (accounting_run rev hw trace initial registry_ok_initial
              eq_refl eq_refl) as [Ha _].
  split; [exact Ha|]. rewrite Ha. apply length_map.
Qed.

Lemma every_encoder_is_announced_witness :
  let s :=
    run Optimized None
      [(0, start_stream "s1" scenario_A (spawn_returns true));
       (5, start_stream "s2" scenario_A (spawn_throws "spawn EINVAL"));
       (9, start_stream "s2" scenario_A (spawn_returns false));
       (20, start_stream "s1" scenario_A (spawn_returns true))] initial in
  reachable Optimized None s /\
  started_sockets (emitted s) = ["s1"; "s2"; "s1"] /\
  length (processes s) = 3%nat.
Proof.
  intros s.
  assert (reachable Optimized None s) as Hs by (eexists; reflexivity).
  split; [exact Hs|]. split; [vm_compute; reflexivity|].
  rewrite <- (proj2 (every_encoder_is_announced Optimized None s Hs)).
  vm_compute. reflexivity.
Defined.

(** X12. A summary is sent exactly when an encoder is torn down: in every
    reachable state the number of [stream-stopped] events equals the
    number of processes whose pipe was ended and that were sent SIGTERM. *)
Theorem every_teardown_is_summarised (rev : revision) (hw : option string)
    (s : state) :
  reachable rev hw s ->
  summaries (emitted s) = teardowns (processes s).
Proof.
  intros [trace ->].
  destruct (accounting_run rev hw trace initial registry_ok_initial
              eq_refl eq_refl) as [_ Hs].
  symmetry. exact Hs.
Qed.

Lemma every_teardown_is_summarised_witness :
  let s :=
    run Optimized None
      [(0, start_stream "s1" scenario_A (spawn_returns true));
       (20, start_stream "s1" scenario_A (spawn_returns true));
       (30, ffmpeg_close 1%nat (Some 1));
       (40, stop_stream "s1")] initial in
  reachable Optimized None s /\
  summaries (emitted s) = 1%nat /\ teardowns (processes s) = 1%nat.
Proof.
  intros s.
  assert (reachable Optimized None s) as Hs by (eexists; reflexivity).
  split; [exact Hs|]. split; [vm_compute; reflexivity|].
  rewrite <- (every_teardown_is_summarised Optimized None s Hs).
  vm_compute. reflexivity.
Defined.

(** * Further properties of the encoder arguments *)

Section MoreArguments.

(** A numeral is never mistaken for an option name. *)
Lemma numeral_is_no_flag (n : Z) (flag : string) :
  parse_decimal flag = None -> String.eqb (String_ n) flag = false.
Proof.
  intros H. apply String.eqb_neq. intros E.
  rewrite <- E, parse_String_ in H. discriminate.
Qed.

End MoreArguments.

(** Walks an argument list past numerals and filters as well. *)
Ltac find_option :=
  repeat (rewrite arg_value_skip;
          [| first [ reflexivity
                   | apply rate_is_no_flag; cbn; discriminate
                   | apply numeral_is_no_flag; reflexivity ] ]);
  rewrite arg_value_hit.

(** X13. Rate control is constant bitrate in both revisions: for every
    valid encoding [-maxrate] and [-b:v] carry the same value, the
    requested bitrate in kilobits. *)
Theorem maxrate_equals_bitrate (rev : revision) (hw : option string)
    (url : string) (e : encoding) :
  valid_encoding e ->
  arg_kilobits "-b:v" (ffmpegArgs rev hw url e) = Some (enc_bitrate e) /\
  arg_kilobits "-maxrate" (ffmpegArgs rev hw url e) = Some (enc_bitrate e).
Proof.
  intros _. unfold arg_kilobits, ffmpegArgs, _buildFFmpegArgs, ffmpegArgs_legacy.
  split; (destruct rev; [destruct (useHardware hw)|]); cbn [app];
    find_option; apply kilobits_rate.
Qed.

Lemma maxrate_equals_bitrate_witness :
  valid_encoding (destructure scenario_A) /\
  arg_value "-maxrate"
    (ffmpegArgs Optimized (Some "true") "rtmp://ingest.example/live/abc123"
       (destructure scenario_A)) = Some "2500k" /\
  arg_kilobits "-maxrate"
    (ffmpegArgs Optimized (Some "true") "rtmp://ingest.example/live/abc123"
       (destructure scenario_A)) = Some 2500.
Proof.
  assert (valid_encoding (destructure scenario_A)) as H
    by (unfold valid_encoding, valid_number, MAX_SAFE_INTEGER; cbn; lia).
  split; [exact H|]. split; [reflexivity|].
  exact (proj2 (maxrate_equals_bitrate Optimized (Some "true")
                  "rtmp://ingest.example/live/abc123" _ H)).
Defined.

(** X14. Whatever the encoding asks for, both revisions read their input
    from the standard-input pipe, force the requested frame rate and the
    yuv420p pixel format, transcode the audio to AAC at 128k, 44100 Hz,
    two channels, and write FLV; the last argument is the output URL. *)
Theorem fixed_stream_settings (rev : revision) (hw : option string)
    (url : string) (e : encoding) :
  valid_encoding e ->
  let args := ffmpegArgs rev hw url e in
  arg_value "-i" args = Some "pipe:0" /\
  arg_number "-r" args = Some (enc_fps e) /\
  arg_value "-pix_fmt" args = Some "yuv420p" /\
  arg_value "-c:a" args = Some "aac" /\
  arg_value "-b:a" args = Some "128k" /\
  arg_value "-ar" args = Some "44100" /\
  arg_value "-ac" args = Some "2" /\
  arg_value "-f" args = Some "flv" /\
  last args = Some url.
Proof.
  intros _ args. subst args.
  unfold arg_number, ffmpegArgs, _buildFFmpegArgs, ffmpegArgs_legacy.
  repeat split; (destruct rev; [destruct (useHardware hw)|]); cbn [app];
    try reflexivity; find_option; try reflexivity; apply parse_String_.
Qed.

Lemma fixed_stream_settings_witness :
  valid_encoding (destructure scenario_A) /\
  arg_number "-r"
    (ffmpegArgs Legacy None "rtmp://ingest.example/live/abc123"
       (destructure scenario_A)) = Some 30 /\
  last (ffmpegArgs Legacy None "rtmp://ingest.example/live/abc123"
          (destructure scenario_A))
  = Some "rtmp://ingest.example/live/abc123".
Proof.
  assert (valid_encoding (destructure scenario_A)) as H
    by (unfold valid_encoding, valid_number, MAX_SAFE_INTEGER; cbn; lia).
  split; [exact H|].
  pose proof (fixed_stream_settings Legacy None
                "rtmp://ingest.example/live/abc123" _ H) as F.
  cbv zeta in F. destruct F as (_ & Hr & _ & _ & _ & _ & _ & _ & Hl).
  split; [exact Hr|exact Hl].
Defined.

(** X15. The encoder is chosen by the environment variable alone: the
    optimized revision uses [h264_nvenc] with preset [p4] exactly when
    [USE_HARDWARE_ENCODING] is the string [true], and [libx264] with
    preset [ultrafast] for any other value or none; the legacy revision
    always uses [libx264] with preset [veryfast]. *)
Theorem encoder_selection (hw : option string) (url : string) (e : encoding) :
  (hw = Some "true" ->
   arg_value "-c:v" (ffmpegArgs Optimized hw url e) = Some "h264_nvenc" /\
   arg_value "-preset" (ffmpegArgs Optimized hw url e) = Some "p4" /\
   arg_value "-gpu" (ffmpegArgs Optimized hw url e) = Some "0") /\
  (hw <> Some "true" ->
   arg_value "-c:v" (ffmpegArgs Optimized hw url e) = Some "libx264" /\
   arg_value "-preset" (ffmpegArgs Optimized hw url e) = Some "ultrafast" /\
   arg_value "-gpu" (ffmpegArgs Optimized hw url e) = None) /\
  arg_value "-c:v" (ffmpegArgs Legacy hw url e) = Some "libx264" /\
  arg_value "-preset" (ffmpegArgs Legacy hw url e) = Some "veryfast".
Proof.
  assert (hw <> Some "true" -> useHardware hw = false) as Hsw.
  { intros Hne. destruct hw as [v|]; [|reflexivity]. cbn.
    apply String.eqb_neq. congruence. }
  unfold ffmpegArgs, _buildFFmpegArgs, ffmpegArgs_legacy.
  split; [|split; [|split]].
  - intros ->. change (useHardware (Some "true")) with true. cbn [app].
    repeat split; find_option; reflexivity.
  - intros Hne. rewrite (Hsw Hne). cbn [app]. split; [reflexivity|].
    split; [reflexivity|].
    repeat (rewrite arg_value_skip;
            [| first [ reflexivity
                     | apply rate_is_no_flag; cbn; discriminate
                     | apply numeral_is_no_flag; reflexivity ] ]).
    reflexivity.
  - reflexivity.
  - reflexivity.
Qed.

Lemma encoder_selection_witness :
  Some "TRUE" <> Some "true" /\
  arg_value "-c:v"
    (ffmpegArgs Optimized (Some "TRUE") "rtmp://a/b" (destructure scenario_A))
  = Some "libx264" /\
  arg_value "-c:v"
    (ffmpegArgs Optimized (Some "true") "rtmp://a/b" (destructure scenario_A))
  = Some "h264_nvenc".
Proof.
  assert (Some "TRUE" <> Some "true") as H by discriminate.
  split; [exact H|]. split.
  - exact (proj1 (proj1 (proj2 (encoder_selection (Some "TRUE") "rtmp://a/b"
                                  (destructure scenario_A))) H)).
  - exact (proj1 (proj1 (encoder_selection (Some "true") "rtmp://a/b"
                           (destructure scenario_A)) eq_refl)).
Defined.

(** X16. The output target of a started encoder is the URL of the request,
    followed by [/] and the stream key when a non-empty key is given, and
    the URL alone when the key is missing or empty. *)
Theorem output_target (rev : revision) (hw : option string) (s : state)
    (now : Z) (socket : string) (c : Config) (launched : bool) (url : string) :
  rtmpUrl c = Some url -> url <> EmptyString ->
  let s' := _startStream rev hw now socket c (spawn_returns launched) s in
  let target :=
    match streamKey c with
    | Some key => if String.eqb key EmptyString then url else url +:+ "/" +:+ key
    | None => url
    end in
  (proc_args <$> processes s' !! length (processes s))
  = Some (ffmpegArgs rev hw target (destructure c)) /\
  last (ffmpegArgs rev hw target (destructure c)) = Some target.
Proof.
  intros Hurl Hne s' target.
  assert (truthy (rtmpUrl c) = true) as Ht.
  { rewrite Hurl. cbn. apply negb_true_iff, String.eqb_neq. exact Hne. }
  destruct (_startStream_registers rev hw now socket c launched s Ht)
    as (_ & _ & P & _).
  fold s' in P. rewrite P. cbn.
  assert (fullRtmpUrl (default EmptyString (rtmpUrl c)) (streamKey c) = target)
    as ->.
  { subst target. unfold fullRtmpUrl. rewrite Hurl. cbn.
    destruct (streamKey c) as [key|]; cbn; [|reflexivity].
    now destruct (String.eqb key EmptyString). }
  split; [reflexivity|].
  unfold ffmpegArgs, _buildFFmpegArgs, ffmpegArgs_legacy.
  destruct rev; [destruct (useHardware hw)|]; reflexivity.
Qed.

Lemma output_target_witness :
  let s' :=
    _startStream Optimized None 0 "s1" scenario_A (spawn_returns true) initial in
  rtmpUrl scenario_A = Some "rtmp://ingest.example/live" /\
  "rtmp://ingest.example/live" <> EmptyString /\
  (last <$> (proc_args <$> processes s' !! 0%nat))
  = Some (Some "rtmp://ingest.example/live/abc123").
Proof.
  intros s'. split; [reflexivity|]. split; [discriminate|].
  destruct (output_target Optimized None initial 0 "s1" scenario_A true
              "rtmp://ingest.example/live" eq_refl ltac:(discriminate))
    as [Hargs Hlast].
  fold s' in Hargs. cbn [length processes initial] in Hargs.
  rewrite Hargs. exact (f_equal Some Hlast).
Defined.

(** * The conversion route *)

Section Strings.

Lemma append_cons (c : ascii) (a b : string) :
  String c a +:+ b = String c (a +:+ b).
Proof. reflexivity. Qed.

Lemma append_nil (b : string) : EmptyString +:+ b = b.
Proof. reflexivity. Qed.

Lemma prefix_iff (p s : string) :
  String.prefix p s = true <-> exists r, s = p +:+ r.
Proof.
  revert s. induction p as [|a p IH]; intros s.
  - split; [intros _; now exists s|intros _; now destruct s].
  - destruct s as [|b s]; cbn;
      [split; [discriminate|intros [r Hr]; rewrite append_cons in Hr;
                            discriminate]|].
    destruct (ascii_dec a b) as [->|Hne].
    + split.
      * intros H. apply IH in H as [r ->]. now exists r.
      * intros [r Hr]. rewrite append_cons in Hr. injection Hr as ->.
        apply IH. now exists r.
    + split; [discriminate|]. intros [r Hr]. rewrite append_cons in Hr.
      injection Hr as Hab _. congruence.
Qed.

Lemma substring_all (s : string) : substring 0 (String.length s) s = s.
Proof. induction s as [|c s IH]; cbn; [reflexivity|f_equal; exact IH]. Qed.

Lemma substring_skip (p s : string) (m : nat) :
  substring (String.length p) m (p +:+ s) = substring 0 m s.
Proof.
  induction p as [|c p IH]; [reflexivity|]. rewrite append_cons. exact IH.
Qed.

Lemma length_append (a b : string) :
  String.length (a +:+ b) = (String.length a + String.length b)%nat.
Proof.
  induction a as [|c a IH]; [reflexivity|].
  rewrite append_cons. cbn. f_equal. exact IH.
Qed.

Lemma substring_split (s : string) (k : nat) :
  (k <= String.length s)%nat ->
  s = substring 0 k s +:+ substring k (String.length s - k) s.
Proof.
  revert k. induction s as [|c s IH]; intros [|k] Hk; cbn in *;
    try reflexivity; try lia.
  - now rewrite substring_all.
  - rewrite append_cons. f_equal. apply IH. lia.
Qed.

Lemma endsWith_iff (s suffix : string) :
  endsWith s suffix = true <-> exists stem, s = stem +:+ suffix.
Proof.
  unfold endsWith. split.
  - intros H. apply andb_prop in H as [Hle Heq].
    apply Nat.leb_le in Hle. apply String.eqb_eq in Heq.
    exists (substring 0 (String.length s - String.length suffix) s).
    pose proof (substring_split s (String.length s - String.length suffix)
                  ltac:(lia)) as Hsp.
    replace (String.length s - (String.length s - String.length suffix))%nat
      with (String.length suffix) in Hsp by lia.
    rewrite Heq in Hsp. exact Hsp.
  - intros [stem ->]. rewrite length_append.
    apply andb_true_intro. split; [apply Nat.leb_le; lia|].
    replace (String.length stem + String.length suffix - String.length suffix)%nat
      with (String.length stem) by lia.
    rewrite substring_skip, substring_all. apply String.eqb_refl.
Qed.

Lemma dotless_append (a b : string) :
  dotless (a +:+ b) = dotless a && dotless b.
Proof.
  induction a as [|c a IH]; [reflexivity|]. rewrite append_cons. cbn.
  rewrite IH. now rewrite andb_assoc.
Qed.

Lemma dotless_uint (d : Decimal.uint) :
  dotless (NilEmpty.string_of_uint d) = true.
Proof. induction d; cbn; auto. Qed.

Lemma dotless_String_ (n : Z) : dotless (String_ n) = true.
Proof.
  unfold String_, NilZero.string_of_int, NilZero.string_of_uint.
  destruct (Z.to_int n) as [d|d]; destruct d; cbn; auto using dotless_uint.
Qed.

Lemma replace_unfold (p r s : string) :
  replace p r s =
  if String.prefix p s then
    r +:+ substring (String.length p) (String.length s - String.length p) s
  else
    match s with
    | EmptyString => EmptyString
    | String c rest => String c (replace p r rest)
    end.
Proof. destruct s; reflexivity. Qed.

Lemma replace_hit (p r post : string) :
  replace p r (p +:+ post) = r +:+ post.
Proof.
  rewrite replace_unfold.
  rewrite (proj2 (prefix_iff p (p +:+ post))) by now exists post.
  rewrite length_append.
  replace (String.length p + String.length post - String.length p)%nat
    with (String.length post) by lia.
  now rewrite substring_skip, substring_all.
Qed.

(** [replace] rewrites the first occurrence: one that no dot precedes. *)
Lemma replace_after_dotless (pre post : string) :
  dotless pre = true ->
  replace ".webm" ".mp4" (pre +:+ ".webm" +:+ post) = pre +:+ ".mp4" +:+ post.
Proof.
  induction pre as [|c pre IH]; intros Hd.
  - rewrite !append_nil. apply replace_hit.
  - cbn in Hd. apply andb_prop in Hd as [Hc Hd].
    apply negb_true_iff, Ascii.eqb_neq in Hc.
    rewrite !(append_cons c pre), replace_unfold. cbn [String.prefix].
    destruct (ascii_dec "." c) as [Heq|_]; [congruence|].
    now rewrite IH.
Qed.

Lemma replace_dotless (s : string) :
  dotless s = true -> replace ".webm" ".mp4" s = s.
Proof.
  induction s as [|c s IH]; intros Hd; [reflexivity|].
  cbn in Hd. apply andb_prop in Hd as [Hc Hd].
  apply negb_true_iff, Ascii.eqb_neq in Hc.
  rewrite replace_unfold. cbn [String.prefix].
  destruct (ascii_dec "." c) as [Heq|_]; [congruence|].
  now rewrite IH.
Qed.

End Strings.

Section Route.

Lemma append_assoc (a b c : string) : (a +:+ b) +:+ c = a +:+ (b +:+ c).
Proof.
  induction a as [|x a IH]; [reflexivity|].
  rewrite !append_cons. now rewrite IH.
Qed.

Lemma append_nil_r (a : string) : a +:+ EmptyString = a.
Proof.
  induction a as [|x a IH]; [reflexivity|]. rewrite append_cons. now rewrite IH.
Qed.

Lemma filename_shape (now random : Z) :
  filename now random
  = ("recording-" +:+ String_ now +:+ "-" +:+ String_ random) +:+ ".webm"
  /\ dotless ("recording-" +:+ String_ now +:+ "-" +:+ String_ random) = true.
Proof.
  split.
  - unfold filename. now rewrite !append_assoc.
  - rewrite !dotless_append, !dotless_String_. reflexivity.
Qed.

End Route.

(** X17. The upload filter accepts a file exactly when its MIME type
    begins with [video/] or with [application/octet-stream], or its name
    ends in [.webm], whatever the MIME type then is; every other file is
    refused with the error [Only video files are allowed]. *)
Theorem upload_filter (file : upload) :
  (fileFilter file = inl true <->
   (exists rest, mimetype file = "video/" +:+ rest) \/
   (exists rest, mimetype file = "application/octet-stream" +:+ rest) \/
   (exists stem, originalname file = stem +:+ ".webm")) /\
  (fileFilter file = inl true \/
   fileFilter file = inr "Only video files are allowed").
Proof.
  unfold fileFilter, allowedTypes, startsWith. cbn [existsb].
  rewrite orb_false_r.
  pose proof (prefix_iff "video/" (mimetype file)) as Hv.
  pose proof (prefix_iff "application/octet-stream" (mimetype file)) as Ha.
  pose proof (endsWith_iff (originalname file) ".webm") as He.
  assert (forall t, String.eqb (mimetype file) t = true ->
                    String.prefix t (mimetype file) = true) as Heq.
  { intros t H. apply String.eqb_eq in H. apply prefix_iff.
    exists EmptyString. now rewrite append_nil_r. }
  destruct (String.prefix "video/" (mimetype file)) eqn:E1.
  { cbn. split; [|now left]. split; [intros _; left; now apply Hv|reflexivity]. }
  destruct (String.eqb (mimetype file) "video/") eqn:E1'.
  { apply Heq in E1'. congruence. }
  destruct (String.prefix "application/octet-stream" (mimetype file)) eqn:E2.
  { cbn. split; [|now left].
    split; [intros _; right; left; now apply Ha|reflexivity]. }
  destruct (String.eqb (mimetype file) "application/octet-stream") eqn:E2'.
  { apply Heq in E2'. congruence. }
  cbn. destruct (endsWith (originalname file) ".webm") eqn:E3.
  - split; [|now left].
    split; [intros _; right; right; now apply He|reflexivity].
  - split; [|now right]. split; [discriminate|].
    intros [H|[H|H]]; [apply Hv in H|apply Ha in H|apply He in H]; discriminate.
Qed.

Lemma upload_filter_witness :
  fileFilter {| mimetype := "text/html"; originalname := "page.webm" |}
  = inl true /\
  fileFilter {| mimetype := "image/png"; originalname := "shot.png" |}
  = inr "Only video files are allowed".
Proof.
  split.
  - apply (proj1 (upload_filter _)). right. right. now exists "page".
  - reflexivity.
Defined.

Section OutputPath.

Lemma outputPath_sibling (dir : string) (now random : Z) :
  dotless dir = true ->
  outputPath (dir +:+ "/" +:+ filename now random)
  = dir +:+ "/recording-" +:+ String_ now +:+ "-" +:+ String_ random +:+ ".mp4".
Proof.
  intros Hd. unfold outputPath.
  destruct (filename_shape now random) as [Hf Hdl]. rewrite Hf.
  replace (dir +:+ "/" +:+
           ("recording-" +:+ String_ now +:+ "-" +:+ String_ random) +:+ ".webm")
    with ((dir +:+ "/" +:+
           ("recording-" +:+ String_ now +:+ "-" +:+ String_ random))
          +:+ ".webm" +:+ EmptyString)
    by (rewrite !append_assoc, ?append_nil_r; reflexivity).
  rewrite replace_after_dotless.
  - rewrite !append_assoc, ?append_nil_r. reflexivity.
  - rewrite dotless_append, Hd, (dotless_append "/"), Hdl. reflexivity.
Qed.

End OutputPath.

(** X18. The output path is the input path with its first [.webm]
    replaced by [.mp4], and nothing else changed. For an upload stored
    under the generated name in a directory whose path has no dot, it is
    the sibling file with the extension [.mp4]; when the directory path
    itself contains [.webm], that occurrence is rewritten instead and the
    file part keeps its extension; a path without a dot is returned
    unchanged. *)
Theorem output_path_of_an_upload (dir : string) (now random : Z) :
  dotless dir = true ->
  outputPath (dir +:+ "/" +:+ filename now random)
  = dir +:+ "/recording-" +:+ String_ now +:+ "-" +:+ String_ random +:+ ".mp4" /\
  outputPath (dir +:+ ".webm/" +:+ filename now random)
  = dir +:+ ".mp4/" +:+ filename now random /\
  outputPath dir = dir.
Proof.
  intros Hd. split; [now apply outputPath_sibling|]. unfold outputPath. split.
  - change (dir +:+ ".webm/" +:+ filename now random)
      with (dir +:+ (".webm" +:+ ("/" +:+ filename now random))).
    now rewrite replace_after_dotless.
  - now apply replace_dotless.
Qed.

Lemma output_path_of_an_upload_witness :
  dotless "/tmp/streamteach-uploads" = true /\
  outputPath ("/tmp/streamteach-uploads" +:+ "/" +:+ filename 1700000000000 42)
  = "/tmp/streamteach-uploads/recording-1700000000000-42.mp4".
Proof.
  split; [reflexivity|].
  rewrite (proj1 (output_path_of_an_upload "/tmp/streamteach-uploads"
                    1700000000000 42 eq_refl)).
  reflexivity.
Defined.

(** X19. Whatever format is requested, the video is encoded with libx264
    and the audio with AAC, except for [avi] (libxvid and MP3); a container
    is forced only for [mov] and [avi]. So [webm], which the format list
    offers as VP9, is converted like an unknown format: H.264 and AAC, no
    container set. *)
Theorem conversion_codecs (fmt : string) :
  (fmt <> "avi" ->
   videoCodec (convert_command fmt) = Some "libx264" /\
   audioCodec (convert_command fmt) = Some "aac") /\
  (fmt = "avi" ->
   videoCodec (convert_command fmt) = Some "libxvid" /\
   audioCodec (convert_command fmt) = Some "mp3") /\
  (format (convert_command fmt) =
   if String.eqb fmt "mov" then Some "mov"
   else if String.eqb fmt "avi" then Some "avi" else None) /\
  (fmt <> "mp4" -> outputOptions (convert_command fmt) = []) /\
  (exists e, In e formats /\ id e = "webm" /\ name e = "WebM (VP9)" /\
             convert_command (id e)
             = {| videoCodec := Some "libx264"; audioCodec := Some "aac";
                  outputOptions := []; format := None |}).
Proof.
  unfold convert_command.
  destruct (String.eqb_spec fmt "mp4") as [->|H1];
    [|destruct (String.eqb_spec fmt "mov") as [->|H2];
      [|destruct (String.eqb_spec fmt "avi") as [->|H3]]];
    cbn; (split; [intros H; try congruence; now split|]);
    (split; [intros H; try congruence; try discriminate; now split|]);
    (split; [reflexivity|]); (split; [intros H; congruence|]);
    (eexists; split; [right; right; left; reflexivity|now repeat split]).
Qed.

Lemma conversion_codecs_witness :
  "webm" <> "avi" /\
  videoCodec (convert_command "webm") = Some "libx264" /\
  audioCodec (convert_command "webm") = Some "aac".
Proof.
  assert ("webm" <> "avi") as H by discriminate.
  split; [exact H|]. exact (proj1 (conversion_codecs "webm") H).
Defined.

(** X20. What a conversion request leaves behind. For an upload stored
    under the generated name in a directory without a dot: when the
    conversion succeeds the answer is the download of the [.mp4] sibling
    under the name [recording.] followed by the requested format ([mp4]
    when none is given), and both files are unlinked; when it fails the
    answer is a 500 with the error message and only the upload is
    unlinked, the output file is left. Without a file the answer is a 400
    and nothing is run or unlinked. *)
Theorem conversion_cleanup (dir : string) (now random : Z)
    (body_format : option string) :
  dotless dir = true ->
  let input := dir +:+ "/" +:+ filename now random in
  let output :=
    dir +:+ "/recording-" +:+ String_ now +:+ "-" +:+ String_ random +:+ ".mp4" in
  let fmt := match body_format with
             | Some f => if String.eqb f EmptyString then "mp4" else f
             | None => "mp4"
             end in
  (answer (post_convert (Some input) body_format None)
   = download output ("recording." +:+ fmt) /\
   unlinked (post_convert (Some input) body_format None) = [input; output]) /\
  (forall message,
     answer (post_convert (Some input) body_format (Some message))
     = json 500 "Conversion failed" (Some message) /\
     unlinked (post_convert (Some input) body_format (Some message)) = [input] /\
     job (post_convert (Some input) body_format (Some message))
     = Some (input, convert_command fmt, output)) /\
  input <> output /\
  (forall failure,
     post_convert None body_format failure
     = {| job := None; answer := json 400 "No video file uploaded" None;
          unlinked := [] |}).
Proof.
  intros Hd input output fmt.
  assert (outputPath input = output) as Ho
    by (now apply outputPath_sibling).
  assert (requested_format body_format = fmt) as Hf.
  { subst fmt. unfold requested_format, truthy.
    destruct body_format as [f|]; [|reflexivity].
    now destruct (String.eqb f EmptyString). }
  unfold post_convert. rewrite Ho, Hf. repeat split.
  intros Heq. apply (f_equal String.length) in Heq. subst input output.
  destruct (filename_shape now random) as [Hn _]. rewrite Hn in Heq.
  rewrite <- !append_assoc in Heq. rewrite !length_append in Heq.
  cbn in Heq. lia.
Qed.

Lemma conversion_cleanup_witness :
  dotless "/tmp/streamteach-uploads" = true /\
  unlinked (post_convert
              (Some ("/tmp/streamteach-uploads" +:+ "/" +:+ filename 17 42))
              (Some "mov") (Some "ffmpeg exited with code 1"))
  = ["/tmp/streamteach-uploads/recording-17-42.webm"] /\
  answer (post_convert
            (Some ("/tmp/streamteach-uploads" +:+ "/" +:+ filename 17 42))
            (Some "mov") None)
  = download "/tmp/streamteach-uploads/recording-17-42.mp4" "recording.mov".
Proof.
  split; [reflexivity|].
  destruct (conversion_cleanup "/tmp/streamteach-uploads" 17 42 (Some "mov")
              eq_refl) as ((Hans & _) & Hfail & _).
  split.
  - rewrite (proj1 (proj2 (Hfail "ffmpeg exited with code 1"))). reflexivity.
  - rewrite Hans. reflexivity.
Defined.

(** * The streaming client *)

Section Client.

Import StreamClient.

Lemma or_default_nonzero (x : option Z) (d : Z) :
  d <> 0 -> or_default x d <> 0.
Proof.
  intros Hd. unfold or_default. destruct x as [n|]; [|exact Hd].
  destruct (Z.eqb_spec n 0); [exact Hd|assumption].
Qed.

(** When [start] emits anything, it is the one [start-stream] message of
    the configuration, and the URL check has passed. *)
Lemma start_sent (now : Z) (isTypeSupported : string -> bool)
    (constructed started : option string) (config : Config) (cl : t) :
  let r := start now isTypeSupported constructed started config cl in
  sent r = [] \/
  (sent r = [start_stream_message (start_config config)] /\
   isStreaming cl = false /\ socket cl = Some true /\
   truthy (rtmpUrl config) = true /\ constructed = None /\
   exists mime,
     mediaRecorder (client r)
     = Some {| mimeType := mime;
               videoBitsPerSecond := or_default (bitrate config) 4500 * 1000;
               state := match started with
                        | Some _ => inactive
                        | None => recording
                        end |}).
Proof.
  unfold start. destruct (isStreaming cl); [now left|].
  destruct (socket cl) as [[|]|]; cbn [negb]; try now left.
  destruct (truthy (rtmpUrl config)); cbn [negb]; [|now left].
  destruct (_getSupportedMimeType isTypeSupported) as [mime|]; [|now left].
  destruct (String.eqb mime EmptyString); [now left|].
  destruct constructed as [e|]; [now left|].
  destruct started as [e|]; right; cbn; repeat split; eauto.
Qed.

End Client.

(** X21. What the client asks of the server. Whenever [start] emits a
    [start-stream] message, its URL passes the handler's check, and its
    width, height, fps and bitrate are all present and not 0: the given
    values, with 1920, 1080, 30 and 4500 in place of a missing or zero
    one. The handler therefore never answers it with [RTMP URL is
    required]: it registers a session (when [spawn] returns) with exactly
    these values, and the recorder's bit rate is 1000 times the bitrate the
    encoder is given. *)
Theorem client_start_message (now : Z) (isTypeSupported : string -> bool)
    (constructed started : option string) (config : Config)
    (cl : StreamClient.t) (m : Config) :
  In (StreamClient.start_stream_message m)
     (StreamClient.sent
        (StreamClient.start now isTypeSupported constructed started config cl)) ->
  truthy (rtmpUrl m) = true /\
  destructure m =
    {| enc_width := or_default (width config) 1920;
       enc_height := or_default (height config) 1080;
       enc_fps := or_default (fps config) 30;
       enc_bitrate := or_default (bitrate config) 4500 |} /\
  (enc_width (destructure m) <> 0 /\ enc_height (destructure m) <> 0 /\
   enc_fps (destructure m) <> 0 /\ enc_bitrate (destructure m) <> 0) /\
  (exists rec,
     StreamClient.mediaRecorder
       (StreamClient.client
          (StreamClient.start now isTypeSupported constructed started config cl))
     = Some rec /\
     StreamClient.videoBitsPerSecond rec = enc_bitrate (destructure m) * 1000) /\
  (forall rev hw t id launched s,
     let s' := _startStream rev hw t id m (spawn_returns launched) s in
     registered id s' = Some (length (processes s)) /\
     (proc_args <$> processes s' !! length (processes s))
     = Some (ffmpegArgs rev hw
               (fullRtmpUrl (default EmptyString (rtmpUrl m)) (streamKey m))
               (destructure m)) /\
     emissions_to is_error id (emitted s')
     = emissions_to is_error id (emitted s)).
Proof.
  intros Hin.
  destruct (start_sent now isTypeSupported constructed started config cl)
    as [Hnone|(Hsent & _ & _ & Hurl & _ & mime & Hrec)].
  { rewrite Hnone in Hin. destruct Hin. }
  rewrite Hsent in Hin. destruct Hin as [[= <-]|[]].
  split; [exact Hurl|]. split; [reflexivity|].
  split; [cbn; repeat split; apply or_default_nonzero; discriminate|].
  split; [eexists; split; [exact Hrec|reflexivity]|].
  intros rev hw t id launched s s'.
  destruct (_startStream_registers rev hw t id
              (StreamClient.start_config config) launched s Hurl)
    as (E & _ & P & Hem).
  fold s' in E, P, Hem.
  split; [unfold registered; now rewrite E|]. split; [now rewrite P|].
  rewrite Hem, (emissions_to_own is_error id). cbn.
  rewrite app_nil_r. apply _stopStream_sends_no_error.
Qed.

Lemma client_start_message_witness :
  let cl :=
    {| StreamClient.socket := Some true; StreamClient.mediaRecorder := None;
       StreamClient.isStreaming := false; StreamClient.startTime := None;
       StreamClient.streamConfig := None;
       StreamClient.onStatusChange := true; StreamClient.onError := true |} in
  let config :=
    {| rtmpUrl := Some "rtmp://ingest.example/live"; streamKey := Some "abc123";
       width := Some 0; height := None; fps := Some 60; bitrate := None |} in
  let m := StreamClient.start_config config in
  In (StreamClient.start_stream_message m)
     (StreamClient.sent
        (StreamClient.start 0 (fun _ => true) None None config cl)) /\
  destructure m =
    {| enc_width := 1920; enc_height := 1080; enc_fps := 60;
       enc_bitrate := 4500 |}.
Proof.
  intros cl config m.
  assert (In (StreamClient.start_stream_message m)
            (StreamClient.sent
               (StreamClient.start 0 (fun _ => true) None None config cl)))
    as H by (left; reflexivity).
  split; [exact H|].
  exact (proj1 (proj2 (client_start_message 0 (fun _ => true) None None
                         config cl m H))).
Defined.

(** X22. [start] returns [true] exactly when it turns a client that was
    not streaming into one that is; it then has emitted the one
    [start-stream] message and stamped the start time. A client that is
    already streaming emits nothing and is left as it was, so two
    [start-stream] messages are never sent without the client having
    stopped in between. In every case at most one message is emitted. *)
Theorem client_start_outcome (now : Z) (isTypeSupported : string -> bool)
    (constructed started : option string) (config : Config)
    (cl : StreamClient.t) :
  let r := StreamClient.start now isTypeSupported constructed started config cl in
  (StreamClient.returned r = true <->
   StreamClient.isStreaming cl = false /\
   StreamClient.isStreaming (StreamClient.client r) = true) /\
  (StreamClient.returned r = true ->
   StreamClient.sent r
   = [StreamClient.start_stream_message (StreamClient.start_config config)] /\
   StreamClient.startTime (StreamClient.client r) = Some now /\
   started = None /\ constructed = None) /\
  (StreamClient.isStreaming cl = true ->
   r = {| StreamClient.client := cl; StreamClient.sent := [];
          StreamClient.notified := []; StreamClient.returned := false |}) /\
  (length (StreamClient.sent r) <= 1)%nat.
Proof.
  intros r. subst r. unfold StreamClient.start. cbv zeta.
  assert (forall (c : StreamClient.t) (notes : list StreamClient.notification),
            StreamClient.isStreaming c = false ->
            StreamClient.isStreaming cl = false ->
            (StreamClient.returned
               {| StreamClient.client := c; StreamClient.sent := [];
                  StreamClient.notified := notes;
                  StreamClient.returned := false |} = true <->
             false = false /\
             StreamClient.isStreaming
               (StreamClient.client
                  {| StreamClient.client := c; StreamClient.sent := [];
                     StreamClient.notified := notes;
                     StreamClient.returned := false |}) = true) /\
            (StreamClient.returned
               {| StreamClient.client := c; StreamClient.sent := [];
                  StreamClient.notified := notes;
                  StreamClient.returned := false |} = true ->
             StreamClient.sent
               {| StreamClient.client := c; StreamClient.sent := [];
                  StreamClient.notified := notes;
                  StreamClient.returned := false |}
             = [StreamClient.start_stream_message
                  (StreamClient.start_config config)] /\
             StreamClient.startTime
               (StreamClient.client
                  {| StreamClient.client := c; StreamClient.sent := [];
                     StreamClient.notified := notes;
                     StreamClient.returned := false |}) = Some now /\
             started = None /\ constructed = None) /\
            (false = true ->
             {| StreamClient.client := c; StreamClient.sent := [];
                StreamClient.notified := notes;
                StreamClient.returned := false |}
             = {| StreamClient.client := cl; StreamClient.sent := [];
                  StreamClient.notified := [];
                  StreamClient.returned := false |}) /\
            (length
               (StreamClient.sent
                  {| StreamClient.client := c; StreamClient.sent := [];
                     StreamClient.notified := notes;
                     StreamClient.returned := false |}) <= 1)%nat) as Hfail.
  { intros c notes Hc Hs. cbn. rewrite Hc.
    split; [split; [discriminate|intros [_ H]; discriminate]|].
    split; [discriminate|]. split; [discriminate|lia]. }
  destruct (StreamClient.isStreaming cl) eqn:Hs.
  { cbn. split; [split; [discriminate|intros [H _]; discriminate]|].
    split; [discriminate|]. split; [reflexivity|lia]. }
  destruct (StreamClient.socket cl) as [[|]|]; cbn [negb];
    [|apply Hfail; solve [exact Hs|reflexivity]..].
  destruct (truthy (rtmpUrl config)); cbn [negb];
    [|apply Hfail; solve [exact Hs|reflexivity]].
  destruct (StreamClient._getSupportedMimeType isTypeSupported) as [mime|];
    [|apply Hfail; solve [exact Hs|reflexivity]].
  destruct (String.eqb mime EmptyString);
    [apply Hfail; solve [exact Hs|reflexivity]|].
  destruct constructed as [e|];
    [apply Hfail; solve [exact Hs|reflexivity]|].
  destruct started as [e|]; cbn.
  - split; [split; [discriminate|intros [_ H]; discriminate]|].
    split; [discriminate|]. split; [discriminate|lia].
  - split; [split; [now split|reflexivity]|].
    split; [now repeat split|]. split; [discriminate|lia].
Qed.

Lemma client_start_outcome_witness :
  let cl :=
    {| StreamClient.socket := Some true; StreamClient.mediaRecorder := None;
       StreamClient.isStreaming := false; StreamClient.startTime := None;
       StreamClient.streamConfig := None;
       StreamClient.onStatusChange := true; StreamClient.onError := true |} in
  let r := StreamClient.start 7 (fun _ => true) None None scenario_A cl in
  StreamClient.returned r = true /\
  StreamClient.startTime (StreamClient.client r) = Some 7 /\
  StreamClient.sent
    (StreamClient.start 9 (fun _ => true) None None scenario_A
       (StreamClient.client r)) = [].
Proof.
  intros cl r.
  assert (StreamClient.returned r = true) as H by reflexivity.
  split; [exact H|].
  split.
  - exact (proj1 (proj2 (proj1 (proj2
             (client_start_outcome 7 (fun _ => true) None None scenario_A cl))
             H))).
  - rewrite (proj1 (proj2 (proj2
               (client_start_outcome 9 (fun _ => true) None None scenario_A
                  (StreamClient.client r)))) eq_refl).
    reflexivity.
Defined.

(** X23. A recorder that fails to start leaves a session behind. When
    [mediaRecorder.start] throws, [start] has already emitted the
    [start-stream] message: it reports the failure and returns [false]
    with the client not streaming, so that [stop] emits nothing; the
    handler, having received only the start, keeps the session it
    registered. *)
Theorem recorder_failure_leaves_the_session (now : Z)
    (isTypeSupported : string -> bool) (message : string) (config : Config)
    (cl : StreamClient.t) (mime : string) :
  StreamClient.isStreaming cl = false ->
  StreamClient.socket cl = Some true ->
  truthy (rtmpUrl config) = true ->
  StreamClient._getSupportedMimeType isTypeSupported = Some mime ->
  let r := StreamClient.start now isTypeSupported None (Some message) config cl in
  StreamClient.returned r = false /\
  StreamClient.isStreaming (StreamClient.client r) = false /\
  StreamClient.sent r
  = [StreamClient.start_stream_message (StreamClient.start_config config)] /\
  StreamClient.notified r
  = StreamClient.report_error cl ("Failed to start streaming: " +:+ message) /\
  StreamClient.sent (StreamClient.stop (StreamClient.client r)) = [] /\
  (forall rev hw id launched w t s,
     let trace :=
       map (fun m => (t, StreamClient.arrives id (spawn_returns launched) w m))
         (StreamClient.sent r
          ++ StreamClient.sent (StreamClient.stop (StreamClient.client r))) in
     registered id (run rev hw trace s) = Some (length (processes s))).
Proof.
  intros Hs Hsock Hurl Hmime r.
  assert (String.eqb mime EmptyString = false) as Hne.
  { apply List.find_some in Hmime as [Hin _].
    unfold StreamClient.types in Hin. cbn in Hin.
    destruct Hin as [<-|[<-|[<-|[<-|[<-|[]]]]]]; reflexivity. }
  assert (r = {| StreamClient.client :=
                   {| StreamClient.socket := StreamClient.socket cl;
                      StreamClient.mediaRecorder :=
                        Some {| StreamClient.mimeType := mime;
                                StreamClient.videoBitsPerSecond :=
                                  or_default (bitrate config) 4500 * 1000;
                                StreamClient.state := StreamClient.inactive |};
                      StreamClient.isStreaming := false;
                      StreamClient.startTime := StreamClient.startTime cl;
                      StreamClient.streamConfig := Some config;
                      StreamClient.onStatusChange := StreamClient.onStatusChange cl;
                      StreamClient.onError := StreamClient.onError cl |};
                 StreamClient.sent :=
                   [StreamClient.start_stream_message
                      (StreamClient.start_config config)];
                 StreamClient.notified :=
                   StreamClient.report_error cl
                     ("Failed to start streaming: " +:+ message);
                 StreamClient.returned := false |}) as ->.
  { subst r. unfold StreamClient.start.
    rewrite Hs, Hsock, Hurl, Hmime, Hne. reflexivity. }
  cbn. repeat split.
  intros rev hw id launched w t s.
  destruct (_startStream_registers rev hw t id
              (StreamClient.start_config config) launched s Hurl) as (E & _).
  unfold registered. now rewrite E.
Qed.

Lemma recorder_failure_leaves_the_session_witness :
  let cl :=
    {| StreamClient.socket := Some true; StreamClient.mediaRecorder := None;
       StreamClient.isStreaming := false; StreamClient.startTime := None;
       StreamClient.streamConfig := None;
       StreamClient.onStatusChange := true; StreamClient.onError := true |} in
  let r :=
    StreamClient.start 0 (fun _ => true) None (Some "NotSupportedError")
      scenario_A cl in
  StreamClient._getSupportedMimeType (fun _ => true)
  = Some "video/webm;codecs=vp9,opus" /\
  StreamClient.returned r = false /\
  StreamClient.sent (StreamClient.stop (StreamClient.client r)) = [] /\
  registered "s1"
    (run Optimized None
       (map (fun m => (5, StreamClient.arrives "s1" (spawn_returns true) WriteOk m))
          (StreamClient.sent r
           ++ StreamClient.sent (StreamClient.stop (StreamClient.client r))))
       initial) = Some 0%nat.
Proof.
  intros cl r.
  pose proof (recorder_failure_leaves_the_session 0 (fun _ => true)
                "NotSupportedError" scenario_A cl "video/webm;codecs=vp9,opus"
                eq_refl eq_refl eq_refl eq_refl) as H.
  cbv zeta in H. destruct H as (H1 & _ & _ & _ & H5 & H6).
  split; [reflexivity|]. split; [exact H1|]. split; [exact H5|].
  exact (H6 Optimized None "s1" true WriteOk 5 initial).
Defined.

(** X24. [stop] on a streaming client emits exactly one [stop-stream]
    message (when it has a socket), drops the recorder and leaves the
    client not streaming; on a client that is not streaming it does
    nothing. So a second [stop] emits nothing, and after a stop no chunk
    the recorder still hands over is sent. *)
Theorem client_stop (cl : StreamClient.t) :
  let r := StreamClient.stop cl in
  StreamClient.isStreaming (StreamClient.client r) = false /\
  (StreamClient.isStreaming cl = true ->
   StreamClient.mediaRecorder (StreamClient.client r) = None /\
   StreamClient.sent r
   = match StreamClient.socket cl with
     | Some _ => [StreamClient.stop_stream_message]
     | None => []
     end /\
   StreamClient.notified r
   = StreamClient.report_status cl "offline" "Stream stopped by user") /\
  (StreamClient.isStreaming cl = false ->
   r = {| StreamClient.client := cl; StreamClient.sent := [];
          StreamClient.notified := []; StreamClient.returned := tt |}) /\
  StreamClient.stop (StreamClient.client r)
  = {| StreamClient.client := StreamClient.client r; StreamClient.sent := [];
       StreamClient.notified := []; StreamClient.returned := tt |} /\
  (forall data, StreamClient.ondataavailable data (StreamClient.client r) = []).
Proof.
  intros r. subst r. unfold StreamClient.stop.
  destruct (StreamClient.isStreaming cl) eqn:Hs; cbn.
  - repeat split; try discriminate.
    intros [bytes|]; [|reflexivity]. cbn. now rewrite andb_false_r.
  - rewrite Hs. cbn. repeat split; try discriminate.
    intros [bytes|]; [|reflexivity]. cbn. now rewrite Hs, andb_false_r.
Qed.

Lemma client_stop_witness :
  let cl :=
    {| StreamClient.socket := Some true; StreamClient.mediaRecorder := None;
       StreamClient.isStreaming := true; StreamClient.startTime := Some 5;
       StreamClient.streamConfig := Some scenario_A;
       StreamClient.onStatusChange := true; StreamClient.onError := true |} in
  StreamClient.isStreaming cl = true /\
  StreamClient.sent (StreamClient.stop cl) = [StreamClient.stop_stream_message] /\
  StreamClient.sent
    (StreamClient.stop (StreamClient.client (StreamClient.stop cl))) = [].
Proof.
  intros cl. split; [reflexivity|]. split.
  - exact (proj1 (proj2 (proj1 (proj2 (client_stop cl)) eq_refl))).
  - rewrite (proj1 (proj2 (proj2 (proj2 (client_stop cl))))). reflexivity.
Defined.

Section Durations.

Lemma two_digits_below_60 (n : Z) : 0 <= n < 60 -> two_digits n = true.
Proof.
  intros Hn.
  assert (forallb (fun k => two_digits (Z.of_nat k)) (seq 0 60) = true) as Hall
    by (vm_compute; reflexivity).
  rewrite forallb_forall in Hall.
  specialize (Hall (Z.to_nat n)). rewrite Z2Nat.id in Hall by lia.
  apply Hall, in_seq. lia.
Qed.

Lemma padStart2_below_60 (n : Z) :
  0 <= n < 60 ->
  String.length (padStart2 (String_ n)) = 2%nat /\
  parse_decimal (padStart2 (String_ n)) = Some n.
Proof.
  intros Hn. pose proof (two_digits_below_60 n Hn) as H.
  unfold two_digits in H. apply andb_prop in H as [Hl Hp].
  apply Nat.eqb_eq in Hl. split; [exact Hl|].
  destruct (parse_decimal (padStart2 (String_ n))) as [k|]; [|discriminate].
  apply Z.eqb_eq in Hp. now subst.
Qed.

End Durations.

(** X25. The formatted duration of a non-negative number of seconds is
    [mm:ss] below one hour and [h:mm:ss] from one hour on, where the
    hours, minutes (below 60) and seconds (below 60) add up to the
    duration, and minutes and seconds are written with exactly two digits
    that read back as their value. *)
Theorem formatted_duration (seconds : Z) :
  0 <= seconds ->
  exists h m s : Z,
    seconds = 3600 * h + 60 * m + s /\
    0 <= h /\ 0 <= m < 60 /\ 0 <= s < 60 /\
    StreamClient.formatted seconds
    = (if 0 <? h then String_ h +:+ ":" else EmptyString)
      +:+ padStart2 (String_ m) +:+ ":" +:+ padStart2 (String_ s) /\
    String.length (padStart2 (String_ m)) = 2%nat /\
    String.length (padStart2 (String_ s)) = 2%nat /\
    parse_decimal (padStart2 (String_ m)) = Some m /\
    parse_decimal (padStart2 (String_ s)) = Some s.
Proof.
  intros Hs.
  exists (seconds / 3600), (Z.rem seconds 3600 / 60), (Z.rem seconds 60).
  rewrite !Z.rem_mod_nonneg by lia.
  pose proof (Z.div_mod seconds 3600 ltac:(lia)) as H1.
  pose proof (Z.mod_pos_bound seconds 3600 ltac:(lia)) as H2.
  pose proof (Z.div_mod (seconds mod 3600) 60 ltac:(lia)) as H3.
  pose proof (Z.mod_pos_bound (seconds mod 3600) 60 ltac:(lia)) as H4.
  pose proof (Z.mod_pos_bound seconds 60 ltac:(lia)) as H5.
  assert (seconds mod 60 = (seconds mod 3600) mod 60) as H6.
  { symmetry. apply Z.mod_mod_divide. exists 60. reflexivity. }
  assert (0 <= seconds / 3600) as H7 by (apply Z.div_pos; lia).
  assert (0 <= seconds mod 3600 / 60 < 60) as H8.
  { split; [apply Z.div_pos; lia|]. apply Z.div_lt_upper_bound; lia. }
  destruct (padStart2_below_60 _ H8) as [L1 P1].
  destruct (padStart2_below_60 _ H5) as [L2 P2].
  split; [lia|]. split; [exact H7|]. split; [exact H8|]. split; [exact H5|].
  split; [|now repeat split].
  unfold StreamClient.formatted. rewrite !Z.rem_mod_nonneg by lia.
  destruct (0 <? seconds / 3600); [|reflexivity].
  now rewrite !append_assoc.
Qed.

Lemma formatted_duration_witness :
  0 <= 3725 /\ StreamClient.formatted 3725 = "1:02:05" /\
  StreamClient.formatted 65 = "01:05" /\
  exists h m s : Z, 3725 = 3600 * h + 60 * m + s /\ 0 <= m < 60 /\ 0 <= s < 60.
Proof.
  split; [lia|]. split; [reflexivity|]. split; [reflexivity|].
  destruct (formatted_duration 3725 ltac:(lia))
    as (h & m & s & H1 & _ & H3 & H4 & _).
  exists h, m, s. split; [exact H1|]. split; [exact H3|exact H4].
Defined.

(** X26. A clean exit stalls the stream without anyone noticing. After the
    encoder of a session has closed with code 0, the socket has been sent
    nothing, so a client that is streaming stays so; the chunks it keeps
    emitting arrive at a handler that has no session for them and change
    nothing. *)
Theorem clean_exit_leaves_the_client_streaming (rev : revision)
    (hw : option string) (s : state) (now t : Z) (socket : string)
    (info : streamInfo) (p : nat) (cl : StreamClient.t)
    (bytes : list Byte.byte) (sp : spawn_result) (w : write_result) :
  reachable rev hw s ->
  streams s !! socket = Some info -> ffmpeg info = Some p ->
  StreamClient.isStreaming cl = true -> bytes <> [] ->
  let s' := handle rev hw now (ffmpeg_close p (Some 0)) s in
  emitted s' = emitted s /\
  StreamClient.ondataavailable (Some bytes) cl
  = [StreamClient.stream_data_message bytes] /\
  run rev hw
    (map (fun m => (t, StreamClient.arrives socket sp w m))
       (StreamClient.ondataavailable (Some bytes) cl)) s' = s'.
Proof.
  intros Hs E Hp Hcl Hb s'.
  destruct (reachable_registry_ok rev hw s Hs _ _ E)
    as (q & pr & Hq & Hpr & Hsock & _).
  assert (q = p) as -> by congruence.
  assert (emitted s' = emitted s /\ streams s' !! socket = None) as [Hem Hnone].
  { subst s'. cbn [handle]. unfold on_close. rewrite Hpr, Hsock. cbn.
    split; [reflexivity|apply lookup_delete_eq]. }
  assert (StreamClient.ondataavailable (Some bytes) cl
          = [StreamClient.stream_data_message bytes]) as Hd.
  { unfold StreamClient.ondataavailable. rewrite Hcl.
    destruct bytes; [congruence|reflexivity]. }
  split; [exact Hem|]. split; [exact Hd|]. rewrite Hd. clearbody s'.
  cbn. destruct rev; cbn; unfold _handleData_optimized, _handleData_legacy;
    now rewrite Hnone.
Qed.

Lemma clean_exit_leaves_the_client_streaming_witness :
  let s :=
    run Optimized None
      [(0, start_stream "s1" scenario_A (spawn_returns true))] initial in
  let s' := handle Optimized None 9000 (ffmpeg_close 0%nat (Some 0)) s in
  let cl :=
    {| StreamClient.socket := Some true; StreamClient.mediaRecorder := None;
       StreamClient.isStreaming := true; StreamClient.startTime := Some 5;
       StreamClient.streamConfig := Some scenario_A;
       StreamClient.onStatusChange := true; StreamClient.onError := true |} in
  reachable Optimized None s /\
  StreamClient.isStreaming cl = true /\ [Byte.x01] <> [] /\
  run Optimized None
    (map (fun m => (9500, StreamClient.arrives "s1" (spawn_returns true) WriteOk m))
       (StreamClient.ondataavailable (Some [Byte.x01]) cl)) s' = s'.
Proof.
  intros s s' cl.
  assert (reachable Optimized None s) as Hs by (eexists; reflexivity).
  split; [exact Hs|]. split; [reflexivity|]. split; [discriminate|].
  exact (proj2 (proj2 (clean_exit_leaves_the_client_streaming Optimized None
                         s 9000 9500 "s1"
                         {| ffmpeg := Some 0%nat; startTime := 0;
                            bytesReceived := 0; config := scenario_A |}
                         0%nat cl [Byte.x01] (spawn_returns true) WriteOk Hs
                         ltac:(vm_compute; reflexivity) eq_refl eq_refl
                         ltac:(discriminate)))).
Defined.

(** X27. What the user sees when the encoder fails. For a registered
    session and a streaming client with both callbacks set: when the
    encoder closes with a code other than 0 the client hears one error,
    reports it and goes offline; when the encoder emits [error] the client
    hears the error and the summary, reports the error once and goes
    offline twice. Either way the client is then not streaming, and a
    [stop] emits nothing. *)
Theorem encoder_failure_reaches_the_user (rev : revision) (hw : option string)
    (s : state) (now t : Z) (socket : string) (info : streamInfo) (p : nat)
    (cl : StreamClient.t) :
  reachable rev hw s ->
  streams s !! socket = Some info -> ffmpeg info = Some p ->
  StreamClient.isStreaming cl = true ->
  StreamClient.onError cl = true -> StreamClient.onStatusChange cl = true ->
  (forall code, code_nonzero code = true ->
     let text := "Stream ended unexpectedly (code " +:+ code_text code +:+ ")" in
     let heard := [stream_error text] in
     emitted (handle rev hw now (ffmpeg_close p code) s)
     = emitted s ++ map (fun e => (socket, e)) heard /\
     snd (client_hears t heard cl)
     = [StreamClient.error_reported text;
        StreamClient.status_changed "offline" text] /\
     StreamClient.isStreaming (fst (client_hears t heard cl)) = false /\
     StreamClient.sent (StreamClient.stop (fst (client_hears t heard cl))) = []) /\
  (forall message,
     let text := "FFmpeg error: " +:+ message in
     let heard :=
       [stream_error text;
        stream_stopped (Math_round_div1000 (now - startTime info))
          (bytesReceived info)] in
     emitted (handle rev hw now (ffmpeg_error p message) s)
     = emitted s ++ map (fun e => (socket, e)) heard /\
     snd (client_hears t heard cl)
     = [StreamClient.error_reported text;
        StreamClient.status_changed "offline" text;
        StreamClient.status_changed "offline" "Stream ended"] /\
     StreamClient.isStreaming (fst (client_hears t heard cl)) = false /\
     StreamClient.sent (StreamClient.stop (fst (client_hears t heard cl))) = []).
Proof.
  intros Hs E Hp Hcl Herr Hst.
  pose proof (reachable_registry_ok rev hw s Hs) as Hok.
  destruct (Hok _ _ E) as (q & pr & Hq & Hpr & Hsock & _).
  assert (q = p) as -> by congruence.
  split.
  - intros code Hcode text heard. split.
    + cbn [handle]. unfold on_close. rewrite Hpr, Hsock, Hcode. cbn.
      rewrite E. now rewrite bool_decide_eq_true_2 by eauto.
    + subst heard. cbn. unfold StreamClient.report_error,
        StreamClient.report_status. rewrite Herr, Hst. cbn. now repeat split.
  - intros message text heard. subst text heard. split.
    + cbn [handle]. unfold on_error. rewrite Hpr, Hsock. cbv zeta.
      rewrite (_stopStream_present now socket
                 (emit socket (stream_error ("FFmpeg error: " +:+ message)) s)
                 info p E Hp).
      cbn. now rewrite <- app_assoc.
    + cbn. unfold StreamClient.report_error,
        StreamClient.report_status. cbn. rewrite Herr, Hst. cbn.
      now repeat split.
Qed.

Lemma encoder_failure_reaches_the_user_witness :
  let s :=
    run Optimized None
      [(0, start_stream "s1" scenario_A (spawn_returns true))] initial in
  let cl :=
    {| StreamClient.socket := Some true; StreamClient.mediaRecorder := None;
       StreamClient.isStreaming := true; StreamClient.startTime := Some 5;
       StreamClient.streamConfig := Some scenario_A;
       StreamClient.onStatusChange := true; StreamClient.onError := true |} in
  reachable Optimized None s /\
  code_nonzero (Some 1) = true /\
  snd (client_hears 7 [stream_error "Stream ended unexpectedly (code 1)"] cl)
  = [StreamClient.error_reported "Stream ended unexpectedly (code 1)";
     StreamClient.status_changed "offline" "Stream ended unexpectedly (code 1)"].
Proof.
  intros s cl.
  assert (reachable Optimized None s) as Hs by (eexists; reflexivity).
  split; [exact Hs|]. split; [reflexivity|].
  exact (proj1 (proj2 (proj1 (encoder_failure_reaches_the_user Optimized None
                                s 5000 7 "s1"
                                {| ffmpeg := Some 0%nat; startTime := 0;
                                   bytesReceived := 0; config := scenario_A |}
                                0%nat cl Hs ltac:(vm_compute; reflexivity)
                                eq_refl eq_refl eq_refl eq_refl)
                         (Some 1) eq_refl))).
Defined.
